(** * Gap Analysis Orchestrator

    A shallow embedding of [app/services/gap_analyzer/orchestrator.py]
    (class [GapAnalysisOrchestrator]) and the properties its design document
    states about it, followed by further properties read off the code.

    Conventions of the embedding.
    - Python [int] is [Z]; [len(...)] is [Z.of_nat (length ...)].
    - Python [float] is modelled in exact rational arithmetic ([Q]); the
      clock [time.time()] is a rational number of seconds.
    - Python [str] is [string], one [ascii] per character (Latin-1 text).
    - The orchestrator's attributes ([self....]) form the record [Orch];
      gap objects live in a heap and the lists hold references to them, so
      that [gap.validation_strikes += 1] is seen through every list.
    - Every collaborator call and every clock reading is an oracle indexed by
      the number of interactions so far, and is appended to a log. *)

From Stdlib Require Import Ascii QArith Qround Qminmax Lqa.
From stdpp Require Import gmap strings list pretty.

Open Scope Z_scope.
Open Scope string_scope.
Open Scope list_scope.

(** ** Python string primitives *)

Module Py.

(** [str.isspace] on one Latin-1 character: code points 9-13, 28-32, 133
    and 160. *)
Definition isspace (c : ascii) : bool :=
  let n := nat_of_ascii c in
  ((9 <=? n)%nat && (n <=? 13)%nat) || ((28 <=? n)%nat && (n <=? 32)%nat)
  || (n =? 133)%nat || (n =? 160)%nat.

Fixpoint lstrip (s : string) : string :=
  match s with
  | EmptyString => EmptyString
  | String c s' => if isspace c then lstrip s' else s
  end.

Fixpoint rstrip (s : string) : string :=
  match s with
  | EmptyString => EmptyString
  | String c s' =>
      match rstrip s' with
      | EmptyString => if isspace c then EmptyString else String c EmptyString
      | r => String c r
      end
  end.

(** [s.strip()] *)
Definition strip (s : string) : string := rstrip (lstrip s).

(** [len(s)] *)
Definition len (s : string) : Z := Z.of_nat (String.length s).

(** [s[:n]] for a non-negative literal [n] *)
Fixpoint str_take (n : nat) (s : string) : string :=
  match n, s with
  | S n', String c s' => String c (str_take n' s')
  | _, _ => EmptyString
  end.

(** [s.split()] : the maximal runs of non-space characters. [cur] is the
    word being read, in reverse. *)
Fixpoint split_ws_go (cur : list ascii) (s : string) : list string :=
  let flush := match cur with
               | [] => []
               | _ => [String.string_of_list_ascii (rev cur)]
               end in
  match s with
  | EmptyString => flush
  | String c s' =>
      if isspace c then flush ++ split_ws_go [] s'
      else split_ws_go (c :: cur) s'
  end.

Definition split_ws (s : string) : list string := split_ws_go [] s.

(** [s.split('\n')] : the pieces between line feeds, empty ones included. *)
Fixpoint split_nl_go (cur : list ascii) (s : string) : list string :=
  match s with
  | EmptyString => [String.string_of_list_ascii (rev cur)]
  | String c s' =>
      if (nat_of_ascii c =? 10)%nat
      then String.string_of_list_ascii (rev cur) :: split_nl_go [] s'
      else split_nl_go (c :: cur) s'
  end.

Definition split_nl (s : string) : list string := split_nl_go [] s.

(** [sep.join(l)] *)
Definition join (sep : string) (l : list string) : string := String.concat sep l.

(** [s.lower()] on Latin-1: A-Z and the accented capitals 192-222 (but the
    multiplication sign 215) move up by 32. *)
Definition lower_char (c : ascii) : ascii :=
  let n := nat_of_ascii c in
  if ((65 <=? n)%nat && (n <=? 90)%nat)
     || ((192 <=? n)%nat && (n <=? 222)%nat && negb (n =? 215)%nat)
  then ascii_of_nat (n + 32) else c.

Fixpoint lower (s : string) : string :=
  match s with
  | EmptyString => EmptyString
  | String c s' => String (lower_char c) (lower s')
  end.

(** [sub in s] *)
Fixpoint contains (sub s : string) : bool :=
  String.prefix sub s ||
  match s with
  | EmptyString => false
  | String _ s' => contains sub s'
  end.

(** [l[:n]] and [l[-n:]] for lists *)
Definition slice_to {A} (n : nat) (l : list A) : list A := take n l.
Definition slice_last {A} (n : nat) (l : list A) : list A :=
  drop (length l - n) l.

(** [round(x, nd)] : to the nearest multiple of [10^-nd], ties to the even
    one. *)
Definition round_half_even (y : Q) : Z :=
  let f := Qfloor y in
  let d := (y - inject_Z f)%Q in
  match (d ?= 1 # 2)%Q with
  | Lt => f
  | Gt => f + 1
  | Eq => if Z.even f then f else f + 1
  end.

Definition round (x : Q) (nd : nat) : Q :=
  let p := 10 ^ Z.of_nat nd in
  (inject_Z (round_half_even (x * inject_Z p)) / inject_Z p)%Q.

(** truth value of a float *)
Definition truthy (x : Q) : bool := negb (Qeq_bool x 0).

End Py.

Arguments Py.str_take : simpl never.
Arguments Py.strip : simpl never.
Arguments Py.len : simpl never.


(** ** Data model

    The classes come from [models.py], outside the orchestrator module; the
    records below carry the fields that the orchestrator reads and writes. *)

(** [PaperAnalysis] *)
Record PaperAnalysis := {
  url : string;
  title : string;
  limitations : list string;
  future_work : list string;
  key_findings : list string
}.

(** Modelled from the spec: [ResearchGap] of [models.py]; the orchestrator
    never passes [validation_strikes] to the constructor, and a new gap starts
    with no strike. Such objects compare by their fields. *)
Record ResearchGap := {
  gap_id : string;
  description : string;
  source_paper : string;
  source_paper_title : string;
  category : string;
  validation_strikes : Z
}.

Global Instance ResearchGap_eq_dec : EqDecision ResearchGap.
Proof. solve_decision. Defined.

Global Instance ResearchGap_inhabited : Inhabited ResearchGap :=
  populate {| gap_id := ""; description := ""; source_paper := "";
              source_paper_title := ""; category := ""; validation_strikes := 0 |}.

(** [GapMetrics] *)
Record GapMetrics := {
  difficulty_score : Q;
  innovation_potential : Q;
  commercial_viability : Q;
  time_to_solution : string;
  funding_likelihood : Z;
  collaboration_score : Q;
  ethical_considerations : Q
}.

(** [ResearchContext] *)
Record ResearchContext := {
  related_gaps : list string;
  prerequisite_technologies : list string;
  competitive_landscape : string;
  key_researchers : list string;
  active_research_groups : list string;
  recent_breakthroughs : list string
}.

(** [ValidatedGap] *)
Record ValidatedGap := {
  vg_gap_id : string;
  vg_gap_title : string;
  vg_description : string;
  vg_source_paper : string;
  vg_source_paper_title : string;
  vg_validation_evidence : string;
  vg_potential_impact : string;
  vg_suggested_approaches : list string;
  vg_category : string;
  vg_gap_metrics : GapMetrics;
  vg_research_context : ResearchContext;
  vg_validation_attempts : Z;
  vg_papers_checked_against : Z;
  vg_confidence_score : Q;
  vg_opportunity_tags : list string;
  vg_interdisciplinary_connections : list string;
  vg_industry_relevance : list string;
  vg_estimated_researcher_years : Q;
  vg_recommended_team_size : string;
  vg_key_milestones : list string;
  vg_success_metrics : list string
}.

(** [self.stats] *)
Record Stats := {
  gaps_discovered : Z;
  gaps_eliminated : Z;
  search_queries_executed : Z;
  validation_attempts : Z;
  frontier_expansions : Z;
  research_areas_explored : Z
}.

(** ** Collaborators and the interaction log *)

(** Outcome of a call: a value, or a Python exception. *)
Inductive Res (A : Type) : Type :=
| Ok (a : A)
| Raise.
Arguments Ok {A} a.
Arguments Raise {A}.

Inductive Event : Type :=
| EvClock (t : Q)
| EvUuid (u : string)
| EvAnalyze (u : string) (r : Res (option PaperAnalysis))
| EvQueries (g : ResearchGap) (r : Res (list string))
| EvSearch (qs : list string) (limit : Z) (r : Res (list string))
| EvSearchValidation (d : string) (r : Res (list string))
| EvValidate (g : ResearchGap) (ps : list PaperAnalysis) (r : Res bool)
| EvEnrich (g : ResearchGap) (r : Res (option ValidatedGap))
| EvGenerate (d : string) (r : Res string).

(** The environment of a run. The first argument of an oracle is the number
    of interactions logged so far, so an answer may change from one call to
    the next. [model] is [self.model] ([None] without an API key) and takes
    the gap description that the prompt is built around; [set_order] is the
    iteration order of [list(set(l))]. *)
Record Collaborators := {
  time_time : nat -> Q;
  uuid4 : nat -> string;
  analyze_paper : nat -> string -> Res (option PaperAnalysis);
  generate_validation_queries : nat -> ResearchGap -> Res (list string);
  search_papers : nat -> list string -> Z -> Res (list string);
  search_for_gap_validation : nat -> string -> Res (list string);
  validate_gap_against_papers :
    nat -> ResearchGap -> list PaperAnalysis -> Res bool;
  enrich_validated_gap : nat -> ResearchGap -> Res (option ValidatedGap);
  model : option (nat -> string -> Res string);
  set_order : list string -> list string
}.

(** ** Orchestrator state

    The attributes of [self], the interaction log, and [papers_analyzed]:
    the local variable of [_phase_2_expanding_frontier], kept here because
    its increments survive an exception that the exploration loop catches. *)

Record Orch := {
  heap : list ResearchGap;
  gap_search_queue : list nat;
  potential_gaps_db : list nat;
  final_gaps_list : list ValidatedGap;
  analyzed_papers_set : gset string;
  analyzed_papers : list PaperAnalysis;
  research_frontier : gset string;
  papers_to_analyze_queue : list string;
  stats : Stats;
  papers_analyzed : Z;
  log : list Event
}.

Definition set_heap (f : list ResearchGap -> list ResearchGap) (s : Orch) : Orch :=
  {| heap := f (heap s); gap_search_queue := gap_search_queue s;
     potential_gaps_db := potential_gaps_db s; final_gaps_list := final_gaps_list s;
     analyzed_papers_set := analyzed_papers_set s; analyzed_papers := analyzed_papers s;
     research_frontier := research_frontier s;
     papers_to_analyze_queue := papers_to_analyze_queue s;
     stats := stats s; papers_analyzed := papers_analyzed s; log := log s |}.

Definition set_gap_search_queue (f : list nat -> list nat) (s : Orch) : Orch :=
  {| heap := heap s; gap_search_queue := f (gap_search_queue s);
     potential_gaps_db := potential_gaps_db s; final_gaps_list := final_gaps_list s;
     analyzed_papers_set := analyzed_papers_set s; analyzed_papers := analyzed_papers s;
     research_frontier := research_frontier s;
     papers_to_analyze_queue := papers_to_analyze_queue s;
     stats := stats s; papers_analyzed := papers_analyzed s; log := log s |}.

Definition set_potential_gaps_db (f : list nat -> list nat) (s : Orch) : Orch :=
  {| heap := heap s; gap_search_queue := gap_search_queue s;
     potential_gaps_db := f (potential_gaps_db s); final_gaps_list := final_gaps_list s;
     analyzed_papers_set := analyzed_papers_set s; analyzed_papers := analyzed_papers s;
     research_frontier := research_frontier s;
     papers_to_analyze_queue := papers_to_analyze_queue s;
     stats := stats s; papers_analyzed := papers_analyzed s; log := log s |}.

Definition set_final_gaps_list (f : list ValidatedGap -> list ValidatedGap) (s : Orch) : Orch :=
  {| heap := heap s; gap_search_queue := gap_search_queue s;
     potential_gaps_db := potential_gaps_db s; final_gaps_list := f (final_gaps_list s);
     analyzed_papers_set := analyzed_papers_set s; analyzed_papers := analyzed_papers s;
     research_frontier := research_frontier s;
     papers_to_analyze_queue := papers_to_analyze_queue s;
     stats := stats s; papers_analyzed := papers_analyzed s; log := log s |}.

Definition set_analyzed_papers_set (f : gset string -> gset string) (s : Orch) : Orch :=
  {| heap := heap s; gap_search_queue := gap_search_queue s;
     potential_gaps_db := potential_gaps_db s; final_gaps_list := final_gaps_list s;
     analyzed_papers_set := f (analyzed_papers_set s); analyzed_papers := analyzed_papers s;
     research_frontier := research_frontier s;
     papers_to_analyze_queue := papers_to_analyze_queue s;
     stats := stats s; papers_analyzed := papers_analyzed s; log := log s |}.

Definition set_analyzed_papers (f : list PaperAnalysis -> list PaperAnalysis) (s : Orch) : Orch :=
  {| heap := heap s; gap_search_queue := gap_search_queue s;
     potential_gaps_db := potential_gaps_db s; final_gaps_list := final_gaps_list s;
     analyzed_papers_set := analyzed_papers_set s; analyzed_papers := f (analyzed_papers s);
     research_frontier := research_frontier s;
     papers_to_analyze_queue := papers_to_analyze_queue s;
     stats := stats s; papers_analyzed := papers_analyzed s; log := log s |}.

Definition set_research_frontier (f : gset string -> gset string) (s : Orch) : Orch :=
  {| heap := heap s; gap_search_queue := gap_search_queue s;
     potential_gaps_db := potential_gaps_db s; final_gaps_list := final_gaps_list s;
     analyzed_papers_set := analyzed_papers_set s; analyzed_papers := analyzed_papers s;
     research_frontier := f (research_frontier s);
     papers_to_analyze_queue := papers_to_analyze_queue s;
     stats := stats s; papers_analyzed := papers_analyzed s; log := log s |}.

Definition set_papers_to_analyze_queue (f : list string -> list string) (s : Orch) : Orch :=
  {| heap := heap s; gap_search_queue := gap_search_queue s;
     potential_gaps_db := potential_gaps_db s; final_gaps_list := final_gaps_list s;
     analyzed_papers_set := analyzed_papers_set s; analyzed_papers := analyzed_papers s;
     research_frontier := research_frontier s;
     papers_to_analyze_queue := f (papers_to_analyze_queue s);
     stats := stats s; papers_analyzed := papers_analyzed s; log := log s |}.

Definition set_stats (f : Stats -> Stats) (s : Orch) : Orch :=
  {| heap := heap s; gap_search_queue := gap_search_queue s;
     potential_gaps_db := potential_gaps_db s; final_gaps_list := final_gaps_list s;
     analyzed_papers_set := analyzed_papers_set s; analyzed_papers := analyzed_papers s;
     research_frontier := research_frontier s;
     papers_to_analyze_queue := papers_to_analyze_queue s;
     stats := f (stats s); papers_analyzed := papers_analyzed s; log := log s |}.

Definition set_papers_analyzed (f : Z -> Z) (s : Orch) : Orch :=
  {| heap := heap s; gap_search_queue := gap_search_queue s;
     potential_gaps_db := potential_gaps_db s; final_gaps_list := final_gaps_list s;
     analyzed_papers_set := analyzed_papers_set s; analyzed_papers := analyzed_papers s;
     research_frontier := research_frontier s;
     papers_to_analyze_queue := papers_to_analyze_queue s;
     stats := stats s; papers_analyzed := f (papers_analyzed s); log := log s |}.

Definition set_log (f : list Event -> list Event) (s : Orch) : Orch :=
  {| heap := heap s; gap_search_queue := gap_search_queue s;
     potential_gaps_db := potential_gaps_db s; final_gaps_list := final_gaps_list s;
     analyzed_papers_set := analyzed_papers_set s; analyzed_papers := analyzed_papers s;
     research_frontier := research_frontier s;
     papers_to_analyze_queue := papers_to_analyze_queue s;
     stats := stats s; papers_analyzed := papers_analyzed s; log := f (log s) |}.

(** [self.stats[key] += n] *)
Definition add_gaps_discovered (n : Z) (t : Stats) : Stats :=
  {| gaps_discovered := gaps_discovered t + n; gaps_eliminated := gaps_eliminated t;
     search_queries_executed := search_queries_executed t;
     validation_attempts := validation_attempts t;
     frontier_expansions := frontier_expansions t;
     research_areas_explored := research_areas_explored t |}.

Definition add_gaps_eliminated (n : Z) (t : Stats) : Stats :=
  {| gaps_discovered := gaps_discovered t; gaps_eliminated := gaps_eliminated t + n;
     search_queries_executed := search_queries_executed t;
     validation_attempts := validation_attempts t;
     frontier_expansions := frontier_expansions t;
     research_areas_explored := research_areas_explored t |}.

Definition add_search_queries_executed (n : Z) (t : Stats) : Stats :=
  {| gaps_discovered := gaps_discovered t; gaps_eliminated := gaps_eliminated t;
     search_queries_executed := search_queries_executed t + n;
     validation_attempts := validation_attempts t;
     frontier_expansions := frontier_expansions t;
     research_areas_explored := research_areas_explored t |}.

Definition add_validation_attempts (n : Z) (t : Stats) : Stats :=
  {| gaps_discovered := gaps_discovered t; gaps_eliminated := gaps_eliminated t;
     search_queries_executed := search_queries_executed t;
     validation_attempts := validation_attempts t + n;
     frontier_expansions := frontier_expansions t;
     research_areas_explored := research_areas_explored t |}.

Definition add_frontier_expansions (n : Z) (t : Stats) : Stats :=
  {| gaps_discovered := gaps_discovered t; gaps_eliminated := gaps_eliminated t;
     search_queries_executed := search_queries_executed t;
     validation_attempts := validation_attempts t;
     frontier_expansions := frontier_expansions t + n;
     research_areas_explored := research_areas_explored t |}.

Definition add_research_areas_explored (n : Z) (t : Stats) : Stats :=
  {| gaps_discovered := gaps_discovered t; gaps_eliminated := gaps_eliminated t;
     search_queries_executed := search_queries_executed t;
     validation_attempts := validation_attempts t;
     frontier_expansions := frontier_expansions t;
     research_areas_explored := research_areas_explored t + n |}.

(** The state that [initialize] installs before each analysis. *)
Definition initialize : Orch :=
  {| heap := []; gap_search_queue := []; potential_gaps_db := [];
     final_gaps_list := []; analyzed_papers_set := ∅; analyzed_papers := [];
     research_frontier := ∅; papers_to_analyze_queue := [];
     stats := {| gaps_discovered := 0; gaps_eliminated := 0;
                 search_queries_executed := 0; validation_attempts := 0;
                 frontier_expansions := 0; research_areas_explored := 0 |};
     papers_analyzed := 0; log := [] |}.

(** ** The monad of orchestrator code: state, and Python exceptions *)

Definition M (A : Type) : Type := Orch -> Res A * Orch.

Global Instance M_ret : MRet M := fun A a s => (Ok a, s).

Global Instance M_bind : MBind M := fun A B k m s =>
  match m s with
  | (Ok a, s') => k a s'
  | (Raise, s') => (Raise, s')
  end.

(** [raise Exception(...)] *)
Definition raise {A} : M A := fun s => (Raise, s).

(** [try: body / except Exception: handler] *)
Definition try_except {A} (body handler : M A) : M A := fun s =>
  match body s with
  | (Ok a, s') => (Ok a, s')
  | (Raise, s') => handler s'
  end.

Definition get : M Orch := fun s => (Ok s, s).
Definition modify (f : Orch -> Orch) : M unit := fun s => (Ok tt, f s).

(** An interaction: ask the oracle at the current index and log the answer. *)
Definition interact {A} (ask : nat -> Res A) (ev : Res A -> Event) : M A := fun s =>
  let r := ask (length (log s)) in
  (r, set_log (fun l => l ++ [ev r]) s).

(** ** Gap objects behind references *)

(** [a == b] on two gap objects *)
Definition gap_eqb (h : list ResearchGap) (a b : nat) : bool :=
  bool_decide (h !!! a = h !!! b).

(** [gap in l] *)
Definition py_in (h : list ResearchGap) (r : nat) (l : list nat) : bool :=
  existsb (fun x => gap_eqb h x r) l.

(** [l.remove(gap)] : drops the first equal element; [None] is ValueError. *)
Fixpoint py_remove (h : list ResearchGap) (r : nat) (l : list nat) : option (list nat) :=
  match l with
  | [] => None
  | x :: l' => if gap_eqb h x r then Some l' else cons x <$> py_remove h r l'
  end.

(** [l.index(gap)] *)
Fixpoint py_index (h : list ResearchGap) (r : nat) (l : list nat) : option nat :=
  match l with
  | [] => None
  | x :: l' => if gap_eqb h x r then Some 0%nat else S <$> py_index h r l'
  end.

(** [gap.validation_strikes += 1] *)
Definition strike (g : ResearchGap) : ResearchGap :=
  {| gap_id := gap_id g; description := description g;
     source_paper := source_paper g; source_paper_title := source_paper_title g;
     category := category g; validation_strikes := validation_strikes g + 1 |}.

Section Orchestrator.

Variable W : Collaborators.

(** [time.time()] *)
Definition now : M Q :=
  interact (fun i => Ok (time_time W i))
           (fun r => match r with Ok t => EvClock t | Raise => EvClock 0 end).

(** [str(uuid4())[:8]] *)
Definition fresh_id : M string :=
  u ← interact (fun i => Ok (uuid4 W i))
               (fun r => match r with Ok u => EvUuid u | Raise => EvUuid "" end);
  mret (Py.str_take 8 u).

(** [timeout_deadline and time.time() >= timeout_deadline] *)
Definition deadline_passed (timeout_deadline : option Q) : M bool :=
  match timeout_deadline with
  | None => mret false
  | Some d =>
      if Py.truthy d then t ← now; mret (Qle_bool d t) else mret false
  end.

(** *** [_extract_gaps_from_paper] *)

(** One pass of either loop: a statement longer than 20 characters once
    stripped becomes a gap. *)
Fixpoint extract_statements (paper : PaperAnalysis) (cat : string)
    (l : list string) : M unit :=
  match l with
  | [] => mret tt
  | x :: l' =>
      (if (20 <? Py.len (Py.strip x))%Z then
         i ← fresh_id;
         modify (fun s =>
           set_stats (add_gaps_discovered 1)
             (set_potential_gaps_db (fun db => db ++ [length (heap s)])
               (set_heap (fun h => h ++
                  [{| gap_id := i; description := Py.strip x;
                      source_paper := url paper;
                      source_paper_title := title paper;
                      category := cat; validation_strikes := 0 |}]) s)))
       else mret tt);;
      extract_statements paper cat l'
  end.

Definition _extract_gaps_from_paper (paper : PaperAnalysis) : M unit :=
  extract_statements paper "Limitation" (limitations paper);;
  extract_statements paper "Future Work" (future_work paper).

(** *** Collaborator calls *)

Definition call_analyze_paper (u : string) : M (option PaperAnalysis) :=
  interact (fun i => analyze_paper W i u) (EvAnalyze u).

Definition call_generate_validation_queries (g : ResearchGap) : M (list string) :=
  interact (fun i => generate_validation_queries W i g) (EvQueries g).

Definition call_search_papers (qs : list string) (limit : Z) : M (list string) :=
  interact (fun i => search_papers W i qs limit) (EvSearch qs limit).

Definition call_search_for_gap_validation (d : string) : M (list string) :=
  interact (fun i => search_for_gap_validation W i d) (EvSearchValidation d).

Definition call_validate_gap_against_papers (g : ResearchGap)
    (ps : list PaperAnalysis) : M bool :=
  interact (fun i => validate_gap_against_papers W i g ps) (EvValidate g ps).

Definition call_enrich_validated_gap (g : ResearchGap) : M (option ValidatedGap) :=
  interact (fun i => enrich_validated_gap W i g) (EvEnrich g).

(** The gap object behind a reference, as it is now. *)
Definition read_gap (r : nat) : M ResearchGap := fun s => (Ok (heap s !!! r), s).

(** *** [_search_for_gap_solutions] *)
Definition _search_for_gap_solutions (g : ResearchGap) (limit : Z) : M (list string) :=
  try_except
    (solution_queries ← call_generate_validation_queries g;
     call_search_papers solution_queries limit)
    (mret []).

(** *** [_search_for_related_research] *)
Definition _search_for_related_research (g : ResearchGap) : M (list string) :=
  try_except
    (match model W with
     | None => mret []
     | Some generate_content =>
         text ← interact (fun i => generate_content i (description g))
                         (EvGenerate (description g));
         let queries :=
           take 2 (List.filter (fun q => negb (String.eqb q ""))
                     (map Py.strip (Py.split_nl (Py.strip text)))) in
         match queries with
         | [] => mret []
         | _ =>
             modify (set_stats
               (add_search_queries_executed (Z.of_nat (length queries))));;
             call_search_papers queries 1
         end
     end)
    (mret []).

(** *** [_quick_gap_enrichment] *)
Definition _quick_gap_enrichment (gap : ResearchGap) : ValidatedGap :=
  let description_length := inject_Z (Py.len (description gap)) in
  let wc := Z.of_nat (length (Py.split_ws (description gap))) in
  let word_count := inject_Z wc in
  {| vg_gap_id := gap_id gap;
     vg_gap_title := Py.str_take 100 (description gap);
     vg_description := description gap;
     vg_source_paper := source_paper gap;
     vg_source_paper_title := source_paper_title gap;
     vg_validation_evidence := "Validated through systematic analysis";
     vg_potential_impact := "Significant research opportunity identified";
     vg_suggested_approaches :=
       ["Detailed analysis required"; "Empirical investigation";
        "Theoretical exploration"];
     vg_category := "Research Opportunity";
     vg_gap_metrics :=
       {| difficulty_score := Qmin 8 (Qmax 4 (5 + word_count / 20));
          innovation_potential := Qmin 9 (Qmax 6 (7 + description_length / 100));
          commercial_viability := Qmin 8 (Qmax 4 (5.5 + word_count / 30));
          time_to_solution :=
            pretty (Z.max 1 (wc / 10)) +:+ "-" +:+ pretty (Z.max 2 (wc / 8))
            +:+ " years";
          funding_likelihood := Z.min 90 (Z.max 50 (60 + wc * 2));
          collaboration_score := Qmin 9 (Qmax 4 (5 + word_count / 15));
          ethical_considerations := Qmin 7 (Qmax 2 (3 + word_count / 25)) |}%Q;
     vg_research_context :=
       {| related_gaps := ["Related research areas"];
          prerequisite_technologies := ["Standard research methodologies"];
          competitive_landscape := "Emerging research area with opportunities";
          key_researchers := ["Research community"];
          active_research_groups := ["Academic institutions"];
          recent_breakthroughs := ["Recent developments in the field"] |};
     vg_validation_attempts := validation_strikes gap;
     vg_papers_checked_against := 1;
     vg_confidence_score := 75;
     vg_opportunity_tags := ["Research Opportunity"];
     vg_interdisciplinary_connections := ["General Research"];
     vg_industry_relevance := ["Research Sector"];
     vg_estimated_researcher_years := 3;
     vg_recommended_team_size := "3-5 researchers";
     vg_key_milestones := ["Research phase"; "Validation phase"];
     vg_success_metrics := ["Demonstrate feasibility"; "Validate hypothesis"] |}.

(** [self.final_gaps_list.append(v)] *)
Definition append_final (v : ValidatedGap) : M unit :=
  modify (set_final_gaps_list (fun l => l ++ [v])).

(** The enrichment block that the driver's timeout branch, the drain and the
    graduation step each spell out: the validator's enrichment, and the quick
    one when it returns [None] or raises. *)
Definition enrich_into_final (r : nat) : M unit :=
  try_except
    (g ← read_gap r;
     validated_gap ← call_enrich_validated_gap g;
     match validated_gap with
     | Some v => append_final v
     | None => g' ← read_gap r; append_final (_quick_gap_enrichment g')
     end)
    (g ← read_gap r; append_final (_quick_gap_enrichment g)).

(** [self.potential_gaps_db.remove(gap)] *)
Definition remove_pending (r : nat) : M unit := fun s =>
  match py_remove (heap s) r (potential_gaps_db s) with
  | Some l => (Ok tt, set_potential_gaps_db (fun _ => l) s)
  | None => (Raise, s)
  end.

(** [if gap in self.potential_gaps_db: self.potential_gaps_db.remove(gap)] *)
Definition remove_pending_if_in (r : nat) : M bool := fun s =>
  if py_in (heap s) r (potential_gaps_db s)
  then match remove_pending r s with
       | (Ok _, s') => (Ok true, s')
       | (Raise, s') => (Raise, s')
       end
  else (Ok false, s).

(** *** [_phase_1_seeding] *)
Definition _phase_1_seeding (seed_url : string) : M PaperAnalysis :=
  seed_analysis ← call_analyze_paper seed_url;
  match seed_analysis with
  | None => raise
  | Some p =>
      modify (fun s =>
        set_analyzed_papers (fun _ => [p])
          (set_analyzed_papers_set (fun _ => {[seed_url]})
            (set_papers_to_analyze_queue (fun _ => [seed_url]) s)));;
      _extract_gaps_from_paper p;;
      mret p
  end.

(** *** [_phase_2_expanding_frontier] *)

Definition is_light (analysis_mode : string) : bool := String.eqb analysis_mode "light".

(** The analysis of one discovered paper that is new and within budget:
    the body of the [if] inside the loop over [all_discovered_papers]. *)
Definition analyze_new_paper (analysis_mode : string) (paper_url : string)
    : M unit :=
  paper_analysis ← call_analyze_paper paper_url;
  match paper_analysis with
  | Some p =>
      modify (fun s =>
        set_papers_analyzed (fun n => n + 1)
          (set_analyzed_papers_set (fun X => X ∪ {[paper_url]})
            (set_analyzed_papers (fun l => l ++ [p]) s)));;
      if negb (is_light analysis_mode) then
        s1 ← get;
        let gaps_before := Z.of_nat (length (potential_gaps_db s1)) in
        _extract_gaps_from_paper p;;
        s2 ← get;
        let new_gaps_count :=
          Z.of_nat (length (potential_gaps_db s2)) - gaps_before in
        if (0 <? new_gaps_count)%Z then
          modify (fun s =>
            set_stats (add_frontier_expansions 1)
              (set_gap_search_queue (fun q => q ++
                 Py.slice_last (Z.to_nat new_gaps_count)
                   (potential_gaps_db s)) s))
        else mret tt
      else mret tt
  | None => mret tt
  end.

(** The loop over [all_discovered_papers]. *)
Fixpoint analyze_discovered (analysis_mode : string) (max_papers : Z)
    (timeout_deadline : option Q) (urls : list string) : M unit :=
  match urls with
  | [] => mret tt
  | paper_url :: urls' =>
      expired ← deadline_passed timeout_deadline;
      if expired : bool then mret tt
      else
        s ← get;
        (if negb (bool_decide (paper_url ∈ analyzed_papers_set s))
            && (papers_analyzed s <? max_papers)%Z
         then analyze_new_paper analysis_mode paper_url
         else mret tt);;
        analyze_discovered analysis_mode max_papers timeout_deadline urls'
  end.

(** The body of the [try] for one gap popped from the queue. *)
Definition explore_gap (analysis_mode : string) (max_papers : Z)
    (timeout_deadline : option Q) (r : nat) : M unit :=
  current_gap ← read_gap r;
  all_discovered_papers ←
    (if is_light analysis_mode then _search_for_gap_solutions current_gap 1
     else
       elimination_papers ← _search_for_gap_solutions current_gap 5;
       expansion_papers ← _search_for_related_research current_gap;
       mret (set_order W (elimination_papers ++ expansion_papers)));
  analyze_discovered analysis_mode max_papers timeout_deadline
    all_discovered_papers;;
  g ← read_gap r;
  modify (fun s =>
    set_stats (add_research_areas_explored 1)
      (set_research_frontier
         (fun X => X ∪ {[Py.str_take 50 (description g)]}) s)).

(** The [while] loop. [fuel] bounds the number of iterations; each one
    raises [gaps_processed], so [max_gaps_limit - gaps_processed] of them
    are enough (see [expansion_loop_fuel]). *)
Fixpoint expansion_loop (fuel : nat) (analysis_mode : string) (max_papers : Z)
    (max_gaps_limit : Z) (timeout_deadline : option Q) (gaps_processed : Z)
    : M unit :=
  s ← get;
  match gap_search_queue s with
  | [] => mret tt
  | r :: rest =>
      if (papers_analyzed s <? max_papers)%Z && (gaps_processed <? max_gaps_limit)%Z
      then
        match fuel with
        | O => mret tt
        | S fuel' =>
            expired ← deadline_passed timeout_deadline;
            if expired : bool then mret tt
            else
              modify (set_gap_search_queue (fun _ => rest));;
              try_except
                (explore_gap analysis_mode max_papers timeout_deadline r)
                (mret tt);;
              expansion_loop fuel' analysis_mode max_papers max_gaps_limit
                timeout_deadline (gaps_processed + 1)
        end
      else mret tt
  end.

Definition _phase_2_expanding_frontier (max_papers : Z) (analysis_mode : string)
    (timeout_deadline : option Q) : M unit :=
  max_papers' ←
    (if is_light analysis_mode then
       s ← get;
       let max_gaps_to_process :=
         Z.min 2 (Z.of_nat (length (gap_search_queue s))) in
       modify (set_gap_search_queue (take (Z.to_nat max_gaps_to_process)));;
       mret (Z.min max_papers 2)
     else mret max_papers);
  modify (set_papers_analyzed (fun _ => 1));;
  let max_gaps_limit := if is_light analysis_mode then 2 else max_papers' in
  expansion_loop (Z.to_nat max_gaps_limit) analysis_mode max_papers'
    max_gaps_limit timeout_deadline 0.

(** *** [_phase_3_final_validation] *)

(** The drain: the inner loop run when the deadline has passed. *)
Fixpoint drain (validation_threshold : Z) (remaining : list nat) : M unit :=
  match remaining with
  | [] => mret tt
  | r :: remaining' =>
      remaining_gap ← read_gap r;
      (if (validation_strikes remaining_gap <? validation_threshold)%Z then
         enrich_into_final r;;
         remove_pending_if_in r;;
         mret tt
       else mret tt);;
      drain validation_threshold remaining'
  end.

(** Step 3.1, the queries built when the generator fails. *)
Definition fallback_queries (g : ResearchGap) : list string :=
  let gap_words := take 3 (Py.split_ws (description g)) in
  ["solving " +:+ Py.join " " gap_words; "addressing " +:+ Py.join " " gap_words].

(** Step 3.3: the loop over [validation_paper_urls[:max_validation_papers]];
    [validation_papers] is the list built so far. *)
Fixpoint analyze_validation_papers (urls : list string)
    (validation_papers : list PaperAnalysis) : M (list PaperAnalysis) :=
  match urls with
  | [] => mret validation_papers
  | u :: urls' =>
      s ← get;
      if bool_decide (u ∈ map url (analyzed_papers s)) then
        analyze_validation_papers urls' validation_papers
      else
        paper_analysis ← call_analyze_paper u;
        match paper_analysis with
        | Some p =>
            modify (set_analyzed_papers (fun l => l ++ [p]));;
            analyze_validation_papers urls' (validation_papers ++ [p])
        | None => analyze_validation_papers urls' validation_papers
        end
  end.

(** Step 3.4. The result tells whether the iteration goes on to the strike
    ([false] is the [continue] taken after an invalidation). *)
Definition judge_gap (r : nat) (validation_papers : list PaperAnalysis) : M bool :=
  match validation_papers with
  | [] => mret true
  | _ =>
      try_except
        (g ← read_gap r;
         is_invalidated ← call_validate_gap_against_papers g validation_papers;
         if is_invalidated : bool then
           removed ← remove_pending_if_in r;
           (if removed : bool
            then modify (set_stats (add_gaps_eliminated 1))
            else mret tt);;
           mret false
         else mret true)
        (mret true)
  end.

(** Steps 3.5 and 3.6. *)
Definition strike_and_graduate (validation_threshold : Z) (r : nat) : M unit :=
  modify (set_heap (alter strike r));;
  modify (set_stats (add_validation_attempts 1));;
  g ← read_gap r;
  if (validation_threshold <=? validation_strikes g)%Z then
    enrich_into_final r;;
    remove_pending r
  else mret tt.

(** Steps 3.1 to 3.3: queries, search, and the analysis of at most two of
    the documents found (one when the deadline is less than 30 seconds
    away). *)
Definition find_validation_papers (timeout_deadline : option Q) (r : nat)
    : M (list PaperAnalysis) :=
  gap ← read_gap r;
  validation_queries ←
    try_except
      (qs ← call_generate_validation_queries gap;
       modify (set_stats (add_search_queries_executed (Z.of_nat (length qs))));;
       mret qs)
      (mret (fallback_queries gap));
  validation_paper_urls ← call_search_for_gap_validation (description gap);
  max_validation_papers ←
    match timeout_deadline with
    | None => mret 2%nat
    | Some d =>
        if Py.truthy d then
          t ← now;
          mret (if Qlt_le_dec d (t + 30) then 1%nat else 2%nat)
        else mret 2%nat
    end;
  analyze_validation_papers (take max_validation_papers validation_paper_urls) [].

(** The body of the [try] for one gap. *)
Definition validate_gap (validation_threshold : Z) (timeout_deadline : option Q)
    (r : nat) : M unit :=
  validation_papers ← find_validation_papers timeout_deadline r;
  go_on ← judge_gap r validation_papers;
  if go_on : bool then strike_and_graduate validation_threshold r else mret tt.

(** The loop over [gaps_to_validate]; [todo] is what is left of it. *)
Fixpoint validation_loop (validation_threshold : Z) (timeout_deadline : option Q)
    (gaps_to_validate todo : list nat) : M unit :=
  match todo with
  | [] => mret tt
  | r :: todo' =>
      expired ← deadline_passed timeout_deadline;
      if expired : bool then
        s ← get;
        match py_index (heap s) r gaps_to_validate with
        | Some i => drain validation_threshold (drop i gaps_to_validate)
        | None => raise
        end
      else
        try_except (validate_gap validation_threshold timeout_deadline r) (mret tt);;
        validation_loop validation_threshold timeout_deadline gaps_to_validate todo'
  end.

Definition _phase_3_final_validation (validation_threshold : Z)
    (timeout_deadline : option Q) : M unit :=
  s ← get;
  let gaps_to_validate :=
    List.filter
      (fun r => (validation_strikes (heap s !!! r) <? validation_threshold)%Z)
      (potential_gaps_db s) in
  validation_loop validation_threshold timeout_deadline
    gaps_to_validate gaps_to_validate.

End Orchestrator.

(** ** The response *)

Record ResearchFrontierStats := {
  fs_frontier_expansions : Z;
  research_domains_explored : Z;
  cross_domain_connections : Z;
  breakthrough_potential_score : Q;
  research_velocity : Q;
  gap_discovery_rate : Q;
  elimination_effectiveness : Q;
  frontier_coverage : Q
}.

Record HotArea := {
  area : string;
  activity_score : Q;
  funding_growth : string
}.

(** [research_clusters] is a dict in insertion order: an association list. *)
Record ResearchLandscape := {
  dominant_research_areas : list string;
  emerging_trends : list string;
  research_clusters : list (string * Z);
  interdisciplinary_bridges : list string;
  hottest_research_areas : list HotArea
}.

Record ExecutiveSummary := {
  frontier_overview : string;
  key_insights : list string;
  research_priorities : list string;
  investment_opportunities : list string;
  competitive_advantages : list string;
  risk_assessment : string
}.

Record ProcessMetadata := {
  pm_request_id : string;
  total_papers_analyzed : Z;
  processing_time_seconds : Q;
  pm_gaps_discovered : Z;
  gaps_validated : Z;
  pm_gaps_eliminated : Z;
  pm_search_queries_executed : Z;
  pm_validation_attempts : Z;
  pm_seed_paper_url : string;
  frontier_stats : ResearchFrontierStats;
  research_landscape : ResearchLandscape;
  avg_paper_analysis_time : Q;
  successful_paper_extractions : Z;
  failed_extractions : Z;
  gemini_api_calls : Z;
  llm_tokens_processed : Z;
  ai_confidence_score : Q;
  citation_potential_score : Q;
  novelty_index : Q;
  impact_factor_projection : Q
}.

Record EliminatedGap := {
  eg_gap_title : string;
  elimination_reason : string;
  solved_by_paper : string;
  elimination_confidence : Q
}.

Record ResearchIntelligence := {
  eliminated_gaps : list EliminatedGap;
  research_momentum : list (string * Q);
  emerging_collaborations : list string;
  technology_readiness : list (string * Z);
  patent_landscape : list (string * Z);
  funding_trends : list (string * string)
}.

Record VisualizationData := {
  network_graph_nodes : Z;
  network_graph_edges : Z;
  research_timeline_start : Q;
  research_timeline_major_discoveries : Z;
  impact_heatmap_high_impact_areas : list string;
  frontier_expansion_points : Z
}.

Record QualityMetrics := {
  analysis_completeness : Q;
  validation_rigor : Q;
  qm_frontier_coverage : Q;
  ai_confidence : Q
}.

(** The last three fields are left out by the error response. *)
Record GapAnalysisResponse := {
  request_id : string;
  seed_paper_url : string;
  validated_gaps : list ValidatedGap;
  executive_summary : ExecutiveSummary;
  process_metadata : ProcessMetadata;
  research_intelligence : ResearchIntelligence;
  visualization_data : option VisualizationData;
  quality_metrics : option QualityMetrics;
  next_steps : option (list string)
}.

(** [GapAnalysisRequest] *)
Record GapAnalysisRequest := {
  req_url : string;
  req_analysis_mode : string;
  req_max_papers : Z;
  req_validation_threshold : Z
}.

(** ** Synthesis formulas of [_phase_4_synthesis]

    [final] is [len(self.final_gaps_list)], [papers] is
    [len(self.analyzed_papers)], [frontier] is [len(self.research_frontier)],
    [count] a cluster size. *)

Module Formula.
Open Scope Q_scope.

Definition cross_domain_connections (frontier : Z) : Z := Z.max 2 (frontier / 3).

Definition breakthrough_potential_score (final : Z) : Q :=
  Qmin 10 (Py.round (8.5 + inject_Z final * 0.2) 1).

Definition gap_discovery_rate (discovered papers : Z) : Q :=
  Py.round (inject_Z discovered / inject_Z (Z.max 1 papers)) 2.

Definition elimination_effectiveness (eliminated discovered : Z) : Q :=
  Py.round (inject_Z eliminated / inject_Z (Z.max 1 discovered) * 100) 1.

Definition frontier_coverage (papers : Z) : Q :=
  Py.round (Qmin 85 (20 + inject_Z (papers * 8))) 1.

Definition research_velocity (papers : Z) (processing_time : Q) : Q :=
  Py.round (inject_Z papers / (processing_time / 60)) 2.

Definition avg_paper_analysis_time (processing_time : Q) (papers : Z) : Q :=
  Py.round (processing_time / inject_Z (Z.max 1 papers)) 2.

Definition failed_extractions (queries papers : Z) : Z := Z.max 0 (queries - papers).

Definition gemini_api_calls (queries final : Z) : Z := (queries + final * 3)%Z.

Definition llm_tokens_processed (papers final : Z) : Z :=
  (papers * 15000 + final * 8000)%Z.

Definition ai_confidence_score (final : Z) : Q :=
  Qmin 100 (Py.round (88.5 + Qmin 10 (inject_Z final * 1.5)) 1).

Definition citation_potential_score (final : Z) : Q :=
  Qmin 10 (Py.round (7.8 + inject_Z final * 0.3) 1).

Definition novelty_index (frontier : Z) : Q :=
  Qmin 10 (Py.round (8.2 + inject_Z frontier * 0.2) 1).

Definition impact_factor_projection (final : Z) : Q :=
  Qmin 10 (Py.round (4.5 + inject_Z final * 0.4) 1).

Definition activity_score (count : Z) : Q := Py.round (7 + inject_Z count * 0.5) 1.

Definition funding_growth_percent (count : Z) : Z := Z.min 60 (25 + count * 8).

Definition elimination_confidence (i : Z) : Q := Py.round (82 + inject_Z (i * 3)) 1.

Definition research_momentum (cat : string) (count : Z) : Q :=
  Py.round (5 + inject_Z count * 2.5 + inject_Z (Py.len cat) * 0.1) 1.

Definition technology_readiness (count : Z) : Z := Z.min 9 (Z.max 3 (4 + count)).

Definition patent_landscape (cat : string) (count : Z) : Z :=
  Z.max 50 (count * 150 + Py.len cat * 10).

Definition growth_potential_percent (count : Z) : Z := Z.min 80 (20 + count * 15).

Definition analysis_completeness (final : Z) : Q :=
  Qmin 100 (Py.round (88.5 + Qmin 10 (inject_Z final)) 1).

End Formula.

(** [f"{x:.1f}"] *)
Definition format_f1 (x : Q) : string :=
  let n := Z.abs (Py.round_half_even (x * 10)) in
  (if Qlt_le_dec x 0 then "-" else "") +:+ pretty (n / 10) +:+ "." +:+ pretty (n mod 10).

(** [research_clusters[category] = research_clusters.get(category, 0) + 1] *)
Fixpoint cluster_add (c : string) (m : list (string * Z)) : list (string * Z) :=
  match m with
  | [] => [(c, 1)]
  | (k, v) :: m' => if String.eqb k c then (k, v + 1) :: m' else (k, v) :: cluster_add c m'
  end.

(** [x or "General Research"] *)
Definition or_general (c : string) : string :=
  if String.eqb c "" then "General Research" else c.

Definition build_clusters (final : list ValidatedGap) : list (string * Z) :=
  fold_left (fun m g => cluster_add (or_general (vg_category g)) m) final [].

Definition build_emerging_trends (final : list ValidatedGap) : list string :=
  let gap_text := Py.join " " (map (fun g => Py.lower (vg_description g)) final) in
  let emerging_trends :=
    (if Py.contains "edge" gap_text || Py.contains "real-time" gap_text
     then ["Real-Time Edge Computing"] else []) ++
    (if Py.contains "robust" gap_text || Py.contains "adversarial" gap_text
     then ["Robust AI Systems"] else []) ++
    (if Py.contains "cross-domain" gap_text || Py.contains "generalization" gap_text
     then ["Cross-Domain Adaptation"] else []) ++
    (if Py.contains "multi-modal" gap_text || Py.contains "fusion" gap_text
     then ["Multi-Modal AI"] else []) in
  match emerging_trends with
  | [] => ["Advanced AI Techniques"]
  | _ => emerging_trends
  end.

(** [len(l)] *)
Definition llen {A} (l : list A) : Z := Z.of_nat (length l).

(** The body of [_phase_4_synthesis] once the clock has been read; [order]
    is the iteration order of [list(set(...))]. The only failure is the
    division by a zero [processing_time / 60]. *)
Definition synthesize (order : list string -> list string) (s : Orch)
    (request_id seed_url : string) (start_time processing_time : Q)
    : option GapAnalysisResponse :=
  let final := llen (final_gaps_list s) in
  let papers := llen (analyzed_papers s) in
  let frontier := Z.of_nat (size (research_frontier s)) in
  let st := stats s in
  if Qeq_bool (processing_time / 60) 0 then None else
  let fstats :=
    {| fs_frontier_expansions := frontier_expansions st;
       research_domains_explored := frontier;
       cross_domain_connections := Formula.cross_domain_connections frontier;
       breakthrough_potential_score := Formula.breakthrough_potential_score final;
       research_velocity := Formula.research_velocity papers processing_time;
       gap_discovery_rate := Formula.gap_discovery_rate (gaps_discovered st) papers;
       elimination_effectiveness :=
         Formula.elimination_effectiveness (gaps_eliminated st) (gaps_discovered st);
       frontier_coverage := Formula.frontier_coverage papers |} in
  let actual_categories :=
    match order (List.filter (fun c => negb (String.eqb c ""))
                   (map vg_category (final_gaps_list s))) with
    | [] => ["General Research"]
    | l => l
    end in
  let clusters := build_clusters (final_gaps_list s) in
  let landscape :=
    {| dominant_research_areas := take 4 actual_categories;
       emerging_trends := build_emerging_trends (final_gaps_list s);
       research_clusters := clusters;
       interdisciplinary_bridges :=
         map (fun '(cat1, cat2) => cat1 +:+ "-" +:+ cat2 +:+ " Integration")
           (zip (take 2 actual_categories) (take 2 (drop 1 actual_categories)));
       hottest_research_areas :=
         map (fun '(c, count) =>
                {| area := c; activity_score := Formula.activity_score count;
                   funding_growth := pretty (Formula.funding_growth_percent count) +:+ "%" |})
           (take 3 clusters) |} in
  let metadata :=
    {| pm_request_id := request_id;
       total_papers_analyzed := papers;
       processing_time_seconds := Py.round processing_time 2;
       pm_gaps_discovered := gaps_discovered st;
       gaps_validated := final;
       pm_gaps_eliminated := gaps_eliminated st;
       pm_search_queries_executed := search_queries_executed st;
       pm_validation_attempts := validation_attempts st;
       pm_seed_paper_url := seed_url;
       frontier_stats := fstats;
       research_landscape := landscape;
       avg_paper_analysis_time := Formula.avg_paper_analysis_time processing_time papers;
       successful_paper_extractions := papers;
       failed_extractions := Formula.failed_extractions (search_queries_executed st) papers;
       gemini_api_calls := Formula.gemini_api_calls (search_queries_executed st) final;
       llm_tokens_processed := Formula.llm_tokens_processed papers final;
       ai_confidence_score := Formula.ai_confidence_score final;
       citation_potential_score := Formula.citation_potential_score final;
       novelty_index := Formula.novelty_index frontier;
       impact_factor_projection := Formula.impact_factor_projection final |} in
  let summary :=
    {| frontier_overview :=
         "Analysis of the research frontier revealed " +:+ pretty final
         +:+ " high-impact research opportunities across "
         +:+ pretty (llen actual_categories) +:+ " domains, with "
         +:+ pretty (gaps_eliminated st)
         +:+ " previously identified gaps eliminated due to existing solutions.";
       key_insights :=
         [ match actual_categories with
           | [] => "Analysis identified promising research directions"
           | _ => "Identified " +:+ pretty final
                  +:+ " unexplored research gaps across "
                  +:+ Py.join ", " actual_categories
           end;
           "Research velocity achieved " +:+ format_f1 (research_velocity fstats)
           +:+ " papers/minute with " +:+ pretty papers +:+ " papers analyzed";
           "Gap elimination rate of " +:+ format_f1 (elimination_effectiveness fstats)
           +:+ "% indicates robust validation process";
           "Frontier coverage reached " +:+ format_f1 (frontier_coverage fstats)
           +:+ "% of identified research landscape" ];
       research_priorities :=
         match actual_categories !! 0%nat with
         | Some c => ["Advanced research in " +:+ c] | None => [] end ++
         match actual_categories !! 1%nat with
         | Some c => ["Integration of " +:+ c +:+ " methodologies"] | None => [] end ++
         match actual_categories !! 2%nat with
         | Some c => ["Cross-domain applications in " +:+ c] | None => [] end ++
         ["Novel algorithmic approaches for identified limitations"];
       investment_opportunities :=
         match actual_categories !! 0%nat with
         | Some c => [c +:+ " technology development"] | None => [] end ++
         match actual_categories !! 1%nat with
         | Some c => ["Commercial applications of " +:+ c] | None => [] end ++
         ["Research infrastructure and tooling";
          "Academic-industry collaboration platforms"];
       competitive_advantages :=
         ["Early identification of unexplored research directions";
          "Deep analysis across " +:+ pretty papers +:+ " authoritative papers";
          "Validated research gaps with elimination of solved problems";
          "Comprehensive mapping of research landscape"];
       risk_assessment :=
         "Technical risk varies by gap complexity. With " +:+ pretty final
         +:+ " validated opportunities and " +:+ pretty (gaps_eliminated st)
         +:+ " eliminated false positives, the analysis shows promising research directions with measurable validation rigor." |} in
  let intelligence :=
    {| eliminated_gaps :=
         map (fun i =>
                {| eg_gap_title := "Research limitation identified in analysis";
                   elimination_reason := "Existing solutions found during validation process";
                   solved_by_paper := "Paper discovered during frontier exploration";
                   elimination_confidence := Formula.elimination_confidence (Z.of_nat i) |})
           (seq 0 (Z.to_nat (Z.min 3 (gaps_eliminated st))));
       research_momentum :=
         map (fun '(c, count) => (c, Formula.research_momentum c count)) clusters;
       emerging_collaborations :=
         map (fun c => "Research partnerships in " +:+ c) (take 2 actual_categories)
         ++ ["Interdisciplinary collaboration opportunities"];
       technology_readiness :=
         map (fun '(c, count) => (c, Formula.technology_readiness count)) clusters;
       patent_landscape :=
         map (fun '(c, count) => (c, Formula.patent_landscape c count)) clusters;
       funding_trends :=
         map (fun '(c, count) =>
                (c, (if (1 <? count)%Z then "Active" else "Emerging")
                    +:+ " research area, "
                    +:+ pretty (Formula.growth_potential_percent count)
                    +:+ "% growth potential")) clusters |} in
  Some
    {| request_id := request_id;
       seed_paper_url := seed_url;
       validated_gaps := final_gaps_list s;
       executive_summary := summary;
       process_metadata := metadata;
       research_intelligence := intelligence;
       visualization_data :=
         Some {| network_graph_nodes := papers;
                 network_graph_edges := frontier;
                 research_timeline_start := start_time;
                 research_timeline_major_discoveries := final;
                 impact_heatmap_high_impact_areas := actual_categories;
                 frontier_expansion_points := frontier_expansions st |};
       quality_metrics :=
         Some {| analysis_completeness := Formula.analysis_completeness final;
                 validation_rigor := Py.round 92.3 1;
                 qm_frontier_coverage := frontier_coverage fstats;
                 ai_confidence := ai_confidence_score metadata |};
       next_steps :=
         Some ["Prioritize research gaps by commercial potential and technical feasibility";
               "Establish collaborations with identified research groups";
               "Develop proof-of-concept prototypes for highest-impact gaps";
               "Secure funding for most promising research directions";
               "Monitor competitive landscape for emerging solutions"] |}.

(** The response built by the [except] branch of [analyze_research_gaps]. *)
Definition error_response (request_id seed_url : string) (papers : Z)
    (processing_time : Q) : GapAnalysisResponse :=
  {| request_id := request_id;
     seed_paper_url := seed_url;
     validated_gaps := [];
     executive_summary :=
       {| frontier_overview := "Analysis failed during processing";
          key_insights := ["Error occurred during analysis"];
          research_priorities := [];
          investment_opportunities := [];
          competitive_advantages := [];
          risk_assessment := "Analysis incomplete due to processing error" |};
     process_metadata :=
       {| pm_request_id := request_id;
          total_papers_analyzed := papers;
          processing_time_seconds := processing_time;
          pm_gaps_discovered := 0;
          gaps_validated := 0;
          pm_gaps_eliminated := 0;
          pm_search_queries_executed := 0;
          pm_validation_attempts := 0;
          pm_seed_paper_url := seed_url;
          frontier_stats :=
            {| fs_frontier_expansions := 0;
               research_domains_explored := 0;
               cross_domain_connections := 0;
               breakthrough_potential_score := 5;
               research_velocity := 0;
               gap_discovery_rate := 0;
               elimination_effectiveness := 0;
               frontier_coverage := 0 |};
          research_landscape :=
            {| dominant_research_areas := [];
               emerging_trends := [];
               research_clusters := [];
               interdisciplinary_bridges := [];
               hottest_research_areas := [] |};
          avg_paper_analysis_time := 0;
          successful_paper_extractions := 0;
          failed_extractions := 1;
          gemini_api_calls := 0;
          llm_tokens_processed := 0;
          ai_confidence_score := 0;
          citation_potential_score := 0;
          novelty_index := 0;
          impact_factor_projection := 0 |};
     research_intelligence :=
       {| eliminated_gaps := [];
          research_momentum := [];
          emerging_collaborations := [];
          technology_readiness := [];
          patent_landscape := [];
          funding_trends := [] |};
     visualization_data := None;
     quality_metrics := None;
     next_steps := None |}.

Section Driver.

Variable W : Collaborators.

(** *** [_phase_4_synthesis] *)
Definition _phase_4_synthesis (request_id seed_url : string) (start_time : Q)
    : M GapAnalysisResponse :=
  t ← now W;
  s ← get;
  match synthesize (set_order W) s request_id seed_url start_time (t - start_time) with
  | Some response => mret response
  | None => raise
  end.

(** The loop of the branch taken when validation is skipped. *)
Fixpoint enrich_all (gaps : list nat) : M unit :=
  match gaps with
  | [] => mret tt
  | r :: gaps' => enrich_into_final W r;; enrich_all gaps'
  end.

(** *** [analyze_research_gaps] *)

(** "Adjust parameters based on analysis mode": [max_papers] and
    [validation_threshold] as the driver sets them after seeding. *)
Definition mode_parameters (request : GapAnalysisRequest) : Z * Z :=
  if is_light (req_analysis_mode request)
  then (Z.min (req_max_papers request) 4, 1)
  else (req_max_papers request, req_validation_threshold request).

(** "Check timeout before Phase 3": the threshold drops to 0 when the clock
    reading [t] has reached the deadline. *)
Definition threshold_before_phase_3 (timeout_deadline t : Q)
    (validation_threshold : Z) : Z :=
  if Qle_bool timeout_deadline t then 0 else validation_threshold.

Definition analyze_research_gaps (request : GapAnalysisRequest)
    : M GapAnalysisResponse :=
  request_id ← fresh_id W;
  start_time ← now W;
  let timeout_seconds : Q :=
    (if is_light (req_analysis_mode request) then 60 else 900)%Q in
  let timeout_deadline := (start_time + timeout_seconds)%Q in
  try_except
    (_phase_1_seeding W (req_url request);;
     let '(max_papers, validation_threshold) := mode_parameters request in
     _phase_2_expanding_frontier W max_papers (req_analysis_mode request)
       (Some timeout_deadline);;
     t ← now W;
     let validation_threshold :=
       threshold_before_phase_3 timeout_deadline t validation_threshold in
     (if (0 <? validation_threshold)%Z then
        _phase_3_final_validation W validation_threshold (Some timeout_deadline)
      else
        s ← get;
        enrich_all (take 5 (potential_gaps_db s)));;
     _phase_4_synthesis request_id (req_url request) start_time)
    (s ← get;
     t ← now W;
     mret (error_response request_id (req_url request)
             (llen (analyzed_papers s)) (t - start_time)%Q)).

End Driver.

(** ** The helpers and the second entry point *)

Section Helpers.

Variable W : Collaborators.

(** *** [_discover_related_papers]

    The prompt is built around [findings_text], and the model is handed that
    text, as it is handed the gap description in
    [_search_for_related_research]. *)
Definition _discover_related_papers (paper : PaperAnalysis) : M (list string) :=
  match model W, key_findings paper with
  | None, _ | _, [] => mret []
  | Some generate_content, _ =>
      try_except
        (let findings_text := Py.join "; " (take 3 (key_findings paper)) in
         text ← interact (fun i => generate_content i findings_text)
                         (EvGenerate findings_text);
         let queries :=
           take 3 (List.filter (fun q => negb (String.eqb q ""))
                     (map Py.strip (Py.split_nl (Py.strip text)))) in
         match queries with
         | [] => mret []
         | _ =>
             modify (set_stats
               (add_search_queries_executed (Z.of_nat (length queries))));;
             call_search_papers W queries 1
         end)
        (mret [])
  end.

(** *** [_validate_gaps_against_paper] *)

(** The first loop: the validator is asked about each pending gap in turn;
    [gaps_to_remove] is the list built so far. *)
Fixpoint collect_invalidated (paper : PaperAnalysis) (gaps : list nat)
    (gaps_to_remove : list nat) : M (list nat) :=
  match gaps with
  | [] => mret gaps_to_remove
  | r :: gaps' =>
      gaps_to_remove' ←
        try_except
          (gap ← read_gap r;
           is_invalidated ← call_validate_gap_against_papers W gap [paper];
           if is_invalidated : bool then
             modify (set_stats (add_gaps_eliminated 1));;
             mret (gaps_to_remove ++ [r])
           else mret gaps_to_remove)
          (mret gaps_to_remove);
      collect_invalidated paper gaps' gaps_to_remove'
  end.

(** The second loop: [self.potential_gaps_db.remove(gap)] for each gap
    collected. *)
Fixpoint remove_invalidated (gaps_to_remove : list nat) : M unit :=
  match gaps_to_remove with
  | [] => mret tt
  | r :: gaps_to_remove' => remove_pending r;; remove_invalidated gaps_to_remove'
  end.

Definition _validate_gaps_against_paper (paper : PaperAnalysis) : M unit :=
  s ← get;
  gaps_to_remove ← collect_invalidated paper (potential_gaps_db s) [];
  remove_invalidated gaps_to_remove.

(** *** [analyze_research_gaps_from_text] *)

(** [self.paper_analyzer.analyze_paper_text]; the call is logged as an
    analysis under [paper_id]. *)
Variable analyze_paper_text : nat -> string -> string -> Res (option PaperAnalysis).

Definition call_analyze_paper_text (paper_text paper_id : string)
    : M (option PaperAnalysis) :=
  interact (fun i => analyze_paper_text i paper_text paper_id) (EvAnalyze paper_id).

(** The response built by the [except] branch of
    [analyze_research_gaps_from_text]. *)
Definition error_response_from_text (request_id paper_id : string) (papers : Z)
    (processing_time : Q) : GapAnalysisResponse :=
  {| request_id := request_id;
     seed_paper_url := paper_id;
     validated_gaps := [];
     executive_summary :=
       {| frontier_overview := "Analysis failed";
          key_insights := ["Error occurred during processing"];
          research_priorities := [];
          investment_opportunities := [];
          competitive_advantages := [];
          risk_assessment := "Analysis incomplete due to error" |};
     process_metadata :=
       {| pm_request_id := request_id;
          total_papers_analyzed := papers;
          processing_time_seconds := processing_time;
          pm_gaps_discovered := 0;
          gaps_validated := 0;
          pm_gaps_eliminated := 0;
          pm_search_queries_executed := 0;
          pm_validation_attempts := 0;
          pm_seed_paper_url := paper_id;
          frontier_stats :=
            {| fs_frontier_expansions := 0;
               research_domains_explored := 0;
               cross_domain_connections := 0;
               breakthrough_potential_score := 5;
               research_velocity := 0;
               gap_discovery_rate := 0;
               elimination_effectiveness := 0;
               frontier_coverage := 0 |};
          research_landscape :=
            {| dominant_research_areas := [];
               emerging_trends := [];
               research_clusters := [];
               interdisciplinary_bridges := [];
               hottest_research_areas := [] |};
          avg_paper_analysis_time := 0;
          successful_paper_extractions := 0;
          failed_extractions := 0;
          gemini_api_calls := 0;
          llm_tokens_processed := 0;
          ai_confidence_score := 0;
          citation_potential_score := 0;
          novelty_index := 0;
          impact_factor_projection := 0 |};
     research_intelligence :=
       {| eliminated_gaps := [];
          research_momentum := [];
          emerging_collaborations := [];
          technology_readiness := [];
          patent_landscape := [];
          funding_trends := [] |};
     visualization_data := None;
     quality_metrics := None;
     next_steps := None |}.

(** Phase 1 of the text entry point: the seed is analysed from its text, and
    every gap extracted from it is queued for exploration. *)
Definition seed_from_text (paper_text paper_id : string) : M unit :=
  seed_analysis ← call_analyze_paper_text paper_text paper_id;
  match seed_analysis with
  | None => raise
  | Some p =>
      modify (fun s =>
        set_analyzed_papers (fun _ => [p])
          (set_analyzed_papers_set (fun _ => {[paper_id]}) s));;
      _extract_gaps_from_paper W p;;
      modify (fun s => set_gap_search_queue (fun _ => potential_gaps_db s) s)
  end.

(** [max_papers] defaults to 10 and [validation_threshold] to 2; expansion
    runs in deep mode, and neither it nor validation is given a deadline. *)
Definition analyze_research_gaps_from_text (paper_text paper_id : string)
    (max_papers validation_threshold : Z) : M GapAnalysisResponse :=
  request_id ← fresh_id W;
  start_time ← now W;
  try_except
    (seed_from_text paper_text paper_id;;
     _phase_2_expanding_frontier W max_papers "deep" None;;
     _phase_3_final_validation W validation_threshold None;;
     _phase_4_synthesis W request_id paper_id start_time)
    (s ← get;
     t ← now W;
     mret (error_response_from_text request_id paper_id
             (llen (analyzed_papers s)) (t - start_time)%Q)).

End Helpers.

(** ** Notions used by the statements *)

(** The statements of a list that become gaps: stripped, and longer than 20
    characters. *)
Definition meaningful (l : list string) : list string :=
  List.filter (fun d => (20 <? Py.len d)%Z) (map Py.strip l).

(** What extraction records of a gap besides its identifier. *)
Definition gap_facts (g : ResearchGap) : string * string * string * string * Z :=
  (description g, category g, source_paper g, source_paper_title g,
   validation_strikes g).

(** The events logged between two states of one run. *)
Definition new_events (s s' : Orch) : list Event := drop (length (log s)) (log s').

(** A computation preserves a relation when every run of it relates the
    state before to the state after, whatever the outcome. *)
Definition preserves {A} (R : Orch -> Orch -> Prop) (m : M A) : Prop :=
  forall s, R s (m s).2.

(** [quiet P]: the log grew by events satisfying [P]; the gap objects, the
    pending store, the final list and the three gap counters are as before. *)
Definition quiet (P : Event -> Prop) (s s' : Orch) : Prop :=
  (exists evs, log s' = log s ++ evs /\ Forall P evs)
  /\ heap s' = heap s
  /\ potential_gaps_db s' = potential_gaps_db s
  /\ final_gaps_list s' = final_gaps_list s
  /\ gaps_eliminated (stats s') = gaps_eliminated (stats s)
  /\ validation_attempts (stats s') = validation_attempts (stats s)
  /\ gaps_discovered (stats s') = gaps_discovered (stats s).

(** Events of steps 3.1 to 3.3. *)
Definition search_event (e : Event) : Prop :=
  match e with
  | EvQueries _ _ | EvSearchValidation _ _ | EvClock _ | EvAnalyze _ _ => True
  | _ => False
  end.

Definition is_enrich (e : Event) : Prop :=
  match e with EvEnrich _ _ => True | _ => False end.

(** The gaps behind the references of [l] have pairwise distinct ids (the
    data model's "unique id"). *)
Definition ids_distinct (h : list ResearchGap) (l : list nat) : Prop :=
  NoDup (map (fun x => gap_id (h !!! x)) l).

(** [l] without the reference [r]. *)
Definition without (r : nat) (l : list nat) : list nat :=
  List.filter (fun x => negb (x =? r)%nat) l.

(** The record that [enrich_into_final] appends for the gap behind [r]: the
    validator's enrichment, or the quick one when the validator returns
    nothing or fails. *)
Definition enrichment_of (W : Collaborators) (s : Orch) (r : nat) : ValidatedGap :=
  match enrich_validated_gap W (length (log s)) (heap s !!! r) with
  | Ok (Some v) => v
  | _ => _quick_gap_enrichment (heap s !!! r)
  end.

(** The record that the enrichment block appends for the gap [g], given the
    answer of the validator: the validator's record, and the quick
    enrichment of [g] when the validator returned nothing or raised. *)
Definition enrichment_for (answer : Res (option ValidatedGap))
    (g : ResearchGap) : ValidatedGap :=
  match answer with
  | Ok (Some v) => v
  | _ => _quick_gap_enrichment g
  end.

(** [v] stands for the gap [g]: it carries the id, the description and the
    source of [g], and reports the strikes of [g] as its validation
    attempts. *)
Definition stands_for (v : ValidatedGap) (g : ResearchGap) : Prop :=
  vg_gap_id v = gap_id g
  /\ vg_description v = description g
  /\ vg_source_paper v = source_paper g
  /\ vg_validation_attempts v = validation_strikes g.


(** [v] is an enrichment of the gap [g]: the quick one, or an answer of the
    validator for [g]. *)
Definition is_enrichment_of (W : Collaborators) (g : ResearchGap)
    (v : ValidatedGap) : Prop :=
  v = _quick_gap_enrichment g
  \/ exists i, enrich_validated_gap W i g = Ok (Some v).

(** [l] without the references of [rem]. *)
Definition without_all (rem l : list nat) : list nat :=
  fold_left (fun acc x => without x acc) rem l.

(** The analyzer returns documents that carry the reference it was asked
    for. *)
Definition analyzer_faithful (W : Collaborators) : Prop :=
  forall i u p, analyze_paper W i u = Ok (Some p) -> url p = u.

(** No reference is passed to the analyzer again after an analysis of it
    that succeeded. *)
Definition no_reanalysis (l : list Event) : Prop :=
  forall i j u p r, (i < j)%nat ->
    l !! i = Some (EvAnalyze u (Ok (Some p))) ->
    l !! j = Some (EvAnalyze u r) -> False.

Definition not_analyze (e : Event) : Prop :=
  match e with EvAnalyze _ _ => False | _ => True end.

(** A step that calls no analysis and forgets no analysed document. *)
Definition benign (s s' : Orch) : Prop :=
  (exists evs, log s' = log s ++ evs /\ Forall not_analyze evs)
  /\ analyzed_papers_set s ⊆ analyzed_papers_set s'
  /\ (forall u, u ∈ map url (analyzed_papers s) ->
                u ∈ map url (analyzed_papers s')).

(** During expansion every successful analysis is recorded in the set and
    in the list of analysed papers; validation keeps up the list only. *)
Definition recorded_in_set (s : Orch) : Prop :=
  forall u p, EvAnalyze u (Ok (Some p)) ∈ log s -> u ∈ analyzed_papers_set s.

Definition recorded_in_list (s : Orch) : Prop :=
  forall u p, EvAnalyze u (Ok (Some p)) ∈ log s -> u ∈ map url (analyzed_papers s).

Definition inv_expanding (s : Orch) : Prop :=
  no_reanalysis (log s) /\ recorded_in_set s /\ recorded_in_list s.

Definition inv_validating (s : Orch) : Prop :=
  no_reanalysis (log s) /\ recorded_in_list s.

(** The relations that the phases preserve. *)
Definition keeps (I : Orch -> Prop) (s s' : Orch) : Prop := I s -> I s'.

(** How often the log shows the analyzer called on [u]. *)
Definition analyze_calls (u : string) (l : list Event) : nat :=
  length (List.filter (fun e => match e with
                                | EvAnalyze u' _ => String.eqb u' u
                                | _ => false
                                end) l).

(** Interactions that light-mode expansion may have: clock readings, query
    generation, solution searches limited to one result per query, and
    analyses. *)
Definition light_event (e : Event) : Prop :=
  match e with
  | EvClock _ | EvQueries _ _ | EvAnalyze _ _ => True
  | EvSearch _ limit _ => limit = 1
  | _ => False
  end.

(** The elapsed time reported by a response. *)
Definition elapsed_of (r : Res GapAnalysisResponse) : Q :=
  match r with
  | Ok x => processing_time_seconds (process_metadata x)
  | Raise => 0
  end.

(** [ready th gtv s todo]: what an iteration of the validation loop relies
    on, in state [s] with the gaps [todo] still to visit: they are distinct,
    pending, live and below the threshold, and ids are unique among the gaps
    to validate and in the pending store. *)
Definition ready (th : Z) (gtv : list nat) (s : Orch) (todo : list nat) : Prop :=
  NoDup todo
  /\ ids_distinct (heap s) gtv
  /\ ids_distinct (heap s) (potential_gaps_db s)
  /\ Forall (fun r => r ∈ potential_gaps_db s
                      /\ (r < length (heap s))%nat
                      /\ validation_strikes (heap s !!! r) < th) todo.

(** [visits W th d todo s r s1 rest]: the validation loop, started in state
    [s] with [todo] to visit, reaches the iteration of the gap [r] with the
    deadline not passed, in state [s1] (the deadline check made), [rest]
    being left for later. *)
Inductive visits (W : Collaborators) (th : Z) (d : option Q)
    : list nat -> Orch -> nat -> Orch -> list nat -> Prop :=
| visits_here r todo s s1 :
    deadline_passed W d s = (Ok false, s1) ->
    visits W th d (r :: todo) s r s1 todo
| visits_later r todo s s1 r' s' rest :
    deadline_passed W d s = (Ok false, s1) ->
    visits W th d todo (try_except (validate_gap W th d r) (mret tt) s1).2 r' s' rest ->
    visits W th d (r :: todo) s r' s' rest.

(** ** Further notions used by the statements *)

(** The computation never ends in an exception. *)
Definition no_raise {A} (m : M A) : Prop := forall s, (m s).1 <> Raise.

(** [g'] is the gap object [g] some strikes later: a strike is the only
    change that the orchestrator makes to a gap object. *)
Definition same_but_strikes (g g' : ResearchGap) : Prop :=
  gap_id g' = gap_id g
  /\ description g' = description g
  /\ source_paper g' = source_paper g
  /\ source_paper_title g' = source_paper_title g
  /\ category g' = category g
  /\ validation_strikes g <= validation_strikes g'.

(** The gap objects of [h] are those of [h'], some strikes earlier; [h'] may
    hold further objects. *)
Definition heap_grows (h h' : list ResearchGap) : Prop :=
  (length h <= length h')%nat
  /\ forall r, (r < length h)%nat -> same_but_strikes (h !!! r) (h' !!! r).

(** No counter of [t'] is below that of [t]. *)
Definition stats_le (t t' : Stats) : Prop :=
  gaps_discovered t <= gaps_discovered t'
  /\ gaps_eliminated t <= gaps_eliminated t'
  /\ search_queries_executed t <= search_queries_executed t'
  /\ validation_attempts t <= validation_attempts t'
  /\ frontier_expansions t <= frontier_expansions t'
  /\ research_areas_explored t <= research_areas_explored t'.

(** [grows s s']: from [s] to [s'] the final list and the log were only
    appended to, gap objects only took strikes, counters only went up and
    the explored frontier only widened. *)
Definition grows (s s' : Orch) : Prop :=
  final_gaps_list s `prefix_of` final_gaps_list s'
  /\ log s `prefix_of` log s'
  /\ heap_grows (heap s) (heap s')
  /\ stats_le (stats s) (stats s')
  /\ research_frontier s ⊆ research_frontier s'.

(** [expanding s s']: all that happened to the gap stores from [s] to [s']
    is that new gaps, with no strike, were put behind the heap and the
    pending store, and counted as discovered. *)
Definition expanding (s s' : Orch) : Prop :=
  exists news,
    heap s' = heap s ++ news
    /\ Forall (fun g => validation_strikes g = 0) news
    /\ potential_gaps_db s'
       = potential_gaps_db s ++ seq (length (heap s)) (length news)
    /\ gaps_discovered (stats s') = gaps_discovered (stats s) + llen news
    /\ final_gaps_list s' = final_gaps_list s
    /\ gaps_eliminated (stats s') = gaps_eliminated (stats s)
    /\ validation_attempts (stats s') = validation_attempts (stats s).

(** [within_budget mp s s']: documents were only added to the analysed
    papers, each one counted by [papers_analyzed], and the count was not
    taken beyond [mp]. *)
Definition within_budget (mp : Z) (s s' : Orch) : Prop :=
  exists new_papers,
    analyzed_papers s' = analyzed_papers s ++ new_papers
    /\ papers_analyzed s' = papers_analyzed s + llen new_papers
    /\ papers_analyzed s' <= Z.max mp (papers_analyzed s).

(** The interactions of exploration are the paper searches and the calls of
    the language model; every other interaction is none of them. *)
Definition not_exploration (e : Event) : Prop :=
  match e with
  | EvSearch _ _ _ | EvGenerate _ _ => False
  | _ => True
  end.

(** [idle s s']: from [s] to [s'] nothing was explored: no paper search and
    no model call, the queue of gaps to explore, the explored frontier and
    the two frontier counters as before. *)
Definition idle (s s' : Orch) : Prop :=
  (exists evs, log s' = log s ++ evs /\ Forall not_exploration evs)
  /\ gap_search_queue s' = gap_search_queue s
  /\ research_frontier s' = research_frontier s
  /\ frontier_expansions (stats s') = frontier_expansions (stats s)
  /\ research_areas_explored (stats s') = research_areas_explored (stats s).

(** The same, for a start with nothing queued. *)
Definition idle_from_empty_queue (s s' : Orch) : Prop :=
  gap_search_queue s = [] -> idle s s'.

(** The clock never reaches the deadline [d] (no deadline is never
    reached). *)
Definition never_late (W : Collaborators) (d : option Q) : Prop :=
  match d with
  | Some dl => forall i, Qle_bool dl (time_time W i) = false
  | None => True
  end.

(** The pending store of [s] holds distinct references to live gap objects
    that have no strike yet, as extraction leaves them. *)
Definition unstruck (s : Orch) : Prop :=
  NoDup (potential_gaps_db s)
  /\ Forall (fun r => (r < length (heap s))%nat
                      /\ validation_strikes (heap s !!! r) = 0)
       (potential_gaps_db s).

(** The gaps that a state accounts for: those still pending, those
    eliminated and those validated. *)
Definition accounted (s : Orch) : Z :=
  llen (potential_gaps_db s) + gaps_eliminated (stats s) + llen (final_gaps_list s).

(** The number of document analyses among the events [evs]. *)
Definition analyses (evs : list Event) : nat :=
  length (List.filter (fun e => match e with EvAnalyze _ _ => true | _ => false end)
            evs).

(** The gaps of [gaps] that the validator, asked about each in turn against
    the one document [paper], declares invalidated; [n] is the number of
    interactions logged before the first question. *)
Fixpoint invalidated_by (W : Collaborators) (paper : PaperAnalysis)
    (h : list ResearchGap) (n : nat) (gaps : list nat) : list nat :=
  match gaps with
  | [] => []
  | r :: gaps' =>
      match validate_gap_against_papers W n (h !!! r) [paper] with
      | Ok true => [r]
      | _ => []
      end ++ invalidated_by W paper h (S n) gaps'
  end.

(** The number of queries handed to the paper search, over the events
    [evs]. *)
Definition queries_searched (evs : list Event) : Z :=
  foldr (fun e acc => match e with
                      | EvSearch qs _ _ => Z.of_nat (length qs) + acc
                      | _ => acc
                      end) 0 evs.

(** The interactions of a search for related work around [subject]: calls
    of the model about [subject], and paper searches of one result per query
    for at least one and at most [k] queries, none of them empty. *)
Definition related_search_event (k : nat) (subject : string) (e : Event) : Prop :=
  match e with
  | EvGenerate d _ => d = subject
  | EvSearch qs limit _ =>
      limit = 1 /\ (1 <= length qs <= k)%nat /\ Forall (fun q => q <> "") qs
  | _ => False
  end.

(** The interactions of a search for the solutions of the gap [g]: the
    generation of queries for [g], and paper searches of [limit] results
    per query. *)
Definition solution_search_event (g : ResearchGap) (limit : Z) (e : Event) : Prop :=
  match e with
  | EvQueries g' _ => g' = g
  | EvSearch _ limit' _ => limit' = limit
  | _ => False
  end.

(** The number of the validated gaps [final] that fall under the category
    [c], an empty category counting as "General Research". *)
Definition count_in (c : string) (final : list ValidatedGap) : Z :=
  llen (List.filter (fun g => String.eqb (or_general (vg_category g)) c) final).

(** The count that the clusters [m] hold for the category [c]; 0 without an
    entry. *)
Fixpoint cluster_get (c : string) (m : list (string * Z)) : Z :=
  match m with
  | [] => 0
  | (k, v) :: m' => if String.eqb k c then v else cluster_get c m'
  end.

(** The sum of the counts of the clusters [m]. *)
Definition cluster_total (m : list (string * Z)) : Z :=
  foldr (fun p acc => p.2 + acc) 0 m.

(** [apart_from_gaps s s']: what extraction leaves alone, from [s] to [s']:
    the analysed papers, the queues, the final list and the frontier. *)
Definition apart_from_gaps (s s' : Orch) : Prop :=
  analyzed_papers_set s' = analyzed_papers_set s
  /\ analyzed_papers s' = analyzed_papers s
  /\ papers_to_analyze_queue s' = papers_to_analyze_queue s
  /\ gap_search_queue s' = gap_search_queue s
  /\ final_gaps_list s' = final_gaps_list s
  /\ research_frontier s' = research_frontier s
  /\ papers_analyzed s' = papers_analyzed s
  /\ frontier_expansions (stats s') = frontier_expansions (stats s).

(** [frontier_kept s s']: the explored frontier and its counter are in [s']
    as they were in [s]. *)
Definition frontier_kept (s s' : Orch) : Prop :=
  research_frontier s' = research_frontier s
  /\ research_areas_explored (stats s') = research_areas_explored (stats s).

(** [f] has no bound over the non-negative integers: whatever [B], some
    [n >= 0] gives a value above [B]. *)
Definition unbounded_Z (f : Z -> Z) : Prop :=
  forall B : Z, exists n, 0 <= n /\ B < f n.

(** The same for a function to the rationals. *)
Definition unbounded_Q (f : Z -> Q) : Prop :=
  forall B : Q, exists n, 0 <= n /\ (B < f n)%Q.

(** The same for a function of a duration. *)
Definition unbounded_in_time (f : Q -> Q) : Prop :=
  forall B : Q, exists t, (0 <= t)%Q /\ (B < f t)%Q.

(** ** Test doubles

    Concrete environments on which the statements are exercised. *)

Definition paper_of (u : string) (lims : list string) : PaperAnalysis :=
  {| url := u; title := "T"; limitations := lims; future_work := [];
     key_findings := [] |}.

(** Nothing can be analysed, nothing is found, the clock ticks one second
    per interaction. *)
Definition W_dead : Collaborators :=
  {| time_time := fun i => inject_Z (Z.of_nat i);
     uuid4 := fun i => pretty i +:+ "-0000-0000";
     analyze_paper := fun _ _ => Ok None;
     generate_validation_queries := fun _ _ => Ok [];
     search_papers := fun _ _ _ => Ok [];
     search_for_gap_validation := fun _ _ => Ok [];
     validate_gap_against_papers := fun _ _ _ => Ok false;
     enrich_validated_gap := fun _ _ => Ok None;
     model := None;
     set_order := remove_dups |}.

Definition request_light (u : string) (n : Z) : GapAnalysisRequest :=
  {| req_url := u; req_analysis_mode := "light"; req_max_papers := n;
     req_validation_threshold := 2 |}.

(** A laboratory environment: the seed has two limitations that qualify as
    gaps, every other document analyses to an empty paper, the validation
    search finds [found], the validator answers [verdict], enrichment is
    left to the quick path, and the clock advances one second per
    interaction. *)
Definition W_lab (verdict : Res bool) (found : list string) : Collaborators :=
  {| time_time := fun i => inject_Z (Z.of_nat i);
     uuid4 := fun i => pretty i +:+ "-0000-0000";
     analyze_paper := fun _ u =>
       Ok (Some (paper_of u
         (if String.eqb u "seed"
          then ["The model needs labelled data for every new domain";
                "Inference is too slow for real-time use on edge devices"]
          else [])));
     generate_validation_queries := fun _ _ => Ok ["q"];
     search_papers := fun _ _ _ => Ok [];
     search_for_gap_validation := fun _ _ => Ok found;
     validate_gap_against_papers := fun _ _ _ => verdict;
     enrich_validated_gap := fun _ _ => Ok None;
     model := None;
     set_order := remove_dups |}.

(** The state after seeding in the laboratory: two pending gaps. *)
Definition seeded (W : Collaborators) : Orch := (_phase_1_seeding W "seed" initialize).2.

(** Every document but the seed fails to analyse, and the validation search
    keeps returning the same reference. *)
Definition W_flaky : Collaborators :=
  {| time_time := fun i => inject_Z (Z.of_nat i);
     uuid4 := fun i => pretty i +:+ "-0000-0000";
     analyze_paper := fun _ u =>
       if String.eqb u "seed"
       then Ok (Some (paper_of u
              ["The model needs labelled data for every new domain"]))
       else Ok None;
     generate_validation_queries := fun _ _ => Ok ["q"];
     search_papers := fun _ _ _ => Ok [];
     search_for_gap_validation := fun _ _ => Ok ["doc"; "doc"];
     validate_gap_against_papers := fun _ _ _ => Ok false;
     enrich_validated_gap := fun _ _ => Ok None;
     model := None;
     set_order := remove_dups |}.

(** The laboratory with a clock that jumps 100 seconds per interaction: the
    deadline of a light run has passed when expansion returns. *)
Definition W_late : Collaborators :=
  {| time_time := fun i => inject_Z (Z.of_nat i * 100);
     uuid4 := uuid4 (W_lab (Ok false) []);
     analyze_paper := analyze_paper (W_lab (Ok false) []);
     generate_validation_queries := fun _ _ => Ok ["q"];
     search_papers := fun _ _ _ => Ok [];
     search_for_gap_validation := fun _ _ => Ok [];
     validate_gap_against_papers := fun _ _ _ => Ok false;
     enrich_validated_gap := fun _ _ => Ok None;
     model := None;
     set_order := remove_dups |}.

(** The laboratory with a solution search that finds a new document at each
    call. *)
Definition W_found : Collaborators :=
  {| time_time := fun i => inject_Z (Z.of_nat i);
     uuid4 := uuid4 (W_lab (Ok false) []);
     analyze_paper := analyze_paper (W_lab (Ok false) []);
     generate_validation_queries := fun _ _ => Ok ["q"];
     search_papers := fun i _ _ => Ok ["found-" +:+ pretty i];
     search_for_gap_validation := fun _ _ => Ok [];
     validate_gap_against_papers := fun _ _ _ => Ok false;
     enrich_validated_gap := fun _ _ => Ok None;
     model := None;
     set_order := remove_dups |}.

(** ** Further test doubles *)

(** The laboratory with a clock that never goes beyond ten minutes. *)
Definition W_calm : Collaborators :=
  {| time_time := fun i => inject_Z (Z.min (Z.of_nat i) 600);
     uuid4 := uuid4 (W_lab (Ok false) ["doc"]);
     analyze_paper := analyze_paper (W_lab (Ok false) ["doc"]);
     generate_validation_queries := fun _ _ => Ok ["q"];
     search_papers := fun _ _ _ => Ok [];
     search_for_gap_validation := fun _ _ => Ok ["doc"];
     validate_gap_against_papers := fun _ _ _ => Ok false;
     enrich_validated_gap := fun _ _ => Ok None;
     model := None;
     set_order := remove_dups |}.

Definition request_deep (u : string) (n th : Z) : GapAnalysisRequest :=
  {| req_url := u; req_analysis_mode := "deep"; req_max_papers := n;
     req_validation_threshold := th |}.

(** A validated gap about edge devices, by quick enrichment. *)
Definition edge_gap : ValidatedGap :=
  _quick_gap_enrichment
    {| gap_id := "g1";
       description := "Inference is too slow for Real-Time use on Edge devices";
       source_paper := "seed"; source_paper_title := "T";
       category := "Limitation"; validation_strikes := 1 |}.

(** The laboratory with a validator that finds nothing against a gap and
    answers every enrichment request with the record [edge_gap]. *)
Definition W_keen : Collaborators :=
  {| time_time := fun i => inject_Z (Z.of_nat i);
     uuid4 := uuid4 (W_lab (Ok false) ["doc"]);
     analyze_paper := analyze_paper (W_lab (Ok false) ["doc"]);
     generate_validation_queries := fun _ _ => Ok ["q"];
     search_papers := fun _ _ _ => Ok [];
     search_for_gap_validation := fun _ _ => Ok ["doc"];
     validate_gap_against_papers := fun _ _ _ => Ok false;
     enrich_validated_gap := fun _ _ => Ok (Some edge_gap);
     model := None;
     set_order := remove_dups |}.


(** The orchestrator as a run from text with a paper budget of 1 leaves it:
    the two gaps of the seed are still queued for exploration. *)
Definition after_text_run : Orch :=
  (analyze_research_gaps_from_text W_found
     (fun _ _ u => analyze_paper W_found 0 u) "text" "seed" 1 2 initialize).2.

(** * Properties *)

(** ** The Python primitives on examples *)

Example strip_ex : Py.strip "  no labelled data  " = "no labelled data".
Proof. reflexivity. Qed.

Example split_ws_ex :
  Py.split_ws " no  labelled data " = ["no"; "labelled"; "data"].
Proof. reflexivity. Qed.

Example round_ties_to_even :
  Py.round 2.5 0 = 2%Q /\ Py.round 3.5 0 = 4%Q /\ Py.round 0.125 2 = 0.12%Q.
Proof. repeat split. Qed.

Example format_f1_ex : format_f1 (Py.round (20 # 3) 2) = "6.7".
Proof. reflexivity. Qed.

Example contains_ex :
  Py.contains "edge" (Py.lower "Too slow on Edge devices") = true.
Proof. reflexivity. Qed.

(** A whole light run in the laboratory: both gaps of the seed graduate, the
    second one without a validator call, the only document found being
    analysed already. *)
Example light_run_ex :
  let out := analyze_research_gaps (W_lab (Ok false) ["doc"])
               (request_light "seed" 10) initialize in
  potential_gaps_db out.2 = []
  /\ map vg_gap_id (final_gaps_list out.2) = ["3-0000-0"; "4-0000-0"]
  /\ validation_attempts (stats out.2) = 2
  /\ analyze_calls "doc" (log out.2) = 1%nat.
Proof. vm_compute. repeat split. Qed.

(** ** Running monadic code *)

Lemma bind_run {A B} (m : M A) (k : A -> M B) (s : Orch) :
  (m ≫= k) s = match m s with
               | (Ok a, s') => k a s'
               | (Raise, s') => (Raise, s')
               end.
Proof. reflexivity. Qed.

Lemma ret_run {A} (a : A) (s : Orch) : (mret a : M A) s = (Ok a, s).
Proof. reflexivity. Qed.

(** ** Gap extraction *)

Lemma extract_statements_spec W paper cat l s :
  exists news,
    let s' := (extract_statements W paper cat l s).2 in
    (extract_statements W paper cat l s).1 = Ok tt
    /\ map gap_facts news
       = map (fun d => (d, cat, url paper, title paper, 0)) (meaningful l)
    /\ heap s' = heap s ++ news
    /\ potential_gaps_db s'
       = potential_gaps_db s ++ seq (length (heap s)) (length news)
    /\ gaps_discovered (stats s') = gaps_discovered (stats s) + llen news
    /\ gaps_eliminated (stats s') = gaps_eliminated (stats s)
    /\ validation_attempts (stats s') = validation_attempts (stats s)
    /\ final_gaps_list s' = final_gaps_list s
    /\ gap_search_queue s' = gap_search_queue s
    /\ analyzed_papers s' = analyzed_papers s.
Proof.
  revert s. induction l as [|x l IH]; intros s.
  - exists []. cbn. rewrite !app_nil_r. unfold llen. cbn. repeat split; lia.
  - cbn [extract_statements]. rewrite bind_run.
    unfold meaningful. cbn [map List.filter].
    destruct (20 <? Py.len (Py.strip x))%Z eqn:Hlen.
    + unfold fresh_id, interact, modify. rewrite !bind_run. cbn beta iota zeta.
      rewrite ret_run. cbn beta iota.
      match goal with |- context [extract_statements W paper cat l ?t] =>
        destruct (IH t) as (news & H1 & H2 & H3 & H4 & H5 & H6 & H7 & H8 & H9 & H10);
        destruct (extract_statements W paper cat l t) as [r1 s1]
      end.
      cbn in H1, H3, H4, H5, H6, H7, H8, H9, H10. subst r1.
      eexists (_ :: news). cbn zeta. cbn [fst snd].
      rewrite H3, H4, H5, H6, H7, H8, H9, H10.
      split; [reflexivity|]. split; [|split].
      2: { rewrite <- app_assoc. reflexivity. }
      * cbn [map]. f_equal. exact H2.
      * repeat split.
        -- rewrite <- app_assoc. f_equal. cbn [length seq app]. f_equal.
           rewrite length_app. cbn. f_equal. lia.
        -- unfold llen. cbn [length]. lia.
    + rewrite ret_run. apply IH.
Qed.

(** C9. Extraction turns each limitation, then each future-work statement,
    whose stripped text is longer than 20 characters into one new gap
    (category "Limitation", resp. "Future Work", no strike, the paper as
    source), appends these gaps in order to the pending store and adds their
    number to the discovered counter; shorter statements leave no trace.
    Extraction never fails and touches nothing else. *)
Theorem extract_gaps_from_paper_spec W paper s :
  exists news,
    let s' := (_extract_gaps_from_paper W paper s).2 in
    (_extract_gaps_from_paper W paper s).1 = Ok tt
    /\ map gap_facts news
       = map (fun d => (d, "Limitation", url paper, title paper, 0))
           (meaningful (limitations paper))
         ++ map (fun d => (d, "Future Work", url paper, title paper, 0))
              (meaningful (future_work paper))
    /\ heap s' = heap s ++ news
    /\ potential_gaps_db s'
       = potential_gaps_db s ++ seq (length (heap s)) (length news)
    /\ gaps_discovered (stats s') = gaps_discovered (stats s) + llen news
    /\ gaps_eliminated (stats s') = gaps_eliminated (stats s)
    /\ validation_attempts (stats s') = validation_attempts (stats s)
    /\ final_gaps_list s' = final_gaps_list s.
Proof.
  unfold _extract_gaps_from_paper. rewrite bind_run.
  destruct (extract_statements_spec W paper "Limitation" (limitations paper) s)
    as (n1 & H1 & H2 & H3 & H4 & H5 & H6 & H7 & H8 & _).
  destruct (extract_statements W paper "Limitation" (limitations paper) s)
    as [r1 s1]. cbn in H1, H3, H4, H5, H6, H7, H8. subst r1.
  destruct (extract_statements_spec W paper "Future Work" (future_work paper) s1)
    as (n2 & G1 & G2 & G3 & G4 & G5 & G6 & G7 & G8 & _).
  exists (n1 ++ n2). cbn zeta.
  rewrite G1, G3, G4, G5, G6, G7, G8, H3, H4, H5, H6, H7, H8.
  repeat split.
  - now rewrite map_app, H2, G2.
  - now rewrite app_assoc.
  - rewrite <- app_assoc. f_equal. rewrite !length_app, seq_app. reflexivity.
  - unfold llen. rewrite length_app. lia.
Qed.

(** ** Fatal seed failure *)

(** C8. When the analysis of the seed document returns nothing or raises, on
    a state whose list of analysed papers is empty (as [initialize] leaves
    it), [analyze_research_gaps] returns normally the error response: no
    validated gap, every counter zero, no paper analysed, the elapsed time,
    and the fixed failure narrative. The run made four interactions: the
    request id, the start time, the seed analysis, the end time. *)
Theorem seed_failure_gives_error_response W request s :
  analyzed_papers s = [] ->
  (forall p, analyze_paper W (length (log s) + 2) (req_url request) <> Ok (Some p)) ->
  let n := length (log s) in
  let out := analyze_research_gaps W request s in
  let resp := error_response (Py.str_take 8 (uuid4 W n)) (req_url request) 0
                (time_time W (n + 3) - time_time W (n + 1))%Q in
  out.1 = Ok resp
  /\ validated_gaps resp = []
  /\ pm_gaps_discovered (process_metadata resp) = 0
  /\ total_papers_analyzed (process_metadata resp) = 0
  /\ gaps_validated (process_metadata resp) = 0
  /\ pm_gaps_eliminated (process_metadata resp) = 0
  /\ pm_search_queries_executed (process_metadata resp) = 0
  /\ pm_validation_attempts (process_metadata resp) = 0
  /\ frontier_overview (executive_summary resp) = "Analysis failed during processing"
  /\ risk_assessment (executive_summary resp)
     = "Analysis incomplete due to processing error"
  /\ log out.2
     = log s ++ [EvUuid (uuid4 W n); EvClock (time_time W (n + 1));
                 EvAnalyze (req_url request)
                   (analyze_paper W (n + 2) (req_url request));
                 EvClock (time_time W (n + 3))].
Proof.
  intros Hnil Hfail n out resp.
  assert (Hout : out = (Ok resp,
            set_log (fun _ => log s ++ [EvUuid (uuid4 W n); EvClock (time_time W (n + 1));
                 EvAnalyze (req_url request)
                   (analyze_paper W (n + 2) (req_url request));
                 EvClock (time_time W (n + 3))]) s)).
  { subst out resp n. unfold analyze_research_gaps.
    unfold fresh_id, now, interact. rewrite !bind_run. cbn beta iota zeta.
    rewrite ret_run. cbn beta iota. rewrite bind_run. cbn beta iota zeta.
    unfold try_except, _phase_1_seeding, call_analyze_paper, interact.
    rewrite !bind_run. cbn beta iota zeta. cbn [log set_log].
    rewrite !length_app. cbn [length].
    replace (length (log s) + 1 + 1)%nat with (length (log s) + 2)%nat by lia.
    assert (Hend : forall r : Res (option PaperAnalysis),
      (s0 ← get; t ← now W;
       mret (error_response (Py.str_take 8 (uuid4 W (length (log s))))
               (req_url request) (llen (analyzed_papers s0))
               (t - time_time W (length (log s) + 1))%Q))
        (set_log (fun l => l ++ [EvAnalyze (req_url request) r])
           (set_log (fun l => l ++ [EvClock (time_time W (length (log s) + 1))])
              (set_log (fun l => l ++ [EvUuid (uuid4 W (length (log s)))]) s)))
      = (Ok (error_response (Py.str_take 8 (uuid4 W (length (log s))))
               (req_url request) 0
               (time_time W (length (log s) + 3)
                - time_time W (length (log s) + 1))%Q),
         set_log (fun _ => log s ++
            [EvUuid (uuid4 W (length (log s)));
             EvClock (time_time W (length (log s) + 1));
             EvAnalyze (req_url request) r;
             EvClock (time_time W (length (log s) + 3))]) s)).
    { intros r. unfold get, now, interact. rewrite !bind_run.
      cbn beta iota zeta. rewrite ret_run.
      cbn [analyzed_papers set_log log]. rewrite Hnil.
      rewrite !length_app. cbn [length].
      replace (length (log s) + 1 + 1 + 1)%nat with (length (log s) + 3)%nat by lia.
      f_equal. unfold set_log. cbn. rewrite <- !app_assoc. reflexivity. }
    destruct (analyze_paper W (length (log s) + 2) (req_url request))
      as [[p|]|] eqn:Han.
    - exfalso. apply (Hfail p). reflexivity.
    - unfold raise. apply Hend.
    - apply Hend. }
  rewrite Hout. cbn [fst snd log set_log]. repeat split.
Qed.

Lemma seed_failure_gives_error_response_witness :
  let out := analyze_research_gaps W_dead (request_light "seed" 10) initialize in
  exists resp,
    out.1 = Ok resp
    /\ validated_gaps resp = []
    /\ pm_gaps_discovered (process_metadata resp) = 0
    /\ total_papers_analyzed (process_metadata resp) = 0
    /\ frontier_overview (executive_summary resp) = "Analysis failed during processing".
Proof.
  cbn zeta. eexists.
  pose proof (seed_failure_gives_error_response W_dead (request_light "seed" 10)
                initialize eq_refl) as H.
  cbn zeta in H.
  destruct H as (H1 & H2 & H3 & H4 & _ & _ & _ & _ & H5 & _).
  - intros p. cbn. discriminate.
  - split; [exact H1|]. split; [exact H2|]. split; [exact H3|].
    split; [exact H4|exact H5].
Defined.

(** ** Synthesis formulas: rounding *)

Lemma round_half_even_range (y : Q) :
  Py.round_half_even y = Qfloor y \/ Py.round_half_even y = Qfloor y + 1.
Proof.
  unfold Py.round_half_even.
  destruct (y - inject_Z (Qfloor y) ?= 1 # 2)%Q; auto.
  destruct (Z.even (Qfloor y)); auto.
Qed.

Lemma round_half_even_mono (y1 y2 : Q) :
  (y1 <= y2)%Q -> Py.round_half_even y1 <= Py.round_half_even y2.
Proof.
  intros Hle.
  pose proof (Qfloor_resp_le _ _ Hle) as Hf.
  destruct (Z.eq_dec (Qfloor y1) (Qfloor y2)) as [Heq|Hne].
  - unfold Py.round_half_even. rewrite <- Heq.
    destruct (Qcompare_spec (y1 - inject_Z (Qfloor y1)) (1 # 2)) as [E1|L1|G1];
      destruct (Qcompare_spec (y2 - inject_Z (Qfloor y1)) (1 # 2)) as [E2|L2|G2];
      try destruct (Z.even (Qfloor y1)); try lia; exfalso; lra.
  - destruct (round_half_even_range y1), (round_half_even_range y2); lia.
Qed.

Lemma round_mono (x1 x2 : Q) (nd : nat) :
  (x1 <= x2)%Q -> (Py.round x1 nd <= Py.round x2 nd)%Q.
Proof.
  intros Hle. unfold Py.round.
  assert (Hp : 0 < 10 ^ Z.of_nat nd) by (apply Z.pow_pos_nonneg; lia).
  assert (HpQ : (0 < inject_Z (10 ^ Z.of_nat nd))%Q).
  { change 0%Q with (inject_Z 0). rewrite <- Zlt_Qlt. exact Hp. }
  apply Qle_shift_div_l; [exact HpQ|].
  unfold Qdiv. rewrite <- Qmult_assoc.
  rewrite (Qmult_comm (/ _)), Qmult_inv_r, Qmult_1_r.
  - rewrite <- Zle_Qle. apply round_half_even_mono.
    apply Qmult_le_compat_r; [exact Hle | apply Qlt_le_weak; exact HpQ].
  - intros H0. rewrite H0 in HpQ. apply (Qlt_irrefl 0). exact HpQ.
Qed.

(** [a + n * c] grows with [n] when [c] is not negative. *)
Lemma affine_mono (a c : Q) (n1 n2 : Z) :
  (0 <= c)%Q -> n1 <= n2 -> (a + inject_Z n1 * c <= a + inject_Z n2 * c)%Q.
Proof.
  intros Hc Hn. apply Qplus_le_compat; [apply Qle_refl|].
  apply Qmult_le_compat_r; [|exact Hc]. rewrite <- Zle_Qle. exact Hn.
Qed.

(** ** Synthesis formulas: bounds *)

Lemma capped_mono (cap a c : Q) (n1 n2 : Z) :
  (0 <= c)%Q -> n1 <= n2 ->
  (Qmin cap (Py.round (a + inject_Z n1 * c) 1)
   <= Qmin cap (Py.round (a + inject_Z n2 * c) 1))%Q.
Proof.
  intros Hc Hn. apply Q.min_le_compat_l, round_mono, affine_mono; assumption.
Qed.

(** The numeric fields of a synthesized response are the formulas of
    [Formula] at the sizes of the final state. *)
Lemma synthesize_fields order s rid seed start pt resp :
  synthesize order s rid seed start pt = Some resp ->
  let final := llen (final_gaps_list s) in
  let papers := llen (analyzed_papers s) in
  let frontier := Z.of_nat (size (research_frontier s)) in
  let md := process_metadata resp in
  breakthrough_potential_score (frontier_stats md)
    = Formula.breakthrough_potential_score final
  /\ frontier_coverage (frontier_stats md) = Formula.frontier_coverage papers
  /\ research_velocity (frontier_stats md) = Formula.research_velocity papers pt
  /\ llm_tokens_processed md = Formula.llm_tokens_processed papers final
  /\ ai_confidence_score md = Formula.ai_confidence_score final
  /\ citation_potential_score md = Formula.citation_potential_score final
  /\ novelty_index md = Formula.novelty_index frontier
  /\ impact_factor_projection md = Formula.impact_factor_projection final
  /\ patent_landscape (research_intelligence resp)
     = map (fun '(c, count) => (c, Formula.patent_landscape c count))
         (build_clusters (final_gaps_list s))
  /\ technology_readiness (research_intelligence resp)
     = map (fun '(c, count) => (c, Formula.technology_readiness count))
         (build_clusters (final_gaps_list s))
  /\ processing_time_seconds md = Py.round pt 2.
Proof.
  unfold synthesize. destruct (Qeq_bool (pt / 60) 0); [discriminate|].
  intros [= <-]. cbn. repeat split.
Qed.

(** Rounding loses less than one unit. *)
Lemma round_lower (x : Q) (nd : nat) : (x - 1 <= Py.round x nd)%Q.
Proof.
  unfold Py.round.
  assert (Hp : 1 <= 10 ^ Z.of_nat nd) by (apply Z.lt_pred_le, Z.pow_pos_nonneg; lia).
  set (p := 10 ^ Z.of_nat nd) in *.
  assert (HP : (1 <= inject_Z p)%Q).
  { change 1%Q with (inject_Z 1). rewrite <- Zle_Qle. exact Hp. }
  apply Qle_shift_div_l; [lra|].
  pose proof (Qlt_floor (x * inject_Z p)) as Hf.
  assert (Hr : (inject_Z (Qfloor (x * inject_Z p))
                <= inject_Z (Py.round_half_even (x * inject_Z p)))%Q).
  { rewrite <- Zle_Qle. destruct (round_half_even_range (x * inject_Z p)); lia. }
  rewrite inject_Z_plus in Hf. change (inject_Z 1) with 1%Q in Hf.
  assert (E : ((x - 1) * inject_Z p == x * inject_Z p - inject_Z p)%Q) by ring.
  rewrite E. lra.
Qed.

Lemma ratio_mono (a1 a2 c : Q) :
  (a1 <= a2 -> 0 < c -> a1 / c <= a2 / c)%Q.
Proof.
  intros Ha Hc. unfold Qdiv. apply Qmult_le_compat_r; [exact Ha|].
  apply Qlt_le_weak, Qinv_lt_0_compat. exact Hc.
Qed.

Lemma ratio_antimono (a c1 c2 : Q) :
  (0 <= a -> 0 < c1 -> c1 <= c2 -> a / c2 <= a / c1)%Q.
Proof.
  intros Ha Hc1 Hc.
  assert (Hc2 : (0 < c2)%Q) by lra.
  apply Qle_shift_div_r; [exact Hc2|].
  assert (Hq : (0 <= a / c1)%Q) by (apply Qle_shift_div_l; lra).
  assert (E : (a == a / c1 * c1)%Q) by (field; lra).
  rewrite E at 1. nra.
Qed.

(** A ratio of an integer to a positive number exceeds any value. *)
Lemma ratio_unbounded (c B : Q) :
  (0 < c)%Q -> exists n : Z, 0 <= n /\ (B + 1 < inject_Z n / c)%Q.
Proof.
  intros Hc.
  exists (Z.max 0 (Qfloor ((B + 1) * c) + 1)). split; [lia|].
  apply Qlt_shift_div_l; [exact Hc|].
  eapply Qlt_le_trans; [apply Qlt_floor|]. rewrite <- Zle_Qle. lia.
Qed.

Lemma round_above (x B : Q) (nd : nat) : (B + 1 < x -> B < Py.round x nd)%Q.
Proof.
  intros H. pose proof (round_lower x nd) as H'.
  generalize dependent (Py.round x nd). intros q H'. lra.
Qed.

Lemma max_1_positive (k : Z) : (0 < inject_Z (Z.max 1 k))%Q.
Proof. change 0%Q with (inject_Z 0). rewrite <- Zlt_Qlt. lia. Qed.

Lemma inject_Z_le (a b : Z) : a <= b -> (inject_Z a <= inject_Z b)%Q.
Proof. intros H. now rewrite <- Zle_Qle. Qed.

(** An integer above a given rational. *)
Lemma integer_above (B : Q) :
  exists n : Z, 0 <= n /\ (B + 1 < inject_Z n)%Q.
Proof.
  exists (Z.max 0 (Qfloor (B + 1) + 1)). split; [lia|].
  eapply Qlt_le_trans; [apply Qlt_floor|]. apply inject_Z_le. lia.
Qed.

(** C5, as the code has it. The scores that the synthesis computes with a
    cap never decrease when their input grows and never exceed their cap
    (10, 85, 100, 9, 60 or 80); the confidence of a listed elimination
    never decreases with its index and never exceeds 88, at most three
    eliminations being listed; and the validation rigor is the constant
    92.3. Every other formula is monotonic in each of its inputs as well,
    non-decreasing in a count that it adds or divides, non-increasing in a
    count or a duration that it divides by or subtracts, non-decreasing in
    the length of the category, but none of them has a bound: the cross-domain connections, the discovery rate, the
    elimination effectiveness, the velocity, the average analysis time, the
    rounded processing time, the failed extractions, the API calls, the
    token estimate, the activity score, the momentum and the patent count
    each exceed any given value for some input that is not negative. *)
Theorem synthesis_scores_capped_or_unbounded (n1 n2 k : Z) (t1 t2 : Q)
    (cat cat' : string) :
  n1 <= n2 -> 0 <= k -> (0 < t1)%Q -> (t1 <= t2)%Q ->
  Py.len cat <= Py.len cat' ->
  (* the scores computed with a cap *)
  ((Formula.breakthrough_potential_score n1
      <= Formula.breakthrough_potential_score n2
    /\ Formula.breakthrough_potential_score n2 <= 10)%Q
   /\ (Formula.frontier_coverage n1 <= Formula.frontier_coverage n2
       /\ Formula.frontier_coverage n2 <= 85)%Q
   /\ (Formula.ai_confidence_score n1 <= Formula.ai_confidence_score n2
       /\ Formula.ai_confidence_score n2 <= 100)%Q
   /\ (Formula.citation_potential_score n1 <= Formula.citation_potential_score n2
       /\ Formula.citation_potential_score n2 <= 10)%Q
   /\ (Formula.novelty_index n1 <= Formula.novelty_index n2
       /\ Formula.novelty_index n2 <= 10)%Q
   /\ (Formula.impact_factor_projection n1 <= Formula.impact_factor_projection n2
       /\ Formula.impact_factor_projection n2 <= 10)%Q
   /\ (Formula.analysis_completeness n1 <= Formula.analysis_completeness n2
       /\ Formula.analysis_completeness n2 <= 100)%Q
   /\ (Formula.technology_readiness n1 <= Formula.technology_readiness n2
       /\ Formula.technology_readiness n2 <= 9)
   /\ (Formula.funding_growth_percent n1 <= Formula.funding_growth_percent n2
       /\ Formula.funding_growth_percent n2 <= 60)
   /\ (Formula.growth_potential_percent n1 <= Formula.growth_potential_percent n2
       /\ Formula.growth_potential_percent n2 <= 80))
  (* the confidence of the listed eliminations, and the constant rigor *)
  /\ ((Formula.elimination_confidence n1 <= Formula.elimination_confidence n2)%Q
      /\ (forall eliminated i, 0 <= i < Z.min 3 eliminated ->
            (Formula.elimination_confidence i <= 88)%Q)
      /\ forall order s rid seed start resp,
           synthesize order s rid seed start t1 = Some resp ->
           exists qm, quality_metrics resp = Some qm
                      /\ (validation_rigor qm == 92.3)%Q)
  (* the formulas without a cap *)
  /\ (Formula.cross_domain_connections n1 <= Formula.cross_domain_connections n2
      /\ unbounded_Z Formula.cross_domain_connections)
  /\ ((Formula.gap_discovery_rate n1 k <= Formula.gap_discovery_rate n2 k)%Q
      /\ (Formula.gap_discovery_rate k n2 <= Formula.gap_discovery_rate k n1)%Q
      /\ unbounded_Q (fun n => Formula.gap_discovery_rate n k))
  /\ ((Formula.elimination_effectiveness n1 k
         <= Formula.elimination_effectiveness n2 k)%Q
      /\ (Formula.elimination_effectiveness k n2
            <= Formula.elimination_effectiveness k n1)%Q
      /\ unbounded_Q (fun n => Formula.elimination_effectiveness n k))
  /\ ((Formula.research_velocity n1 t1 <= Formula.research_velocity n2 t1)%Q
      /\ (Formula.research_velocity k t2 <= Formula.research_velocity k t1)%Q
      /\ unbounded_Q (fun n => Formula.research_velocity n t1))
  /\ ((Formula.avg_paper_analysis_time t1 k
         <= Formula.avg_paper_analysis_time t2 k)%Q
      /\ (Formula.avg_paper_analysis_time t1 n2
            <= Formula.avg_paper_analysis_time t1 n1)%Q
      /\ unbounded_in_time (fun t => Formula.avg_paper_analysis_time t k))
  /\ ((Py.round t1 2 <= Py.round t2 2)%Q
      /\ unbounded_in_time (fun t => Py.round t 2))
  /\ (Formula.failed_extractions n1 k <= Formula.failed_extractions n2 k
      /\ Formula.failed_extractions k n2 <= Formula.failed_extractions k n1
      /\ unbounded_Z (fun n => Formula.failed_extractions n k))
  /\ (Formula.gemini_api_calls n1 k <= Formula.gemini_api_calls n2 k
      /\ Formula.gemini_api_calls k n1 <= Formula.gemini_api_calls k n2
      /\ unbounded_Z (fun n => Formula.gemini_api_calls n k))
  /\ (Formula.llm_tokens_processed n1 k <= Formula.llm_tokens_processed n2 k
      /\ Formula.llm_tokens_processed k n1 <= Formula.llm_tokens_processed k n2
      /\ unbounded_Z (fun n => Formula.llm_tokens_processed n k))
  /\ ((Formula.activity_score n1 <= Formula.activity_score n2)%Q
      /\ unbounded_Q Formula.activity_score)
  /\ ((Formula.research_momentum cat n1 <= Formula.research_momentum cat n2)%Q
      /\ (Formula.research_momentum cat n1
            <= Formula.research_momentum cat' n1)%Q
      /\ unbounded_Q (Formula.research_momentum cat))
  /\ (Formula.patent_landscape cat n1 <= Formula.patent_landscape cat n2
      /\ Formula.patent_landscape cat n1 <= Formula.patent_landscape cat' n1
      /\ unbounded_Z (Formula.patent_landscape cat)).
Proof.
  intros Hn Hk Ht1 Ht Hcat.
  assert (HnQ : (inject_Z n1 <= inject_Z n2)%Q) by now apply inject_Z_le.
  assert (HkQ : (0 <= inject_Z k)%Q) by now apply (inject_Z_le 0).
  assert (H02 : (0 <= 0.2)%Q) by (vm_compute; discriminate).
  assert (H03 : (0 <= 0.3)%Q) by (vm_compute; discriminate).
  assert (H04 : (0 <= 0.4)%Q) by (vm_compute; discriminate).
  assert (H05 : (0 <= 0.5)%Q) by (vm_compute; discriminate).
  assert (H15 : (0 <= 1.5)%Q) by (vm_compute; discriminate).
  assert (Hmax : (inject_Z (Z.max 1 n1) <= inject_Z (Z.max 1 n2))%Q)
    by (apply inject_Z_le; lia).
  assert (H60 : (0 < t1 / 60)%Q) by (apply Qlt_shift_div_l; lra).
  split.
  { (* capped *)
    split; [split|].
    { apply capped_mono; assumption. }
    { apply Q.le_min_l. }
    split; [split|].
    { unfold Formula.frontier_coverage. apply round_mono, Q.min_le_compat_l.
      apply Qplus_le_compat; [apply Qle_refl|]. apply inject_Z_le. lia. }
    { unfold Formula.frontier_coverage.
      apply Qle_trans with (Py.round 85 1); [|vm_compute; discriminate].
      apply round_mono, Q.le_min_l. }
    split; [split|].
    { unfold Formula.ai_confidence_score.
      apply Q.min_le_compat_l, round_mono, Qplus_le_compat; [apply Qle_refl|].
      apply Q.min_le_compat_l, Qmult_le_compat_r; assumption. }
    { apply Q.le_min_l. }
    split; [split|].
    { apply capped_mono; assumption. }
    { apply Q.le_min_l. }
    split; [split|].
    { apply capped_mono; assumption. }
    { apply Q.le_min_l. }
    split; [split|].
    { apply capped_mono; assumption. }
    { apply Q.le_min_l. }
    split; [split|].
    { unfold Formula.analysis_completeness.
      apply Q.min_le_compat_l, round_mono, Qplus_le_compat; [apply Qle_refl|].
      apply Q.min_le_compat_l. exact HnQ. }
    { apply Q.le_min_l. }
    unfold Formula.technology_readiness, Formula.funding_growth_percent,
      Formula.growth_potential_percent. lia. }
  split.
  { (* elimination confidence, validation rigor *)
    split; [|split].
    - unfold Formula.elimination_confidence. apply round_mono.
      apply Qplus_le_compat; [apply Qle_refl|]. apply inject_Z_le. lia.
    - intros eliminated i Hi. unfold Formula.elimination_confidence.
      apply Qle_trans with (Py.round 88 1); [|vm_compute; discriminate].
      apply round_mono.
      apply Qle_trans with (82 + inject_Z 6)%Q; [|vm_compute; discriminate].
      apply Qplus_le_compat; [apply Qle_refl|]. apply inject_Z_le. lia.
    - intros order s rid seed start resp. unfold synthesize.
      destruct (Qeq_bool (t1 / 60) 0); [discriminate|].
      intros [= <-]. eexists. split; [reflexivity|]. vm_compute. reflexivity. }
  split.
  { (* cross_domain_connections *)
    unfold Formula.cross_domain_connections. split.
    - apply Z.max_le_compat_l, Z.div_le_mono; lia.
    - intros B. exists (3 * (Z.abs B + 1)). cbn beta. split; [lia|].
      rewrite Z.mul_comm, Z.div_mul by lia. lia. }
  split.
  { (* gap_discovery_rate *)
    unfold Formula.gap_discovery_rate. split; [|split].
    - apply round_mono, ratio_mono; [exact HnQ | apply max_1_positive].
    - apply round_mono, ratio_antimono;
        [exact HkQ | apply max_1_positive | exact Hmax].
    - intros B.
      destruct (ratio_unbounded (inject_Z (Z.max 1 k)) B (max_1_positive k))
        as (n & Hn0 & Hlt).
      exists n. cbn beta. split; [exact Hn0|]. now apply round_above. }
  split.
  { (* elimination_effectiveness *)
    unfold Formula.elimination_effectiveness. split; [|split].
    - apply round_mono, Qmult_le_compat_r; [|discriminate].
      apply ratio_mono; [exact HnQ | apply max_1_positive].
    - apply round_mono, Qmult_le_compat_r; [|discriminate].
      apply ratio_antimono; [exact HkQ | apply max_1_positive | exact Hmax].
    - intros B.
      destruct (ratio_unbounded (inject_Z (Z.max 1 k)) (Qmax B 0)
                  (max_1_positive k)) as (n & Hn0 & Hlt).
      exists n. cbn beta. split; [exact Hn0|]. apply round_above.
      pose proof (Q.le_max_l B 0). pose proof (Q.le_max_r B 0). lra. }
  split.
  { (* research_velocity *)
    unfold Formula.research_velocity. split; [|split].
    - apply round_mono, ratio_mono; assumption.
    - apply round_mono, ratio_antimono; [exact HkQ | exact H60|].
      apply ratio_mono; [exact Ht | reflexivity].
    - intros B. destruct (ratio_unbounded (t1 / 60) B H60) as (n & Hn0 & Hlt).
      exists n. cbn beta. split; [exact Hn0|]. now apply round_above. }
  split.
  { (* avg_paper_analysis_time *)
    unfold Formula.avg_paper_analysis_time. split; [|split].
    - apply round_mono, ratio_mono; [exact Ht | apply max_1_positive].
    - apply round_mono, ratio_antimono;
        [lra | apply max_1_positive | exact Hmax].
    - intros B. pose proof (max_1_positive k) as Hc.
      pose proof (Q.le_max_l B 0). pose proof (Q.le_max_r B 0).
      exists ((Qmax B 0 + 2) * inject_Z (Z.max 1 k))%Q. cbn beta. split.
      + apply Qmult_le_0_compat; lra.
      + apply round_above.
        assert (E : ((Qmax B 0 + 2) * inject_Z (Z.max 1 k)
                      / inject_Z (Z.max 1 k) == Qmax B 0 + 2)%Q)
          by (field; lra).
        rewrite E. lra. }
  split.
  { (* processing_time_seconds *)
    split; [now apply round_mono|].
    intros B. pose proof (Q.le_max_l B 0). pose proof (Q.le_max_r B 0).
    exists (Qmax B 0 + 2)%Q. cbn beta. split; [lra|]. apply round_above. lra. }
  split.
  { unfold Formula.failed_extractions. split; [lia|]. split; [lia|].
    intros B. exists (Z.abs B + k + 1). cbn beta. split; lia. }
  split.
  { unfold Formula.gemini_api_calls. split; [lia|]. split; [lia|].
    intros B. exists (Z.abs B + 1). cbn beta. split; lia. }
  split.
  { unfold Formula.llm_tokens_processed. split; [lia|]. split; [lia|].
    intros B. exists (Z.abs B + 1). cbn beta. split; lia. }
  split.
  { (* activity_score *)
    unfold Formula.activity_score. split.
    - apply round_mono, affine_mono; assumption.
    - intros B. destruct (integer_above B) as (n & Hn0 & Hlt).
      exists (2 * n). cbn beta. split; [lia|]. apply round_above.
      rewrite inject_Z_mult. change (inject_Z 2) with 2%Q. lra. }
  split.
  { (* research_momentum *)
    unfold Formula.research_momentum. split; [|split].
    - apply round_mono. apply Qplus_le_compat; [|apply Qle_refl].
      apply affine_mono; [vm_compute; discriminate | exact Hn].
    - apply round_mono. apply Qplus_le_compat; [apply Qle_refl|].
      apply Qmult_le_compat_r; [now apply inject_Z_le | discriminate].
    - intros B. destruct (integer_above B) as (n & Hn0 & Hlt).
      exists n. cbn beta. split; [exact Hn0|]. apply round_above.
      assert (Hlen : (0 <= inject_Z (Py.len cat))%Q)
        by (apply (inject_Z_le 0); unfold Py.len; lia).
      assert (HnQ0 : (0 <= inject_Z n)%Q) by now apply (inject_Z_le 0).
      lra. }
  { unfold Formula.patent_landscape. split; [lia|]. split; [lia|].
    intros B. exists (Z.abs B + 1). cbn beta. split; [lia|]. unfold Py.len. lia. }
Qed.

Lemma synthesis_scores_capped_or_unbounded_witness :
  (Formula.breakthrough_potential_score 3
     <= Formula.breakthrough_potential_score 9
   /\ Formula.breakthrough_potential_score 9 <= 10)%Q
  /\ (Formula.research_velocity 3 30 <= Formula.research_velocity 9 30)%Q
  /\ (Formula.research_velocity 2 45 <= Formula.research_velocity 2 30)%Q
  /\ exists papers, 0 <= papers
                    /\ (1000 < Formula.research_velocity papers 30)%Q.
Proof.
  destruct (synthesis_scores_capped_or_unbounded 3 9 2 30 45 "Limitation"
              "Future Work")
    as ((H1 & _) & _ & _ & _ & _ & (H2 & H3 & H4) & _).
  - lia.
  - lia.
  - reflexivity.
  - discriminate.
  - vm_compute. discriminate.
  - split; [exact H1|]. split; [exact H2|]. split; [exact H3|].
    exact (H4 1000%Q).
Defined.

(** C5, as stated, fails: the token estimate grows without bound with the
    number of analysed papers. *)
Lemma llm_tokens_processed_unbounded :
  ~ exists B : Z, forall papers final : Z,
      0 <= papers -> 0 <= final -> Formula.llm_tokens_processed papers final <= B.
Proof.
  intros [B HB]. specialize (HB (Z.abs B + 1) 0).
  unfold Formula.llm_tokens_processed in HB. lia.
Qed.

(** So does the per-category patent count. *)
Lemma patent_landscape_unbounded (cat : string) :
  ~ exists B : Z, forall count : Z, 0 <= count -> Formula.patent_landscape cat count <= B.
Proof.
  intros [B HB]. specialize (HB (Z.abs B + 1)).
  unfold Formula.patent_landscape in HB. unfold Py.len in HB. lia.
Qed.

(** ** Reasoning rules *)

Lemma new_events_app s s' evs : log s' = log s ++ evs -> new_events s s' = evs.
Proof. intros H. unfold new_events. rewrite H. apply drop_app_length. Qed.

Section Rules.
Context (R : Orch -> Orch -> Prop) `{!PreOrder R}.

Lemma preserves_ret {A} (a : A) : preserves R (mret a : M A).
Proof. intros s. cbn. reflexivity. Qed.

Lemma preserves_raise {A} : preserves R (raise : M A).
Proof. intros s. cbn. reflexivity. Qed.

Lemma preserves_bind {A B} (m : M A) (k : A -> M B) :
  preserves R m -> (forall a, preserves R (k a)) -> preserves R (m ≫= k).
Proof.
  intros Hm Hk s. rewrite bind_run. specialize (Hm s).
  destruct (m s) as [[a|] s1]; cbn in *; [|exact Hm].
  etransitivity; [exact Hm | apply Hk].
Qed.

Lemma preserves_get_bind {B} (k : Orch -> M B) :
  (forall s, R s (k s s).2) -> preserves R (get ≫= k).
Proof. intros Hk s. rewrite bind_run. cbn. apply Hk. Qed.

Lemma preserves_try {A} (m h : M A) :
  preserves R m -> preserves R h -> preserves R (try_except m h).
Proof.
  intros Hm Hh s. unfold try_except. specialize (Hm s).
  destruct (m s) as [[a|] s1]; cbn in *; [exact Hm|].
  etransitivity; [exact Hm | apply Hh].
Qed.

Lemma preserves_modify (f : Orch -> Orch) :
  (forall s, R s (f s)) -> preserves R (modify f).
Proof. intros Hf s. cbn. apply Hf. Qed.

Lemma preserves_interact {A} (ask : nat -> Res A) (ev : Res A -> Event) :
  (forall s r, R s (set_log (fun l => l ++ [ev r]) s)) ->
  preserves R (interact ask ev).
Proof. intros H s. cbn. apply H. Qed.

Lemma preserves_read_gap r : preserves R (read_gap r).
Proof. intros s. cbn. reflexivity. Qed.

Lemma preserves_get : preserves R get.
Proof. intros s. cbn. reflexivity. Qed.

End Rules.

Global Instance quiet_preorder P : PreOrder (quiet P).
Proof.
  split.
  - intros s. repeat split; try reflexivity. exists []. split; [|constructor].
    now rewrite app_nil_r.
  - intros s1 s2 s3 ((e1 & L1 & F1) & A1 & B1 & C1 & D1 & E1 & G1)
                     ((e2 & L2 & F2) & A2 & B2 & C2 & D2 & E2 & G2).
    repeat split; try congruence.
    exists (e1 ++ e2). split; [|now apply Forall_app].
    rewrite L2, L1. now rewrite app_assoc.
Qed.

Lemma quiet_weaken (P P' : Event -> Prop) s s' :
  (forall e, P e -> P' e) -> quiet P s s' -> quiet P' s s'.
Proof.
  intros HP ((e & L & F) & H). split; [|exact H].
  exists e. split; [exact L|]. eapply Forall_impl; eauto.
Qed.

Lemma quiet_log_event (P : Event -> Prop) e s :
  P e -> quiet P s (set_log (fun l => l ++ [e]) s).
Proof.
  intros He. repeat split. exists [e]. split; [reflexivity|]. now constructor.
Qed.

(** ** Lists of gap references *)

Lemma gap_eqb_refl h r : gap_eqb h r r = true.
Proof. unfold gap_eqb. now apply bool_decide_eq_true. Qed.

Lemma gap_eqb_same_id h x r :
  gap_eqb h x r = true -> gap_id (h !!! x) = gap_id (h !!! r).
Proof. unfold gap_eqb. intros H%bool_decide_eq_true. now rewrite H. Qed.

Lemma ids_distinct_inj h l x r :
  ids_distinct h l -> x ∈ l -> r ∈ l ->
  gap_id (h !!! x) = gap_id (h !!! r) -> x = r.
Proof.
  unfold ids_distinct. induction l as [|a l IH]; intros Hnd Hx Hr Heq.
  - inversion Hx.
  - cbn in Hnd. apply NoDup_cons in Hnd as [Hna Hnd].
    apply elem_of_cons in Hx as [->|Hx]; apply elem_of_cons in Hr as [->|Hr]; auto.
    + exfalso. apply Hna. rewrite Heq.
      apply (list_elem_of_fmap_2 (fun x => gap_id (h !!! x))). exact Hr.
    + exfalso. apply Hna. rewrite <- Heq.
      apply (list_elem_of_fmap_2 (fun x => gap_id (h !!! x))). exact Hx.
Qed.

Lemma py_in_elem h r l : r ∈ l -> py_in h r l = true.
Proof.
  unfold py_in. intros Hr. apply existsb_exists. exists r.
  split; [now apply list_elem_of_In | apply gap_eqb_refl].
Qed.

Lemma without_not_elem r l : r ∉ l -> without r l = l.
Proof.
  unfold without. induction l as [|a l IH]; intros Hr; [reflexivity|].
  apply not_elem_of_cons in Hr as [Hne Hr]. cbn.
  destruct (Nat.eqb_spec a r) as [->|_]; [congruence|]. cbn. now rewrite IH.
Qed.

Lemma elem_of_without x r l : x ∈ without r l <-> x ∈ l /\ x <> r.
Proof.
  unfold without. rewrite !list_elem_of_In, filter_In.
  rewrite negb_true_iff, Nat.eqb_neq. reflexivity.
Qed.

Lemma py_remove_spec h r l :
  ids_distinct h l -> r ∈ l -> py_remove h r l = Some (without r l).
Proof.
  induction l as [|a l IH]; intros Hnd Hr; [inversion Hr|].
  cbn [py_remove]. destruct (gap_eqb h a r) eqn:Heq.
  - apply gap_eqb_same_id in Heq.
    assert (a = r) as ->.
    { eapply ids_distinct_inj; eauto. apply list_elem_of_here. }
    unfold without. cbn. rewrite Nat.eqb_refl. cbn. f_equal. symmetry.
    apply without_not_elem.
    unfold ids_distinct in Hnd. cbn in Hnd. apply NoDup_cons in Hnd as [Hna Hnd].
    intros Hin. apply Hna.
    apply (list_elem_of_fmap_2 (fun x => gap_id (h !!! x))). exact Hin.
  - assert (a <> r) as Hne.
    { intros ->. rewrite gap_eqb_refl in Heq. discriminate. }
    apply elem_of_cons in Hr as [->|Hr]; [congruence|].
    unfold ids_distinct in Hnd. cbn in Hnd. apply NoDup_cons in Hnd as [Hna Hnd].
    rewrite IH by assumption. cbn. unfold without. cbn.
    destruct (Nat.eqb_spec a r); [congruence|]. reflexivity.
Qed.

Lemma py_index_spec h pre r todo :
  ids_distinct h (pre ++ r :: todo) ->
  py_index h r (pre ++ r :: todo) = Some (length pre).
Proof.
  induction pre as [|a pre IH]; intros Hnd.
  - cbn. now rewrite gap_eqb_refl.
  - cbn [app py_index length]. destruct (gap_eqb h a r) eqn:Heq.
    + exfalso. apply gap_eqb_same_id in Heq.
      unfold ids_distinct in Hnd. cbn in Hnd. apply NoDup_cons in Hnd as [Hna _].
      apply Hna. rewrite Heq.
      apply (list_elem_of_fmap_2 (fun x => gap_id (h !!! x))).
      apply elem_of_app. right. apply list_elem_of_here.
    + unfold ids_distinct in Hnd. cbn in Hnd. apply NoDup_cons in Hnd as [_ Hnd].
      now rewrite IH.
Qed.

Lemma strike_keeps_id (h : list ResearchGap) r x :
  gap_id (alter strike r h !!! x) = gap_id (h !!! x).
Proof.
  rewrite !list_lookup_total_alt.
  destruct (decide (r = x)) as [->|Hne].
  - rewrite list_lookup_alter_eq. destruct (h !! x); reflexivity.
  - now rewrite list_lookup_alter_ne.
Qed.

Lemma strike_keeps_ids_distinct h r l :
  ids_distinct h l -> ids_distinct (alter strike r h) l.
Proof.
  unfold ids_distinct. intros H.
  erewrite map_ext; [exact H|]. intros x. apply strike_keeps_id.
Qed.

Lemma strike_at (h : list ResearchGap) r :
  (r < length h)%nat -> alter strike r h !!! r = strike (h !!! r).
Proof.
  intros Hr. rewrite !list_lookup_total_alt, list_lookup_alter_eq.
  destruct (h !! r) eqn:E; [reflexivity|].
  apply lookup_ge_None in E. lia.
Qed.

Lemma strike_elsewhere (h : list ResearchGap) r x :
  x <> r -> alter strike r h !!! x = h !!! x.
Proof.
  intros Hne. rewrite !list_lookup_total_alt, list_lookup_alter_ne; auto.
Qed.

(** ** The steps of the validation loop *)

(** Closes [Forall P evs] for an explicit list of events. *)
Ltac solve_events :=
  repeat first [ assumption | exact I | reflexivity
               | apply Forall_nil_2 | apply Forall_cons_2
               | apply Forall_app_2 ].

(** Enrichment never fails: it logs the validator's answer and appends one
    record. *)
Lemma enrich_into_final_run W r s :
  enrich_into_final W r s =
  (Ok tt,
   set_final_gaps_list (fun l => l ++ [enrichment_of W s r])
     (set_log (fun l => l ++
        [EvEnrich (heap s !!! r)
           (enrich_validated_gap W (length (log s)) (heap s !!! r))]) s)).
Proof.
  unfold enrich_into_final, try_except, read_gap, call_enrich_validated_gap,
    interact, append_final, modify, enrichment_of.
  rewrite !bind_run. cbn beta iota zeta. rewrite ?bind_run. cbn beta iota zeta.
  destruct (enrich_validated_gap W (length (log s)) (heap s !!! r)) as [[v|]|];
    reflexivity.
Qed.

Lemma analyze_validation_papers_spec W urls acc s :
  let out := analyze_validation_papers W urls acc s in
  exists evs,
    log out.2 = log s ++ evs
    /\ Forall search_event evs
    /\ heap out.2 = heap s
    /\ potential_gaps_db out.2 = potential_gaps_db s
    /\ final_gaps_list out.2 = final_gaps_list s
    /\ stats out.2 = stats s
    /\ match out.1 with
       | Ok ps => ps = acc \/ exists u p, EvAnalyze u (Ok (Some p)) ∈ evs
       | Raise => exists u, EvAnalyze u Raise ∈ evs
       end.
Proof.
  revert acc s. induction urls as [|u urls IH]; intros acc s.
  - exists []. cbn. rewrite app_nil_r. repeat split; auto.
  - cbn [analyze_validation_papers]. unfold get. rewrite bind_run.
    cbn beta iota zeta.
    destruct (bool_decide (u ∈ map url (analyzed_papers s))); [apply IH|].
    unfold call_analyze_paper, interact. rewrite bind_run. cbn beta iota zeta.
    destruct (analyze_paper W (length (log s)) u) as [[p|]|] eqn:Han.
    + unfold modify. rewrite bind_run. cbn beta iota zeta.
      match goal with |- context [analyze_validation_papers W urls ?a ?t] =>
        destruct (IH a t) as (evs & L & F & H1 & H2 & H3 & H4 & H5);
        destruct (analyze_validation_papers W urls a t) as [res s1]
      end.
      cbn in L, H1, H2, H3, H4, H5 |- *.
      exists (EvAnalyze u (Ok (Some p)) :: evs).
      rewrite L, <- app_assoc.
      split; [reflexivity|]. split; [constructor; [exact I|exact F]|].
      repeat (split; [assumption|]).
      destruct res as [ps|].
      * right. exists u, p. apply list_elem_of_here.
      * destruct H5 as [u' H5]. exists u'. now apply list_elem_of_further.
    + match goal with |- context [analyze_validation_papers W urls ?a ?t] =>
        destruct (IH a t) as (evs & L & F & H1 & H2 & H3 & H4 & H5);
        destruct (analyze_validation_papers W urls a t) as [res s1]
      end.
      cbn in L, H1, H2, H3, H4, H5 |- *.
      exists (EvAnalyze u (Ok None) :: evs).
      rewrite L, <- app_assoc.
      split; [reflexivity|]. split; [constructor; [exact I|exact F]|].
      repeat (split; [assumption|]).
      destruct res as [ps|].
      * destruct H5 as [->|(u' & p' & H5)]; [now left|].
        right. exists u', p'. now apply list_elem_of_further.
      * destruct H5 as [u' H5]. exists u'. now apply list_elem_of_further.
    + cbn. exists [EvAnalyze u Raise].
      split; [reflexivity|]. split; [constructor; [exact I|constructor]|].
      repeat (split; [reflexivity|]).
      exists u. apply list_elem_of_here.
Qed.

Lemma find_validation_papers_spec W d r s :
  let out := find_validation_papers W d r s in
  exists evs,
    log out.2 = log s ++ evs
    /\ Forall search_event evs
    /\ heap out.2 = heap s
    /\ potential_gaps_db out.2 = potential_gaps_db s
    /\ final_gaps_list out.2 = final_gaps_list s
    /\ gaps_eliminated (stats out.2) = gaps_eliminated (stats s)
    /\ validation_attempts (stats out.2) = validation_attempts (stats s)
    /\ gaps_discovered (stats out.2) = gaps_discovered (stats s)
    /\ match out.1 with
       | Ok ps => ps = [] \/ exists u p, EvAnalyze u (Ok (Some p)) ∈ evs
       | Raise => (exists x, EvSearchValidation x Raise ∈ evs)
                  \/ exists u, EvAnalyze u Raise ∈ evs
       end.
Proof.
  unfold find_validation_papers, read_gap. rewrite bind_run. cbn beta iota zeta.
  rewrite bind_run.
  (* step 3.1 *)
  set (g := heap s !!! r).
  assert (H31 : exists s1 qs e1,
    try_except
      (qs ← call_generate_validation_queries W g;
       modify (set_stats (add_search_queries_executed (Z.of_nat (length qs))));;
       mret qs) (mret (fallback_queries g)) s = (Ok qs, s1)
    /\ log s1 = log s ++ [e1] /\ search_event e1
    /\ heap s1 = heap s /\ potential_gaps_db s1 = potential_gaps_db s
    /\ final_gaps_list s1 = final_gaps_list s
    /\ gaps_eliminated (stats s1) = gaps_eliminated (stats s)
    /\ validation_attempts (stats s1) = validation_attempts (stats s)
    /\ gaps_discovered (stats s1) = gaps_discovered (stats s)).
  { unfold try_except, call_generate_validation_queries, interact, modify.
    rewrite bind_run. cbn beta iota zeta.
    destruct (generate_validation_queries W (length (log s)) g) as [qs|].
    - rewrite bind_run. cbn beta iota zeta. rewrite ret_run.
      eexists _, qs, _. split; [reflexivity|]. cbn. repeat split; exact I.
    - rewrite ret_run. eexists _, _, _. split; [reflexivity|]. cbn.
      repeat split; exact I. }
  destruct H31 as (s1 & qs & e1 & -> & L1 & P1 & A1 & B1 & C1 & D1 & E1 & G1).
  (* step 3.2 *)
  unfold call_search_for_gap_validation, interact. rewrite bind_run.
  cbn beta iota zeta.
  destruct (search_for_gap_validation W (length (log s1)) (description g))
    as [urls|] eqn:Hs.
  2:{ cbn. exists [e1; EvSearchValidation (description g) Raise].
      rewrite L1, <- app_assoc.
      split; [reflexivity|]. split; [solve_events|].
      repeat (split; [assumption|]).
      left. exists (description g). apply list_elem_of_further, list_elem_of_here. }
  (* step 3.3 *)
  set (s2 := set_log _ s1).
  assert (H33 : exists s3 n e3,
    match d with
    | None => mret 2%nat
    | Some d0 =>
        if Py.truthy d0 then
          t ← now W; mret (if Qlt_le_dec d0 (t + 30) then 1%nat else 2%nat)
        else mret 2%nat
    end s2 = (Ok n, s3)
    /\ log s3 = log s2 ++ e3 /\ Forall search_event e3
    /\ heap s3 = heap s2 /\ potential_gaps_db s3 = potential_gaps_db s2
    /\ final_gaps_list s3 = final_gaps_list s2 /\ stats s3 = stats s2).
  { destruct d as [d0|].
    - destruct (Py.truthy d0).
      + unfold now, interact. rewrite bind_run. cbn beta iota zeta. rewrite ret_run.
        eexists _, _, [_]. split; [reflexivity|]. cbn.
        split; [reflexivity|]. split; [solve_events|]. repeat split.
      + rewrite ret_run. exists s2, 2%nat, []. rewrite app_nil_r.
        split; [reflexivity|]. split; [reflexivity|]. split; [solve_events|].
        repeat split.
    - rewrite ret_run. exists s2, 2%nat, []. rewrite app_nil_r.
      split; [reflexivity|]. split; [reflexivity|]. split; [solve_events|].
      repeat split. }
  rewrite bind_run.
  destruct H33 as (s3 & n & e3 & -> & L3 & P3 & A3 & B3 & C3 & D3).
  destruct (analyze_validation_papers_spec W (take n urls) [] s3)
    as (e4 & L4 & P4 & A4 & B4 & C4 & D4 & R4).
  destruct (analyze_validation_papers W (take n urls) [] s3) as [res s4].
  cbn [fst snd] in *.
  exists (e1 :: EvSearchValidation (description g) (Ok urls) :: e3 ++ e4).
  subst s2. cbn [log set_log heap potential_gaps_db final_gaps_list stats] in *.
  rewrite L4, L3, L1, A4, A3, A1, B4, B3, B1, C4, C3, C1, D4, D3.
  split; [now rewrite <- !app_assoc|].
  split; [solve_events|].
  repeat (split; [first [assumption | reflexivity]|]).
  destruct res as [ps|].
  - destruct R4 as [->|(u & p & Hin)]; [now left|].
    right. exists u, p. do 2 apply list_elem_of_further. apply elem_of_app. now right.
  - right. destruct R4 as [u Hin]. exists u.
    do 2 apply list_elem_of_further. apply elem_of_app. now right.
Qed.

Lemma judge_gap_run W r ps s :
  ps <> [] ->
  let g := heap s !!! r in
  let res := validate_gap_against_papers W (length (log s)) g ps in
  let s1 := set_log (fun l => l ++ [EvValidate g ps res]) s in
  judge_gap W r ps s =
  match res with
  | Ok true =>
      if py_in (heap s) r (potential_gaps_db s) then
        match py_remove (heap s) r (potential_gaps_db s) with
        | Some l =>
            (Ok false,
             set_stats (add_gaps_eliminated 1)
               (set_potential_gaps_db (fun _ => l) s1))
        | None => (Ok true, s1)
        end
      else (Ok false, s1)
  | _ => (Ok true, s1)
  end.
Proof.
  intros Hps g res s1. destruct ps as [|p ps]; [congruence|].
  unfold judge_gap, try_except, read_gap, call_validate_gap_against_papers,
    interact. rewrite !bind_run. cbn beta iota zeta.
  fold g. fold res. fold s1.
  destruct res as [[|]|]; try reflexivity.
  rewrite bind_run. unfold remove_pending_if_in, remove_pending.
  cbn [heap potential_gaps_db set_log s1].
  destruct (py_in (heap s) r (potential_gaps_db s)); [|reflexivity].
  destruct (py_remove (heap s) r (potential_gaps_db s)); reflexivity.
Qed.

Lemma strike_and_graduate_run W th r s :
  let s1 := set_stats (add_validation_attempts 1) (set_heap (alter strike r) s) in
  strike_and_graduate W th r s =
  if (th <=? validation_strikes (heap s1 !!! r))%Z then
    let s2 :=
      set_final_gaps_list (fun l => l ++ [enrichment_of W s1 r])
        (set_log (fun l => l ++
           [EvEnrich (heap s1 !!! r)
              (enrich_validated_gap W (length (log s1)) (heap s1 !!! r))]) s1) in
    match py_remove (heap s1) r (potential_gaps_db s1) with
    | Some l => (Ok tt, set_potential_gaps_db (fun _ => l) s2)
    | None => (Raise, s2)
    end
  else (Ok tt, s1).
Proof.
  intros s1. unfold strike_and_graduate, modify, read_gap.
  rewrite !bind_run. cbn beta iota zeta. fold s1.
  destruct (th <=? validation_strikes (heap s1 !!! r))%Z; [|reflexivity].
  rewrite bind_run, enrich_into_final_run. unfold remove_pending.
  cbn [heap potential_gaps_db set_final_gaps_list set_log].
  destruct (py_remove (heap s1) r (potential_gaps_db s1)); reflexivity.
Qed.

Lemma events_forall (P : Event -> Prop) evs e : Forall P evs -> e ∈ evs -> P e.
Proof. intros H Hin. eapply Forall_forall in H; eauto. Qed.

(** The three ways one iteration of the validation loop can go, for a gap
    that is pending under a unique id: the search or an analysis raised
    (nothing changes); the validator invalidated the gap (elimination); or
    the gap took a strike, after a validator answer other than "invalidated"
    or with no validator call at all. *)
Lemma validate_gap_cases W th d r s :
  (r < length (heap s))%nat ->
  r ∈ potential_gaps_db s ->
  ids_distinct (heap s) (potential_gaps_db s) ->
  let g := heap s !!! r in
  let out := validate_gap W th d r s in
  let s' := out.2 in
  exists evs1,
    Forall search_event evs1 /\
    ( (* the search or an analysis raised *)
      (out.1 = Raise
       /\ log s' = log s ++ evs1
       /\ ((exists x, EvSearchValidation x Raise ∈ evs1)
           \/ exists u, EvAnalyze u Raise ∈ evs1)
       /\ heap s' = heap s
       /\ potential_gaps_db s' = potential_gaps_db s
       /\ final_gaps_list s' = final_gaps_list s
       /\ gaps_eliminated (stats s') = gaps_eliminated (stats s)
       /\ validation_attempts (stats s') = validation_attempts (stats s))
      \/ (* invalidated *)
      (exists ps,
         out.1 = Ok tt
         /\ log s' = log s ++ evs1 ++ [EvValidate g ps (Ok true)]
         /\ (exists u p, EvAnalyze u (Ok (Some p)) ∈ evs1)
         /\ heap s' = heap s
         /\ potential_gaps_db s' = without r (potential_gaps_db s)
         /\ final_gaps_list s' = final_gaps_list s
         /\ gaps_eliminated (stats s') = gaps_eliminated (stats s) + 1
         /\ validation_attempts (stats s') = validation_attempts (stats s))
      \/ (* strike *)
      (exists vevs,
         (vevs = []
          \/ exists ps res,
               vevs = [EvValidate g ps res] /\ res <> Ok true
               /\ exists u p, EvAnalyze u (Ok (Some p)) ∈ evs1)
         /\ out.1 = Ok tt
         /\ heap s' = alter strike r (heap s)
         /\ gaps_eliminated (stats s') = gaps_eliminated (stats s)
         /\ validation_attempts (stats s') = validation_attempts (stats s) + 1
         /\ if (th <=? validation_strikes g + 1)%Z then
              exists eres v,
                log s' = log s ++ evs1 ++ vevs ++ [EvEnrich (strike g) eres]
                /\ (eres = enrich_validated_gap W
                             (length (log s ++ evs1 ++ vevs)) (strike g)
                    /\ v = enrichment_for eres (strike g))
                /\ final_gaps_list s' = final_gaps_list s ++ [v]
                /\ potential_gaps_db s' = without r (potential_gaps_db s)
            else
              log s' = log s ++ evs1 ++ vevs
              /\ final_gaps_list s' = final_gaps_list s
              /\ potential_gaps_db s' = potential_gaps_db s) ).
Proof.
  intros Hr Hin Hids g out s'. subst out s'. unfold validate_gap.
  rewrite bind_run.
  destruct (find_validation_papers_spec W d r s)
    as (evs1 & L1 & P1 & A1 & B1 & C1 & D1 & E1 & G1 & R1).
  destruct (find_validation_papers W d r s) as [[ps|] s1]; cbn [fst snd] in *.
  2:{ exists evs1. split; [exact P1|]. left. repeat split; auto. }
  exists evs1. split; [exact P1|].
  (* what a strike does to [s2], a state that differs from [s1] by its log *)
  assert (Hstrike : forall vevs s2,
    log s2 = log s ++ evs1 ++ vevs -> heap s2 = heap s ->
    potential_gaps_db s2 = potential_gaps_db s ->
    final_gaps_list s2 = final_gaps_list s ->
    gaps_eliminated (stats s2) = gaps_eliminated (stats s) ->
    validation_attempts (stats s2) = validation_attempts (stats s) ->
    let o := strike_and_graduate W th r s2 in
    o.1 = Ok tt
    /\ heap o.2 = alter strike r (heap s)
    /\ gaps_eliminated (stats o.2) = gaps_eliminated (stats s)
    /\ validation_attempts (stats o.2) = validation_attempts (stats s) + 1
    /\ if (th <=? validation_strikes g + 1)%Z then
         exists eres v,
           log o.2 = log s ++ evs1 ++ vevs ++ [EvEnrich (strike g) eres]
           /\ (eres = enrich_validated_gap W
                        (length (log s ++ evs1 ++ vevs)) (strike g)
               /\ v = enrichment_for eres (strike g))
           /\ final_gaps_list o.2 = final_gaps_list s ++ [v]
           /\ potential_gaps_db o.2 = without r (potential_gaps_db s)
       else
         log o.2 = log s ++ evs1 ++ vevs
         /\ final_gaps_list o.2 = final_gaps_list s
         /\ potential_gaps_db o.2 = potential_gaps_db s).
  { intros vevs s2 L2 A2 B2 C2 D2 E2 o. subst o.
    rewrite strike_and_graduate_run. cbn zeta.
    cbn [heap potential_gaps_db set_stats set_heap log]. rewrite A2, B2.
    rewrite strike_at by exact Hr. fold g. cbn [validation_strikes strike].
    destruct (th <=? validation_strikes g + 1)%Z.
    - rewrite py_remove_spec;
        [|apply strike_keeps_ids_distinct; exact Hids | exact Hin].
      unfold enrichment_of. cbn [heap log set_stats set_heap].
      rewrite A2, strike_at by exact Hr. fold g.
      rewrite L2.
      set (eres := enrich_validated_gap W (length (log s ++ evs1 ++ vevs))
                     (strike g)).
      cbn. rewrite A2, C2, D2, E2, L2. repeat split.
      exists eres, (enrichment_for eres (strike g)).
      rewrite <- !app_assoc. repeat split.
    - cbn. rewrite A2, B2, C2, D2, E2, L2. repeat split. }
  destruct ps as [|p ps].
  - (* no validation paper: the validator is not called *)
    cbn [judge_gap]. rewrite bind_run, ret_run.
    right. right. exists []. split; [now left|].
    apply Hstrike; auto. now rewrite app_nil_r.
  - destruct R1 as [R1|R1]; [discriminate|].
    rewrite bind_run, judge_gap_run by discriminate. cbn zeta.
    rewrite A1, B1. fold g.
    destruct (validate_gap_against_papers W (length (log s1)) g (p :: ps))
      as [[|]|] eqn:Hv.
    + rewrite py_in_elem by exact Hin. rewrite py_remove_spec by assumption.
      right. left. exists (p :: ps). cbn.
      rewrite L1, A1, C1, D1, E1, <- app_assoc. repeat split; auto.
    + right. right. exists [EvValidate g (p :: ps) (Ok false)].
      split; [right; exists (p :: ps), (Ok false); repeat split; [discriminate|exact R1]|].
      apply Hstrike; cbn; auto. now rewrite L1, <- app_assoc.
    + right. right. exists [EvValidate g (p :: ps) Raise].
      split; [right; exists (p :: ps), Raise; repeat split; [discriminate|exact R1]|].
      apply Hstrike; cbn; auto. now rewrite L1, <- app_assoc.
Qed.

Lemma elem_of_new_events s s' evs e :
  log s' = log s ++ evs -> e ∈ new_events s s' <-> e ∈ evs.
Proof. intros H. now rewrite (new_events_app _ _ _ H). Qed.

Lemma search_event_not_enrich evs :
  Forall search_event evs -> Forall (fun e => ~ is_enrich e) evs.
Proof.
  intros H. eapply Forall_impl; [exact H|].
  intros e He Hen. destruct e; cbn in *; tauto.
Qed.

(** The quick enrichment, which stands in when the validator gives no
    record, stands for its gap. *)
Lemma enrichment_for_fallback answer g :
  (forall v, answer <> Ok (Some v)) -> stands_for (enrichment_for answer g) g.
Proof.
  intros H. destruct answer as [[v|]|]; [destruct (H v eq_refl)| |];
    repeat split.
Qed.

(** C3. One iteration of the validation loop on a pending gap (unique id,
    live reference). If the validator answered "invalidated", the gap leaves
    the pending store, the eliminated counter grows by one, and neither the
    strikes, the attempts counter nor the final list change. If the validator
    answered "not invalidated" or failed, the strikes and the attempts
    counter grow by one each. When the new strike count meets the threshold,
    the iteration ends with its one enrichment call, for the struck gap; the
    final list receives the record that the validator answered, and the
    quick enrichment of the struck gap exactly when the validator answered
    nothing or failed (that record stands for the gap); and the gap leaves
    the pending store. Otherwise no enrichment is asked for, and the final
    list and the pending store stay as they were. *)
Theorem validation_step_semantics W th d r s :
  (r < length (heap s))%nat ->
  r ∈ potential_gaps_db s ->
  ids_distinct (heap s) (potential_gaps_db s) ->
  let g := heap s !!! r in
  let s' := (validate_gap W th d r s).2 in
  let evs := new_events s s' in
  ((exists g0 ps, EvValidate g0 ps (Ok true) ∈ evs) ->
     potential_gaps_db s' = without r (potential_gaps_db s)
     /\ gaps_eliminated (stats s') = gaps_eliminated (stats s) + 1
     /\ validation_strikes (heap s' !!! r) = validation_strikes g
     /\ validation_attempts (stats s') = validation_attempts (stats s)
     /\ final_gaps_list s' = final_gaps_list s)
  /\
  ((exists g0 ps, EvValidate g0 ps (Ok false) ∈ evs
                  \/ EvValidate g0 ps Raise ∈ evs) ->
     validation_strikes (heap s' !!! r) = validation_strikes g + 1
     /\ validation_attempts (stats s') = validation_attempts (stats s) + 1
     /\ gaps_eliminated (stats s') = gaps_eliminated (stats s)
     /\ if (th <=? validation_strikes g + 1)%Z then
          (exists evs0,
             let answer :=
               enrich_validated_gap W (length (log s) + length evs0)%nat
                 (strike g) in
             evs = evs0 ++ [EvEnrich (strike g) answer]
             /\ Forall (fun e => ~ is_enrich e) evs0
             /\ final_gaps_list s'
                = final_gaps_list s ++ [enrichment_for answer (strike g)]
             /\ ((forall v, answer <> Ok (Some v)) ->
                   stands_for (enrichment_for answer (strike g)) (strike g)))
          /\ potential_gaps_db s' = without r (potential_gaps_db s)
        else
          final_gaps_list s' = final_gaps_list s
          /\ potential_gaps_db s' = potential_gaps_db s
          /\ Forall (fun e => ~ is_enrich e) evs).
Proof.
  intros Hr Hin Hids g s' evs.
  destruct (validate_gap_cases W th d r s Hr Hin Hids) as (evs1 & P1 & Hcases).
  fold g in Hcases. fold s' in Hcases.
  assert (Hno : forall g0 ps res, EvValidate g0 ps res ∈ evs1 -> False).
  { intros g0 ps res Hev. exact (events_forall _ _ _ P1 Hev). }
  destruct Hcases as [Hraise | [Helim | Hstrike]].
  - (* nothing was judged *)
    destruct Hraise as (_ & L & _).
    split; intros (g0 & ps & Hev); exfalso.
    + apply (elem_of_new_events _ _ _ _ L) in Hev. eauto.
    + destruct Hev as [Hev|Hev];
        apply (elem_of_new_events _ _ _ _ L) in Hev; eauto.
  - destruct Helim as (ps & _ & L & _ & A & B & C & D & E).
    split.
    + intros _. rewrite A, B, C, D, E. repeat split.
    + intros (g0 & ps0 & Hev). exfalso.
      destruct Hev as [Hev|Hev];
        apply (elem_of_new_events _ _ _ _ L) in Hev;
        apply elem_of_app in Hev as [Hev|Hev]; eauto;
        apply list_elem_of_singleton in Hev; discriminate.
  - destruct Hstrike as (vevs & Hv & _ & A & D & E & Hgrad).
    assert (Hnt : forall g0 ps, EvValidate g0 ps (Ok true) ∈ vevs -> False).
    { intros g0 ps0 Hev. destruct Hv as [->|(ps & res & -> & Hres & _)].
      - inversion Hev.
      - apply list_elem_of_singleton in Hev. congruence. }
    assert (Hquiet : Forall (fun e => ~ is_enrich e) (evs1 ++ vevs)).
    { apply Forall_app_2; [now apply search_event_not_enrich|].
      destruct Hv as [->|(ps & res & -> & _)]; [constructor|].
      constructor; [intros []|constructor]. }
    split.
    + intros (g0 & ps & Hev). exfalso.
      destruct (th <=? validation_strikes g + 1)%Z.
      * destruct Hgrad as (eres & v & L & _).
        apply (elem_of_new_events _ _ _ _ L) in Hev.
        rewrite !elem_of_app in Hev. destruct Hev as [Hev|[Hev|Hev]]; eauto.
        apply list_elem_of_singleton in Hev. discriminate.
      * destruct Hgrad as (L & _).
        apply (elem_of_new_events _ _ _ _ L) in Hev.
        rewrite !elem_of_app in Hev. destruct Hev as [Hev|Hev]; eauto.
    + intros _. rewrite A, D, E, strike_at by exact Hr.
      fold g. cbn [validation_strikes strike]. repeat split.
      destruct (th <=? validation_strikes g + 1)%Z.
      * destruct Hgrad as (eres & v & L & (He & Hv') & C & B).
        split; [|exact B]. exists (evs1 ++ vevs). cbn zeta.
        rewrite <- length_app, <- He. subst v.
        split; [|split; [exact Hquiet|split; [exact C|]]].
        -- subst evs. apply new_events_app. rewrite L.
           now rewrite <- !app_assoc.
        -- apply enrichment_for_fallback.
      * destruct Hgrad as (L & C & B).
        split; [exact C|]. split; [exact B|].
        subst evs. now rewrite (new_events_app _ _ _ L).
Qed.

Lemma validation_step_semantics_witness :
  (let W := W_lab (Ok true) ["doc"] in
   let s' := (validate_gap W 1 None 0 (seeded W)).2 in
   potential_gaps_db s' = without 0 (potential_gaps_db (seeded W))
   /\ gaps_eliminated (stats s') = gaps_eliminated (stats (seeded W)) + 1
   /\ validation_strikes (heap s' !!! 0%nat) = 0)
  /\
  (let W := W_lab (Ok false) ["doc"] in
   let s' := (validate_gap W 1 None 0 (seeded W)).2 in
   validation_strikes (heap s' !!! 0%nat) = 0 + 1
   /\ validation_attempts (stats s') = validation_attempts (stats (seeded W)) + 1
   /\ length (final_gaps_list s') = 1%nat
   /\ potential_gaps_db s' = without 0 (potential_gaps_db (seeded W)))
  /\
  (let s' := (validate_gap W_keen 1 None 0 (seeded W_keen)).2 in
   final_gaps_list s' = [edge_gap]).
Proof.
  cbn zeta. split; [|split].
  - destruct (validation_step_semantics (W_lab (Ok true) ["doc"]) 1 None 0
                (seeded (W_lab (Ok true) ["doc"]))) as [HA _].
    + vm_compute. lia.
    + vm_compute. apply list_elem_of_here.
    + unfold ids_distinct. apply (bool_decide_unpack _). vm_compute. exact I.
    + destruct HA as (H1 & H2 & H3 & _).
      * eexists _, _. vm_compute.
        do 3 apply list_elem_of_further. apply list_elem_of_here.
      * split; [exact H1|]. split; [exact H2|]. rewrite H3.
        vm_compute. reflexivity.
  - destruct (validation_step_semantics (W_lab (Ok false) ["doc"]) 1 None 0
                (seeded (W_lab (Ok false) ["doc"]))) as [_ HB].
    + vm_compute. lia.
    + vm_compute. apply list_elem_of_here.
    + unfold ids_distinct. apply (bool_decide_unpack _). vm_compute. exact I.
    + destruct HB as (H1 & H2 & _ & H3).
      * eexists _, _. left. vm_compute.
        do 3 apply list_elem_of_further. apply list_elem_of_here.
      * change (1 <=? validation_strikes
                        (heap (seeded (W_lab (Ok false) ["doc"])) !!! 0%nat) + 1)%Z
          with true in H3.
        destruct H3 as ((evs0 & _ & _ & Hv & _) & H4).
        split; [exact H1|]. split; [exact H2|]. split; [|exact H4].
        rewrite Hv, length_app. vm_compute. reflexivity.
  - destruct (validation_step_semantics W_keen 1 None 0 (seeded W_keen))
      as [_ HB].
    + vm_compute. lia.
    + vm_compute. apply list_elem_of_here.
    + unfold ids_distinct. apply (bool_decide_unpack _). vm_compute. exact I.
    + destruct HB as (_ & _ & _ & H3).
      * eexists _, _. left. vm_compute.
        do 3 apply list_elem_of_further. apply list_elem_of_here.
      * change (1 <=? validation_strikes
                        (heap (seeded W_keen) !!! 0%nat) + 1)%Z
          with true in H3.
        destruct H3 as ((evs0 & _ & _ & Hv & _) & _).
        rewrite Hv. vm_compute. reflexivity.
Defined.




(** ** The drain *)

Lemma enrichment_of_is_enrichment W s r :
  is_enrichment_of W (heap s !!! r) (enrichment_of W s r).
Proof.
  unfold is_enrichment_of, enrichment_of.
  destruct (enrich_validated_gap W (length (log s)) (heap s !!! r))
    as [[v|]|] eqn:E; eauto.
Qed.

Lemma ids_distinct_without h x l :
  ids_distinct h l -> ids_distinct h (without x l).
Proof.
  unfold ids_distinct, without. induction l as [|a l IH]; intros H; [exact H|].
  cbn in H. apply NoDup_cons in H as [Hna Hnd]. cbn.
  destruct (negb (a =? x)%nat); [|now apply IH].
  cbn. apply NoDup_cons. split; [|now apply IH].
  intros Hin. apply Hna.
  apply list_elem_of_fmap in Hin as (y & Hy & Hin).
  apply list_elem_of_In, filter_In in Hin as [Hin _].
  rewrite Hy. apply (list_elem_of_fmap_2 (fun x => gap_id (h !!! x))).
  now apply list_elem_of_In.
Qed.

Lemma elem_of_without_all y rem l :
  y ∈ without_all rem l <-> y ∈ l /\ y ∉ rem.
Proof.
  unfold without_all. revert l. induction rem as [|x rem IH]; intros l; cbn.
  - split; [intros H; split; [exact H|inversion 1] | now intros [H _]].
  - rewrite IH, elem_of_without, not_elem_of_cons. tauto.
Qed.

Lemma remove_pending_if_in_run r s :
  r ∈ potential_gaps_db s ->
  ids_distinct (heap s) (potential_gaps_db s) ->
  remove_pending_if_in r s
  = (Ok true, set_potential_gaps_db (fun _ => without r (potential_gaps_db s)) s).
Proof.
  intros Hin Hids. unfold remove_pending_if_in, remove_pending.
  rewrite py_in_elem by exact Hin. rewrite py_remove_spec by assumption.
  reflexivity.
Qed.

Lemma drain_spec W th rem s :
  NoDup rem ->
  Forall (fun x => validation_strikes (heap s !!! x) < th) rem ->
  Forall (fun x => x ∈ potential_gaps_db s) rem ->
  ids_distinct (heap s) (potential_gaps_db s) ->
  let out := drain W th rem s in
  out.1 = Ok tt
  /\ heap out.2 = heap s
  /\ stats out.2 = stats s
  /\ potential_gaps_db out.2 = without_all rem (potential_gaps_db s)
  /\ exists vs evs,
       final_gaps_list out.2 = final_gaps_list s ++ vs
       /\ Forall2 (fun x v => is_enrichment_of W (heap s !!! x) v) rem vs
       /\ log out.2 = log s ++ evs
       /\ Forall is_enrich evs
       /\ length evs = length rem.
Proof.
  revert s. induction rem as [|x rem IH]; intros s Hnd Hel Hin Hids.
  - cbn. repeat split. exists [], []. rewrite !app_nil_r. repeat split; constructor.
  - apply NoDup_cons in Hnd as [Hx Hnd].
    apply Forall_cons in Hel as [Hxe Hel]. apply Forall_cons in Hin as [Hxi Hin].
    cbn [drain]. unfold read_gap. rewrite bind_run. cbn beta iota zeta.
    destruct (Z.ltb_spec (validation_strikes (heap s !!! x)) th) as [_|Hge]; [|lia].
    rewrite bind_run, bind_run, enrich_into_final_run.
    rewrite bind_run, remove_pending_if_in_run by (cbn; assumption).
    rewrite ret_run.
    match goal with |- context [drain W th rem ?t] =>
      destruct (IH t) as (R1 & R2 & R3 & R4 & vs & evs & R5 & R6 & R7 & R8 & R9);
      [ exact Hnd
      | exact Hel
      | cbn; apply Forall_forall; intros y Hy; apply elem_of_without; split;
          [ eapply Forall_forall in Hin; eauto | intros ->; contradiction ]
      | cbn; now apply ids_distinct_without
      | destruct (drain W th rem t) as [res s1] ]
    end.
    cbn in R1, R2, R3, R4, R5, R6, R7 |- *.
    rewrite R2, R3, R4, R5, R7. repeat split; [exact R1|].
    exists (enrichment_of W s x :: vs), (EvEnrich (heap s !!! x)
             (enrich_validated_gap W (length (log s)) (heap s !!! x)) :: evs).
    rewrite <- !app_assoc. repeat split.
    + constructor; [apply enrichment_of_is_enrichment | exact R6].
    + constructor; [exact I | exact R8].
    + cbn. now rewrite R9.
Qed.

(** What the drain appends, record by record and call by call: the gap at
    position [k] is enriched by the call of index [n + k], [n] being the
    number of interactions before the drain. *)
Lemma drain_records W th rem s n :
  NoDup rem ->
  Forall (fun x => validation_strikes (heap s !!! x) < th) rem ->
  Forall (fun x => x ∈ potential_gaps_db s) rem ->
  ids_distinct (heap s) (potential_gaps_db s) ->
  n = length (log s) ->
  let out := drain W th rem s in
  let answer := fun (k x : nat) =>
    enrich_validated_gap W (n + k)%nat (heap s !!! x) in
  final_gaps_list out.2
  = final_gaps_list s
    ++ imap (fun k x => enrichment_for (answer k x) (heap s !!! x)) rem
  /\ log out.2
     = log s ++ imap (fun k x => EvEnrich (heap s !!! x) (answer k x)) rem.
Proof.
  revert s n. induction rem as [|x rem IH]; intros s n Hnd Hel Hin Hids Hn.
  - cbn. now rewrite !app_nil_r.
  - apply NoDup_cons in Hnd as [Hx Hnd].
    apply Forall_cons in Hel as [Hxe Hel]. apply Forall_cons in Hin as [Hxi Hin].
    cbn [drain]. unfold read_gap. rewrite bind_run. cbn beta iota zeta.
    destruct (Z.ltb_spec (validation_strikes (heap s !!! x)) th) as [_|Hge]; [|lia].
    rewrite bind_run, bind_run, enrich_into_final_run.
    rewrite bind_run, remove_pending_if_in_run by (cbn; assumption).
    rewrite ret_run.
    match goal with |- context [drain W th rem ?t] =>
      destruct (IH t (S n)) as (R1 & R2);
      [ exact Hnd
      | exact Hel
      | cbn; apply Forall_forall; intros y Hy; apply elem_of_without; split;
          [ eapply Forall_forall in Hin; eauto | intros ->; contradiction ]
      | cbn; now apply ids_distinct_without
      | cbn; rewrite length_app, Hn; cbn; lia
      | destruct (drain W th rem t) as [res s1] ]
    end.
    cbn [fst snd heap log final_gaps_list set_potential_gaps_db
         set_final_gaps_list set_log] in R1, R2 |- *.
    rewrite R1, R2, !imap_cons, <- !app_assoc. cbn [app].
    rewrite Nat.add_0_r. subst n. unfold enrichment_of.
    split; do 2 f_equal; apply imap_ext; intros k y _; cbn;
      now rewrite Nat.add_succ_r.
Qed.

(** C7. The deadline check at the head of an iteration of the validation
    loop finds the deadline passed, [r :: todo] being the gaps not yet
    visited: all of them eligible, pending, and with unique ids. Then the
    loop ends normally; each of these gaps has left the pending store; every
    other pending gap is still pending; and beyond the clock reading the
    only interactions are the enrichment calls, one per drained gap and in
    order: no query, search, analysis or judgment is issued any more. The
    final list receives one record per drained gap, in order: the record
    that the validator answered for that gap, and the quick enrichment of
    the gap exactly when the validator answered nothing or failed (that
    record stands for the gap). *)
Theorem drain_on_deadline W th dl pre r todo s :
  Py.truthy dl = true ->
  Qle_bool dl (time_time W (length (log s))) = true ->
  ids_distinct (heap s) (pre ++ r :: todo) ->
  ids_distinct (heap s) (potential_gaps_db s) ->
  Forall (fun x => validation_strikes (heap s !!! x) < th) (r :: todo) ->
  Forall (fun x => x ∈ potential_gaps_db s) (r :: todo) ->
  let out := validation_loop W th (Some dl) (pre ++ r :: todo) (r :: todo) s in
  let s' := out.2 in
  let answer := fun (k x : nat) =>
    enrich_validated_gap W (length (log s) + 1 + k)%nat (heap s !!! x) in
  out.1 = Ok tt
  /\ (forall x, x ∈ r :: todo -> x ∉ potential_gaps_db s')
  /\ (forall y, y ∈ potential_gaps_db s -> y ∉ r :: todo ->
                y ∈ potential_gaps_db s')
  /\ (forall y, y ∈ potential_gaps_db s' -> y ∈ potential_gaps_db s)
  /\ heap s' = heap s
  /\ final_gaps_list s'
     = final_gaps_list s
       ++ imap (fun k x => enrichment_for (answer k x) (heap s !!! x))
            (r :: todo)
  /\ new_events s s'
     = EvClock (time_time W (length (log s)))
       :: imap (fun k x => EvEnrich (heap s !!! x) (answer k x)) (r :: todo)
  /\ (forall k x, (forall v, answer k x <> Ok (Some v)) ->
        stands_for (enrichment_for (answer k x) (heap s !!! x)) (heap s !!! x)).
Proof.
  intros Htruthy Hpassed Hgtv Hids Hel Hin out s' answer. subst out s' answer.
  cbn [validation_loop]. unfold deadline_passed. rewrite Htruthy.
  unfold now, interact, get. rewrite !bind_run. cbn beta iota zeta.
  rewrite ret_run. cbn beta iota. rewrite Hpassed. rewrite bind_run.
  cbn beta iota zeta. cbn [heap set_log].
  rewrite py_index_spec by exact Hgtv. rewrite drop_app_length.
  assert (Hnd : NoDup (r :: todo)).
  { unfold ids_distinct in Hgtv. apply NoDup_fmap_1 in Hgtv.
    apply NoDup_app in Hgtv as (_ & _ & Hgtv). exact Hgtv. }
  match goal with |- context [drain W th (r :: todo) ?t] =>
    destruct (drain_spec W th (r :: todo) t Hnd Hel Hin Hids)
      as (R1 & R2 & _ & R4 & _);
    destruct (drain_records W th (r :: todo) t (length (log s) + 1) Hnd Hel
                Hin Hids) as (R5 & R7);
    [ cbn; now rewrite length_app
    | destruct (drain W th (r :: todo) t) as [res s1] ]
  end.
  cbn [fst snd heap potential_gaps_db final_gaps_list log stats set_log]
    in R1, R2, R4, R5, R7 |- *.
  split; [exact R1|].
  split; [intros x Hx Hp; rewrite R4 in Hp;
          apply elem_of_without_all in Hp as [_ Hp]; exact (Hp Hx)|].
  split; [intros y Hy Hn; rewrite R4; now apply elem_of_without_all|].
  split; [intros y Hy; rewrite R4 in Hy; now apply elem_of_without_all in Hy|].
  split; [exact R2|].
  split; [exact R5|].
  split; [apply new_events_app; now rewrite R7, <- app_assoc|].
  intros k x. apply enrichment_for_fallback.
Qed.

Lemma drain_on_deadline_witness :
  (let W := W_lab (Ok false) ["doc"] in
   let s' := (validation_loop W 2 (Some 1%Q) [0; 1]%nat [0; 1]%nat (seeded W)).2 in
   potential_gaps_db s' = [] /\ length (final_gaps_list s') = 2%nat)
  /\
  (let s' := (validation_loop W_keen 2 (Some 1%Q) [0; 1]%nat [0; 1]%nat
                (seeded W_keen)).2 in
   final_gaps_list s' = [edge_gap; edge_gap]).
Proof.
  cbn zeta. split.
  - destruct (drain_on_deadline (W_lab (Ok false) ["doc"]) 2 1%Q [] 0%nat [1%nat]
                (seeded (W_lab (Ok false) ["doc"])))
      as (_ & H1 & _ & H2 & _ & H3 & _).
    + reflexivity.
    + vm_compute. reflexivity.
    + unfold ids_distinct. apply (bool_decide_unpack _). vm_compute. exact I.
    + unfold ids_distinct. apply (bool_decide_unpack _). vm_compute. exact I.
    + apply Forall_cons; split; [vm_compute; reflexivity|].
      apply Forall_cons; split; [vm_compute; reflexivity | apply Forall_nil_2].
    + apply Forall_cons; split; [vm_compute; apply list_elem_of_here|].
      apply Forall_cons; split; [|apply Forall_nil_2].
      vm_compute. apply list_elem_of_further, list_elem_of_here.
    + cbn [app] in H1, H2, H3. split.
      * destruct (potential_gaps_db _) as [|y l] eqn:E; [reflexivity|].
        exfalso. specialize (H2 y (list_elem_of_here _ _)).
        assert (Hy : y ∈ [0; 1]%nat) by exact H2.
        exact (H1 y Hy (list_elem_of_here _ _)).
      * rewrite H3, length_app, length_imap. vm_compute. reflexivity.
  - destruct (drain_on_deadline W_keen 2 1%Q [] 0%nat [1%nat] (seeded W_keen))
      as (_ & _ & _ & _ & _ & H3 & _).
    + reflexivity.
    + vm_compute. reflexivity.
    + unfold ids_distinct. apply (bool_decide_unpack _). vm_compute. exact I.
    + unfold ids_distinct. apply (bool_decide_unpack _). vm_compute. exact I.
    + apply Forall_cons; split; [vm_compute; reflexivity|].
      apply Forall_cons; split; [vm_compute; reflexivity | apply Forall_nil_2].
    + apply Forall_cons; split; [vm_compute; apply list_elem_of_here|].
      apply Forall_cons; split; [|apply Forall_nil_2].
      vm_compute. apply list_elem_of_further, list_elem_of_here.
    + cbn [app] in H3. rewrite H3. vm_compute. reflexivity.
Defined.

(** ** The branch that skips validation *)

(** C1 fails on the code. A light run whose deadline has passed when
    expansion returns: the driver enriches the pending gaps into the final
    list and leaves them in the pending store, so both gap ids end the run in
    both stores. (The drain and the graduation step remove what they
    enrich.) *)
Theorem timeout_skip_leaves_gaps_in_both_stores :
  let s' := (analyze_research_gaps W_late (request_light "seed" 10) initialize).2 in
  map (fun r => gap_id (heap s' !!! r)) (potential_gaps_db s') = ["3-0000-0"; "4-0000-0"]
  /\ map vg_gap_id (final_gaps_list s') = ["3-0000-0"; "4-0000-0"].
Proof. vm_compute. split; reflexivity. Qed.

(** ** Uniqueness of analyses *)

(** C2 fails as stated: in this run the analyzer is called twice on the same
    reference, whose analysis returns nothing each time. *)
Lemma failed_analysis_is_repeated :
  analyze_calls "doc"
    (log (analyze_research_gaps W_flaky (request_light "seed" 10) initialize).2)
  = 2%nat.
Proof. vm_compute. reflexivity. Qed.

Global Instance benign_preorder : PreOrder benign.
Proof.
  split.
  - intros s. split; [|split; [set_solver|auto]].
    exists []. split; [now rewrite app_nil_r | constructor].
  - intros s1 s2 s3 ((e1 & L1 & F1) & S1 & P1) ((e2 & L2 & F2) & S2 & P2).
    split; [|split; [set_solver|auto]].
    exists (e1 ++ e2). split; [|now apply Forall_app].
    rewrite L2, L1. now rewrite app_assoc.
Qed.

Global Instance keeps_preorder I : PreOrder (keeps I).
Proof. split; unfold keeps; [intros s; auto | intros s1 s2 s3; auto]. Qed.

Lemma no_reanalysis_app l evs :
  no_reanalysis l -> Forall not_analyze evs -> no_reanalysis (l ++ evs).
Proof.
  intros Hl Hevs i j u p r Hij Hi Hj.
  assert (Hjl : (j < length l)%nat).
  { destruct (decide (j < length l)%nat) as [|Hge]; [assumption|exfalso].
    rewrite lookup_app_r in Hj by lia.
    apply list_elem_of_lookup_2 in Hj.
    exact (events_forall _ _ _ Hevs Hj). }
  rewrite lookup_app_l in Hi by lia. rewrite lookup_app_l in Hj by lia.
  exact (Hl i j u p r Hij Hi Hj).
Qed.

Lemma elem_of_app_not_analyze l evs u res :
  Forall not_analyze evs -> EvAnalyze u res ∈ l ++ evs -> EvAnalyze u res ∈ l.
Proof.
  intros Hevs Hin. apply elem_of_app in Hin as [Hin|Hin]; [exact Hin|].
  exfalso. exact (events_forall _ _ _ Hevs Hin).
Qed.

Lemma benign_keeps_expanding s s' : benign s s' -> keeps inv_expanding s s'.
Proof.
  intros ((evs & L & F) & S & P) (H1 & H2 & H3). split; [|split].
  - rewrite L. now apply no_reanalysis_app.
  - intros u p Hin. rewrite L in Hin.
    apply elem_of_app_not_analyze in Hin; [|exact F]. apply S. eauto.
  - intros u p Hin. rewrite L in Hin.
    apply elem_of_app_not_analyze in Hin; [|exact F]. apply P. eauto.
Qed.

Lemma benign_keeps_validating s s' : benign s s' -> keeps inv_validating s s'.
Proof.
  intros ((evs & L & F) & S & P) (H1 & H3). split.
  - rewrite L. now apply no_reanalysis_app.
  - intros u p Hin. rewrite L in Hin.
    apply elem_of_app_not_analyze in Hin; [|exact F]. apply P. eauto.
Qed.

Lemma preserves_weaken {A} (R R' : Orch -> Orch -> Prop) (m : M A) :
  (forall s s', R s s' -> R' s s') -> preserves R m -> preserves R' m.
Proof. intros H Hm s. apply H, Hm. Qed.

(** A state change that touches neither the log nor the analysed documents,
    or only adds to them. *)
Ltac benign_state :=
  split; [exists []; split; [now rewrite app_nil_r | constructor]|];
  split; [cbn; set_solver | cbn; intros; rewrite ?map_app, ?elem_of_app; auto].

Ltac benign_log :=
  split; [eexists [_]; split; [reflexivity | constructor; [|constructor]]
         | split; [cbn; set_solver | cbn; auto]].

(** Discharges the side condition of the rules. *)
Ltac tc := try match goal with |- PreOrder _ => apply _ end.

Ltac intro_value := match goal with |- forall _, _ => intro end.

Ltac benign_step :=
  first
    [ apply preserves_ret; tc | apply preserves_raise; tc
    | apply preserves_get; tc | apply preserves_read_gap; tc
    | apply preserves_try; tc
    | apply preserves_bind; tc; try intro_value
    | apply preserves_modify; tc; intros; benign_state
    | assumption
    | match goal with
      | |- preserves _ (match ?x with _ => _ end) => destruct x
      end ].

Lemma benign_interact {A} (ask : nat -> Res A) (ev : Res A -> Event) :
  (forall r, not_analyze (ev r)) -> preserves benign (interact ask ev).
Proof.
  intros Hev. apply preserves_interact; tc. intros s r.
  benign_log. apply Hev.
Qed.

Section Benign.
Variable W : Collaborators.

Lemma benign_now : preserves benign (now W).
Proof. apply benign_interact. intros [t|]; exact I. Qed.

Lemma benign_fresh_id : preserves benign (fresh_id W).
Proof.
  unfold fresh_id. apply preserves_bind; tc; [|intro; apply preserves_ret; tc].
  apply benign_interact. intros [t|]; exact I.
Qed.

Lemma benign_deadline_passed d : preserves benign (deadline_passed W d).
Proof.
  pose proof benign_now. unfold deadline_passed. repeat benign_step.
Qed.

Lemma benign_extract_statements paper cat l :
  preserves benign (extract_statements W paper cat l).
Proof.
  pose proof benign_fresh_id.
  induction l as [|x l IH]; cbn [extract_statements]; repeat benign_step.
Qed.

Lemma benign_extract_gaps paper : preserves benign (_extract_gaps_from_paper W paper).
Proof.
  pose proof benign_extract_statements. unfold _extract_gaps_from_paper.
  repeat benign_step; auto.
Qed.

Lemma benign_queries g : preserves benign (call_generate_validation_queries W g).
Proof. apply benign_interact. intros r; exact I. Qed.

Lemma benign_search_papers qs n : preserves benign (call_search_papers W qs n).
Proof. apply benign_interact. intros r; exact I. Qed.

Lemma benign_search_validation x :
  preserves benign (call_search_for_gap_validation W x).
Proof. apply benign_interact. intros r; exact I. Qed.

Lemma benign_validate g ps :
  preserves benign (call_validate_gap_against_papers W g ps).
Proof. apply benign_interact. intros r; exact I. Qed.

Lemma benign_enrich_call g : preserves benign (call_enrich_validated_gap W g).
Proof. apply benign_interact. intros r; exact I. Qed.

Lemma benign_gap_solutions g n : preserves benign (_search_for_gap_solutions W g n).
Proof.
  pose proof benign_queries. pose proof benign_search_papers.
  unfold _search_for_gap_solutions. repeat benign_step; auto.
Qed.

Lemma benign_related_research g : preserves benign (_search_for_related_research W g).
Proof.
  pose proof benign_search_papers. unfold _search_for_related_research.
  apply preserves_try; tc; [|apply preserves_ret; tc].
  destruct (model W) as [generate_content|]; [|apply preserves_ret; tc].
  apply preserves_bind; tc.
  - apply benign_interact. intros r; exact I.
  - intros text. repeat benign_step; auto.
Qed.

Lemma benign_enrich_into_final r : preserves benign (enrich_into_final W r).
Proof.
  pose proof benign_enrich_call. unfold enrich_into_final, append_final.
  repeat benign_step; auto.
Qed.

End Benign.

Lemma benign_remove_pending r : preserves benign (remove_pending r).
Proof.
  intros s. unfold remove_pending.
  destruct (py_remove (heap s) r (potential_gaps_db s)); cbn; [benign_state|reflexivity].
Qed.

Lemma benign_remove_pending_if_in r : preserves benign (remove_pending_if_in r).
Proof.
  intros s. unfold remove_pending_if_in.
  destruct (py_in (heap s) r (potential_gaps_db s)); cbn; [|reflexivity].
  pose proof (benign_remove_pending r s) as H.
  destruct (remove_pending r s) as [[[]|] s1]; exact H.
Qed.

Create HintDb orch.

#[global] Hint Resolve benign_now benign_fresh_id benign_deadline_passed
  benign_extract_statements benign_extract_gaps benign_queries
  benign_search_papers benign_search_validation benign_validate
  benign_enrich_call benign_gap_solutions benign_related_research
  benign_enrich_into_final benign_remove_pending benign_remove_pending_if_in
  : orch.

Ltac structural :=
  first
    [ apply preserves_ret; tc | apply preserves_raise; tc
    | apply preserves_get; tc | apply preserves_read_gap; tc
    | apply preserves_try; tc
    | apply preserves_bind; tc; try intro_value
    | match goal with
      | |- preserves _ (match ?x with _ => _ end) => destruct x
      end ].

(** Steps that are benign as a whole, then the structure of the code. *)
Ltac benign_auto :=
  repeat first
    [ solve [auto with orch]
    | structural
    | apply preserves_modify; tc; intros; benign_state ].

Ltac keeps_auto B :=
  repeat first
    [ solve [auto with orch]
    | solve [apply (preserves_weaken benign); [exact B | benign_auto]]
    | structural ].

Lemma no_reanalysis_snoc l u r :
  no_reanalysis l ->
  (forall p, EvAnalyze u (Ok (Some p)) ∉ l) ->
  no_reanalysis (l ++ [EvAnalyze u r]).
Proof.
  intros Hl Hnew i j u' p r' Hij Hi Hj.
  assert (Hjb : (j < length (l ++ [EvAnalyze u r]))%nat)
    by (eapply lookup_lt_Some; eauto).
  rewrite length_app in Hjb. cbn in Hjb.
  rewrite lookup_app_l in Hi by lia.
  destruct (decide (j < length l)%nat) as [Hjl|Hjl].
  - rewrite lookup_app_l in Hj by lia. exact (Hl i j u' p r' Hij Hi Hj).
  - rewrite lookup_app_r in Hj by lia.
    replace (j - length l)%nat with 0%nat in Hj by lia. cbn in Hj.
    injection Hj as -> ->.
    apply (Hnew p). eapply list_elem_of_lookup_2; eauto.
Qed.

Lemma elem_of_snoc_success l u r u' p :
  EvAnalyze u' (Ok (Some p)) ∈ l ++ [EvAnalyze u r] ->
  EvAnalyze u' (Ok (Some p)) ∈ l \/ (u' = u /\ r = Ok (Some p)).
Proof.
  intros Hin. apply elem_of_app in Hin as [Hin|Hin]; [now left|].
  apply list_elem_of_singleton in Hin. injection Hin as -> ->. now right.
Qed.

Section Uniqueness.
Variable W : Collaborators.
Hypothesis faithful : analyzer_faithful W.

Lemma analyze_new_paper_keeps mode u s :
  u ∉ analyzed_papers_set s ->
  inv_expanding s -> inv_expanding (analyze_new_paper W mode u s).2.
Proof.
  intros Hfresh (H1 & H2 & H3).
  assert (Hnew : forall p, EvAnalyze u (Ok (Some p)) ∉ log s).
  { intros p Hin. apply Hfresh. eapply H2; eauto. }
  unfold analyze_new_paper, call_analyze_paper, interact.
  rewrite bind_run. cbn beta iota zeta.
  destruct (analyze_paper W (length (log s)) u) as [[p|]|] eqn:Han.
  - rewrite bind_run. unfold modify at 1. cbn beta iota zeta.
    match goal with |- inv_expanding (?rest ?s2).2 =>
      apply (benign_keeps_expanding s2);
        [ assert (Hb : preserves benign rest) by benign_auto; apply Hb |]
    end.
    split; [|split]; unfold recorded_in_set, recorded_in_list; cbn.
    + apply no_reanalysis_snoc; assumption.
    + intros u' p' Hin. apply elem_of_snoc_success in Hin as [Hin|[-> _]].
      * apply elem_of_union. left. eapply H2; eauto.
      * set_solver.
    + intros u' p' Hin. rewrite map_app. apply elem_of_app.
      apply elem_of_snoc_success in Hin as [Hin|[-> _]].
      * left. eapply H3; eauto.
      * right. cbn. rewrite (faithful _ _ _ Han). apply list_elem_of_here.
  - rewrite ret_run. split; [|split]; unfold recorded_in_set, recorded_in_list; cbn.
    + apply no_reanalysis_snoc; assumption.
    + intros u' p' Hin. apply elem_of_snoc_success in Hin as [Hin|[_ [=]]].
      eapply H2; eauto.
    + intros u' p' Hin. apply elem_of_snoc_success in Hin as [Hin|[_ [=]]].
      eapply H3; eauto.
  - split; [|split]; unfold recorded_in_set, recorded_in_list; cbn.
    + apply no_reanalysis_snoc; assumption.
    + intros u' p' Hin. apply elem_of_snoc_success in Hin as [Hin|[_ [=]]].
      eapply H2; eauto.
    + intros u' p' Hin. apply elem_of_snoc_success in Hin as [Hin|[_ [=]]].
      eapply H3; eauto.
Qed.

Lemma analyze_discovered_keeps mode mp d urls :
  preserves (keeps inv_expanding) (analyze_discovered W mode mp d urls).
Proof.
  induction urls as [|u urls IH]; cbn [analyze_discovered].
  - apply preserves_ret; tc.
  - apply preserves_bind; tc.
    + apply (preserves_weaken benign); [exact benign_keeps_expanding|].
      apply benign_deadline_passed.
    + intros [|]; [apply preserves_ret; tc|].
      intros s Hinv. unfold get. rewrite bind_run. cbn beta iota zeta.
      rewrite bind_run.
      destruct (negb (bool_decide (u ∈ analyzed_papers_set s))
                && (papers_analyzed s <? mp)%Z) eqn:Hg.
      * apply andb_prop in Hg as [Hg _].
        apply negb_true_iff, bool_decide_eq_false in Hg.
        pose proof (analyze_new_paper_keeps mode u s Hg Hinv) as H1.
        destruct (analyze_new_paper W mode u s) as [[[]|] s1];
          cbn [fst snd] in H1 |- *; [apply IH; exact H1 | exact H1].
      * rewrite ret_run. apply IH. exact Hinv.
Qed.

Lemma explore_gap_keeps mode mp d r :
  preserves (keeps inv_expanding) (explore_gap W mode mp d r).
Proof.
  pose proof analyze_discovered_keeps. unfold explore_gap.
  keeps_auto benign_keeps_expanding.
Qed.

Lemma expansion_loop_keeps fuel mode mp lim d n :
  preserves (keeps inv_expanding) (expansion_loop W fuel mode mp lim d n).
Proof.
  pose proof explore_gap_keeps.
  revert n. induction fuel as [|fuel IH]; intros n; cbn [expansion_loop];
    keeps_auto benign_keeps_expanding.
Qed.

Lemma phase_2_keeps mp mode d :
  preserves (keeps inv_expanding) (_phase_2_expanding_frontier W mp mode d).
Proof.
  pose proof expansion_loop_keeps. unfold _phase_2_expanding_frontier.
  keeps_auto benign_keeps_expanding.
Qed.

End Uniqueness.

Section Uniqueness_validation.
Variable W : Collaborators.
Hypothesis faithful : analyzer_faithful W.

Lemma benign_judge_gap r ps : preserves benign (judge_gap W r ps).
Proof. unfold judge_gap. benign_auto. Qed.

Lemma benign_strike_and_graduate th r : preserves benign (strike_and_graduate W th r).
Proof. unfold strike_and_graduate. benign_auto. Qed.

Lemma benign_drain th rem : preserves benign (drain W th rem).
Proof. induction rem as [|x rem IH]; cbn [drain]; benign_auto. Qed.

Lemma benign_enrich_all gaps : preserves benign (enrich_all W gaps).
Proof. induction gaps as [|x gaps IH]; cbn [enrich_all]; benign_auto. Qed.

Lemma benign_phase_4 rid seed start :
  preserves benign (_phase_4_synthesis W rid seed start).
Proof. unfold _phase_4_synthesis. benign_auto. Qed.

Lemma analyze_validation_papers_keeps urls acc :
  preserves (keeps inv_validating) (analyze_validation_papers W urls acc).
Proof.
  revert acc. induction urls as [|u urls IH]; intros acc;
    cbn [analyze_validation_papers]; [apply preserves_ret; tc|].
  intros s (H1 & H3). unfold get. rewrite bind_run. cbn beta iota zeta.
  destruct (bool_decide (u ∈ map url (analyzed_papers s))) eqn:Hg.
  { apply IH. now split. }
  apply bool_decide_eq_false in Hg.
  assert (Hnew : forall p, EvAnalyze u (Ok (Some p)) ∉ log s).
  { intros p Hin. apply Hg. eapply H3; eauto. }
  unfold call_analyze_paper, interact. rewrite bind_run. cbn beta iota zeta.
  destruct (analyze_paper W (length (log s)) u) as [[p|]|] eqn:Han.
  - rewrite bind_run. unfold modify. cbn beta iota zeta. apply IH.
    split; unfold recorded_in_list; cbn.
    + apply no_reanalysis_snoc; assumption.
    + intros u' p' Hin. rewrite map_app. apply elem_of_app.
      apply elem_of_snoc_success in Hin as [Hin|[-> _]].
      * left. eapply H3; eauto.
      * right. cbn. rewrite (faithful _ _ _ Han). apply list_elem_of_here.
  - apply IH. split; unfold recorded_in_list; cbn.
    + apply no_reanalysis_snoc; assumption.
    + intros u' p' Hin. apply elem_of_snoc_success in Hin as [Hin|[_ [=]]].
      eapply H3; eauto.
  - split; unfold recorded_in_list; cbn.
    + apply no_reanalysis_snoc; assumption.
    + intros u' p' Hin. apply elem_of_snoc_success in Hin as [Hin|[_ [=]]].
      eapply H3; eauto.
Qed.

Lemma find_validation_papers_keeps d r :
  preserves (keeps inv_validating) (find_validation_papers W d r).
Proof.
  pose proof analyze_validation_papers_keeps. unfold find_validation_papers.
  keeps_auto benign_keeps_validating.
Qed.

Lemma validate_gap_keeps th d r :
  preserves (keeps inv_validating) (validate_gap W th d r).
Proof.
  pose proof find_validation_papers_keeps. pose proof benign_judge_gap.
  pose proof benign_strike_and_graduate. unfold validate_gap.
  keeps_auto benign_keeps_validating.
Qed.

Lemma validation_loop_keeps th d gtv todo :
  preserves (keeps inv_validating) (validation_loop W th d gtv todo).
Proof.
  pose proof validate_gap_keeps. pose proof benign_drain.
  induction todo as [|r todo IH]; cbn [validation_loop];
    keeps_auto benign_keeps_validating.
Qed.

Lemma phase_3_keeps th d :
  preserves (keeps inv_validating) (_phase_3_final_validation W th d).
Proof.
  pose proof validation_loop_keeps. unfold _phase_3_final_validation.
  keeps_auto benign_keeps_validating.
Qed.

(** Seeding starts the records afresh: it needs a log without analyses. *)
Lemma phase_1_establishes seed s :
  Forall not_analyze (log s) ->
  inv_expanding (_phase_1_seeding W seed s).2.
Proof.
  intros Hlog.
  assert (Hnone : forall u r, EvAnalyze u r ∉ log s).
  { intros u r Hin. exact (events_forall _ _ _ Hlog Hin). }
  assert (Hnr : forall r, no_reanalysis (log s ++ [EvAnalyze seed r])).
  { intros r. apply no_reanalysis_snoc; [|intros p; apply Hnone].
    intros i j u p r' _ Hi _. apply list_elem_of_lookup_2 in Hi.
    exact (Hnone _ _ Hi). }
  unfold _phase_1_seeding, call_analyze_paper, interact.
  rewrite bind_run. cbn beta iota zeta.
  destruct (analyze_paper W (length (log s)) seed) as [[p|]|] eqn:Han.
  - rewrite bind_run. unfold modify at 1. cbn beta iota zeta.
    match goal with |- inv_expanding (?rest ?s2).2 =>
      apply (benign_keeps_expanding s2);
        [ assert (Hb : preserves benign rest) by benign_auto; apply Hb |]
    end.
    split; [|split]; unfold recorded_in_set, recorded_in_list; cbn.
    + apply Hnr.
    + intros u' p' Hin. apply elem_of_snoc_success in Hin as [Hin|[-> _]].
      * exfalso. exact (Hnone _ _ Hin).
      * set_solver.
    + intros u' p' Hin. apply elem_of_snoc_success in Hin as [Hin|[-> _]].
      * exfalso. exact (Hnone _ _ Hin).
      * rewrite (faithful _ _ _ Han). apply list_elem_of_here.
  - split; [|split]; unfold recorded_in_set, recorded_in_list; cbn.
    + apply Hnr.
    + intros u' p' Hin. apply elem_of_snoc_success in Hin as [Hin|[_ [=]]].
      exfalso. exact (Hnone _ _ Hin).
    + intros u' p' Hin. apply elem_of_snoc_success in Hin as [Hin|[_ [=]]].
      exfalso. exact (Hnone _ _ Hin).
  - split; [|split]; unfold recorded_in_set, recorded_in_list; cbn.
    + apply Hnr.
    + intros u' p' Hin. apply elem_of_snoc_success in Hin as [Hin|[_ [=]]].
      exfalso. exact (Hnone _ _ Hin).
    + intros u' p' Hin. apply elem_of_snoc_success in Hin as [Hin|[_ [=]]].
      exfalso. exact (Hnone _ _ Hin).
Qed.

End Uniqueness_validation.

Lemma try_except_establishes {A} (I : Orch -> Prop) (m h : M A) s :
  I (m s).2 -> preserves (keeps I) h -> I (try_except m h s).2.
Proof.
  intros Hm Hh. unfold try_except.
  destruct (m s) as [[a|] s1]; cbn in *; [exact Hm | now apply Hh].
Qed.

Lemma bind_establishes {A B} (I1 I2 : Orch -> Prop) (m : M A) (k : A -> M B) s :
  I1 (m s).2 -> (forall s', I1 s' -> I2 s') ->
  (forall a s', I1 s' -> I2 (k a s').2) ->
  I2 ((m ≫= k) s).2.
Proof.
  intros Hm Hw Hk. rewrite bind_run.
  destruct (m s) as [[a|] s1]; cbn in *; [now apply Hk | now apply Hw].
Qed.

Lemma benign_keeps_quiet_log s s' :
  benign s s' -> Forall not_analyze (log s) -> Forall not_analyze (log s').
Proof.
  intros ((evs & L & F) & _) H. rewrite L. now apply Forall_app.
Qed.

Lemma inv_expanding_validating s : inv_expanding s -> inv_validating s.
Proof. intros (H1 & _ & H3). now split. Qed.

(** C2, as the code has it. In a run that starts with no analysis in its
    log (as after [initialize]), and with an analyzer that returns documents
    under the reference it was asked for, no reference is passed to the
    analyzer again once an analysis of it has succeeded. (An analysis that
    returned nothing or raised leaves no record, and may be repeated.) *)
Theorem successful_analysis_not_repeated W request s :
  analyzer_faithful W ->
  Forall not_analyze (log s) ->
  no_reanalysis (log (analyze_research_gaps W request s).2).
Proof.
  intros Hf Hlog. unfold analyze_research_gaps.
  rewrite bind_run.
  pose proof (benign_fresh_id W s) as B1.
  destruct (fresh_id W s) as [[rid|] s1]; cbn [fst snd] in *.
  2:{ apply (benign_keeps_quiet_log _ _ B1) in Hlog.
      intros i j u p r _ Hi _. apply list_elem_of_lookup_2 in Hi.
      exact (events_forall _ _ _ Hlog Hi). }
  rewrite bind_run.
  pose proof (benign_now W s1) as B2.
  assert (Hlog2 : Forall not_analyze (log (now W s1).2)).
  { eapply benign_keeps_quiet_log; [exact B2|].
    eapply benign_keeps_quiet_log; eauto. }
  destruct (now W s1) as [[start|] s2]; cbn [fst snd] in *.
  2:{ intros i j u p r _ Hi _. apply list_elem_of_lookup_2 in Hi.
      exact (events_forall _ _ _ Hlog2 Hi). }
  cbn zeta.
  assert (Hgoal : forall (m h : M GapAnalysisResponse),
            inv_validating (m s2).2 -> preserves benign h ->
            no_reanalysis (log (try_except m h s2).2)).
  { intros m h Hm Hh.
    apply (try_except_establishes inv_validating m h s2 Hm).
    apply (preserves_weaken benign); [exact benign_keeps_validating | exact Hh]. }
  apply Hgoal; [|pose proof (benign_now W); benign_auto].
  eapply (bind_establishes inv_expanding inv_validating).
  - apply phase_1_establishes; assumption.
  - apply inv_expanding_validating.
  - intros _ s3 H3. destruct (mode_parameters request) as [mp th0].
    eapply (bind_establishes inv_expanding inv_validating).
    + apply phase_2_keeps; assumption.
    + apply inv_expanding_validating.
    + intros _ s4 H4. apply inv_expanding_validating in H4. revert s4 H4.
      pose proof (phase_3_keeps W Hf). pose proof (benign_enrich_all W).
      pose proof (benign_phase_4 W).
      match goal with |- forall s4, _ -> inv_validating (?tail s4).2 =>
        assert (Ht : preserves (keeps inv_validating) tail)
          by keeps_auto benign_keeps_validating
      end.
      exact Ht.
Qed.

Lemma successful_analysis_not_repeated_witness :
  no_reanalysis
    (log (analyze_research_gaps (W_lab (Ok false) ["doc"; "doc"])
            (request_light "seed" 10) initialize).2).
Proof.
  apply successful_analysis_not_repeated.
  - intros i u p H. cbn in H. injection H as <-. reflexivity.
  - constructor.
Defined.

(** ** Light mode *)

Ltac quiet_state :=
  split; [exists []; split; [now rewrite app_nil_r | constructor] | repeat split].

Ltac quiet_auto :=
  repeat first
    [ solve [auto with orch]
    | structural
    | apply preserves_modify; tc; intros; quiet_state
    | apply preserves_interact; tc; intros ? [?|]; apply quiet_log_event;
      first [exact I | reflexivity] ].

Section Light.
Variable W : Collaborators.
Variable mode : string.
Hypothesis light : is_light mode = true.

Lemma light_deadline_passed d : preserves (quiet light_event) (deadline_passed W d).
Proof. unfold deadline_passed, now. quiet_auto. Qed.







End Light.


(** When its condition fails, the loop ends without touching the state. *)
Lemma expansion_loop_stops W fuel mode mp lim d n s :
  gap_search_queue s = [] \/ mp <= papers_analyzed s \/ lim <= n ->
  expansion_loop W fuel mode mp lim d n s = (Ok tt, s).
Proof.
  intros H. destruct fuel; cbn [expansion_loop]; unfold get; rewrite bind_run;
    cbn beta iota zeta.
  all: destruct (gap_search_queue s) as [|r rest]; [reflexivity|].
  all: destruct (Z.ltb_spec (papers_analyzed s) mp); [|reflexivity].
  all: destruct (Z.ltb_spec n lim); [|reflexivity].
  all: exfalso; destruct H as [H|[H|H]]; [discriminate|lia|lia].
Qed.


(** ** Synthesis *)

(** [synthesize] reads the counters, the final list, the number of analysed
    papers and the number of explored areas, and nothing else of the state. *)
Lemma synthesize_ext order1 order2 s1 s2 rid seed start pt :
  stats s1 = stats s2 ->
  final_gaps_list s1 = final_gaps_list s2 ->
  length (analyzed_papers s1) = length (analyzed_papers s2) ->
  size (research_frontier s1) = size (research_frontier s2) ->
  (forall l, order1 l = order2 l) ->
  synthesize order1 s1 rid seed start pt = synthesize order2 s2 rid seed start pt.
Proof.
  intros Hst Hfin Hpap Hfr Hord. unfold synthesize, llen.
  rewrite Hst, Hfin, Hpap, Hfr, Hord. reflexivity.
Qed.

(** C4, as the code has it. Synthesis makes exactly one interaction, a clock
    reading, and changes nothing else; its outcome is the same for any two
    states and environments that agree on the counters, the final list, the
    number of analysed papers, the number of explored areas, the iteration
    order of sets and that clock reading. *)
Theorem synthesis_determined_by_its_inputs W1 W2 s1 s2 rid seed start :
  stats s1 = stats s2 ->
  final_gaps_list s1 = final_gaps_list s2 ->
  length (analyzed_papers s1) = length (analyzed_papers s2) ->
  size (research_frontier s1) = size (research_frontier s2) ->
  (forall l, set_order W1 l = set_order W2 l) ->
  time_time W1 (length (log s1)) = time_time W2 (length (log s2)) ->
  let out1 := _phase_4_synthesis W1 rid seed start s1 in
  let out2 := _phase_4_synthesis W2 rid seed start s2 in
  out1.1 = out2.1
  /\ out1.2 = set_log (fun l => l ++ [EvClock (time_time W1 (length (log s1)))]) s1
  /\ out2.2 = set_log (fun l => l ++ [EvClock (time_time W2 (length (log s2)))]) s2.
Proof.
  intros Hst Hfin Hpap Hfr Hord Ht out1 out2. subst out1 out2.
  unfold _phase_4_synthesis, now, interact, get. rewrite !bind_run.
  cbn beta iota zeta. rewrite ?bind_run. cbn beta iota zeta.
  rewrite <- Ht.
  rewrite (synthesize_ext (set_order W1) (set_order W2)
             (set_log (fun l => l ++ [EvClock (time_time W1 (length (log s1)))]) s1)
             (set_log (fun l => l ++ [EvClock (time_time W1 (length (log s1)))]) s2))
    by assumption.
  destruct (synthesize (set_order W2) _ rid seed start _); repeat split.
Qed.

Lemma synthesis_determined_by_its_inputs_witness :
  (_phase_4_synthesis (W_lab (Ok false) []) "r" "seed" 0
     (seeded (W_lab (Ok false) []))).1
  = (_phase_4_synthesis (W_lab (Ok true) ["doc"]) "r" "seed" 0
       (seeded (W_lab (Ok false) []))).1.
Proof.
  apply (synthesis_determined_by_its_inputs (W_lab (Ok false) [])
           (W_lab (Ok true) ["doc"])); reflexivity.
Defined.

(** C4, as stated, fails: on one and the same state, hence with identical
    counters and final list, two clocks give two different responses; the
    elapsed time they report is 3 seconds under one and 300 under the
    other. *)
Lemma synthesis_reads_the_clock :
  let s := seeded (W_lab (Ok false) []) in
  (_phase_4_synthesis (W_lab (Ok false) []) "r" "seed" 0 s).1
  <> (_phase_4_synthesis W_late "r" "seed" 0 s).1.
Proof.
  cbn zeta. intros H.
  assert (E1 : Qeq_bool
                 (elapsed_of (_phase_4_synthesis (W_lab (Ok false) []) "r" "seed" 0
                                (seeded (W_lab (Ok false) []))).1) 3 = true)
    by (vm_compute; reflexivity).
  assert (E2 : Qeq_bool
                 (elapsed_of (_phase_4_synthesis W_late "r" "seed" 0
                                (seeded (W_lab (Ok false) []))).1) 3 = false)
    by (vm_compute; reflexivity).
  rewrite H in E1. congruence.
Qed.

(** ** Every visit of the validation loop finds its gap ready *)

Lemma ready_at_start th s :
  ids_distinct (heap s) (potential_gaps_db s) ->
  Forall (fun r => (r < length (heap s))%nat) (potential_gaps_db s) ->
  let gtv := List.filter
               (fun r => (validation_strikes (heap s !!! r) <? th)%Z)
               (potential_gaps_db s) in
  ready th gtv s gtv.
Proof.
  intros Hids Hlive gtv.
  assert (Hsub : forall l, NoDup (map (fun x => gap_id (heap s !!! x)) l) ->
            NoDup (map (fun x => gap_id (heap s !!! x))
                     (List.filter
                        (fun r => (validation_strikes (heap s !!! r) <? th)%Z) l))).
  { induction l as [|a l IH]; intros H; [exact H|].
    cbn in H. apply NoDup_cons in H as [Hna Hnd]. cbn.
    destruct (validation_strikes (heap s !!! a) <? th)%Z; [|now apply IH].
    cbn. apply NoDup_cons. split; [|now apply IH].
    intros Hin. apply Hna.
    apply list_elem_of_fmap in Hin as (y & Hy & Hin).
    apply list_elem_of_In, filter_In in Hin as [Hin _].
    rewrite Hy. apply (list_elem_of_fmap_2 (fun x => gap_id (heap s !!! x))).
    now apply list_elem_of_In. }
  assert (Hgtv : ids_distinct (heap s) gtv) by (apply Hsub; exact Hids).
  split; [eapply NoDup_fmap_1; exact Hgtv|].
  split; [exact Hgtv|]. split; [exact Hids|].
  apply Forall_forall. intros r Hr.
  apply list_elem_of_In, filter_In in Hr as [Hr Hlt].
  apply list_elem_of_In in Hr. repeat split.
  - exact Hr.
  - eapply Forall_forall in Hlive; eauto.
  - now apply Z.ltb_lt.
Qed.

Lemma validate_gap_footprint W th d r s :
  (r < length (heap s))%nat ->
  r ∈ potential_gaps_db s ->
  ids_distinct (heap s) (potential_gaps_db s) ->
  let s' := (try_except (validate_gap W th d r) (mret tt) s).2 in
  (heap s' = heap s \/ heap s' = alter strike r (heap s))
  /\ (potential_gaps_db s' = potential_gaps_db s
      \/ potential_gaps_db s' = without r (potential_gaps_db s)).
Proof.
  intros Hr Hin Hids s'.
  assert (Hs' : s' = (validate_gap W th d r s).2).
  { subst s'. unfold try_except.
    destruct (validate_gap W th d r s) as [[[]|] s1]; reflexivity. }
  rewrite Hs'. clear Hs' s'.
  destruct (validate_gap_cases W th d r s Hr Hin Hids) as (evs1 & _ & Hc).
  destruct Hc as [(_ & _ & _ & A & B & _) | [(ps & _ & _ & _ & A & B & _) | Hc]].
  - split; now left.
  - split; [now left | now right].
  - destruct Hc as (vevs & _ & _ & A & _ & _ & Hg). split; [now right|].
    destruct (th <=? validation_strikes (heap s !!! r) + 1)%Z.
    + destruct Hg as (eres & v & _ & _ & _ & B). now right.
    + destruct Hg as (_ & _ & B). now left.
Qed.

Lemma ready_after_iteration W th d gtv r todo s :
  ready th gtv s (r :: todo) ->
  ready th gtv (try_except (validate_gap W th d r) (mret tt) s).2 todo.
Proof.
  intros (Hnd & Hgtv & Hids & Hall).
  apply NoDup_cons in Hnd as [Hr Hnd].
  apply Forall_cons in Hall as [(Hin & Hlive & _) Hall].
  destruct (validate_gap_footprint W th d r s Hlive Hin Hids) as [Hh Hp].
  set (s' := (try_except (validate_gap W th d r) (mret tt) s).2) in *.
  assert (Hid : forall l, ids_distinct (heap s) l -> ids_distinct (heap s') l).
  { intros l Hl. destruct Hh as [-> | ->]; [exact Hl|].
    now apply strike_keeps_ids_distinct. }
  split; [exact Hnd|]. split; [now apply Hid|]. split.
  - destruct Hp as [-> | ->]; [now apply Hid|].
    apply Hid. now apply ids_distinct_without.
  - apply Forall_forall. intros x Hx.
    pose proof Hx as Hx'. eapply Forall_forall in Hx'; [|exact Hall].
    destruct Hx' as (Hxin & Hxl & Hxs).
    assert (Hne : x <> r) by (intros ->; contradiction).
    repeat split.
    + destruct Hp as [-> | ->]; [exact Hxin|]. now apply elem_of_without.
    + destruct Hh as [-> | ->]; [exact Hxl|]. now rewrite length_alter.
    + destruct Hh as [-> | ->]; [exact Hxs|]. now rewrite strike_elsewhere.
Qed.

Lemma ready_after_deadline_check W th d gtv todo s :
  ready th gtv s todo -> ready th gtv (deadline_passed W d s).2 todo.
Proof.
  intros H.
  destruct (light_deadline_passed W d s) as (_ & A & B & _).
  unfold ready. rewrite A, B. exact H.
Qed.

(** At every visit the gap is pending under a unique id, live and below the
    threshold: the validation-step statements apply to it. *)
Lemma validation_loop_visits_ready W th d gtv todo s r s1 rest :
  ready th gtv s todo ->
  visits W th d todo s r s1 rest ->
  ready th gtv s1 (r :: rest).
Proof.
  intros Hready Hv. induction Hv as [r todo s s1 Hd | r todo s s1 r' s' rest Hd Hv IH].
  - pose proof (ready_after_deadline_check W th d gtv (r :: todo) s Hready) as H.
    now rewrite Hd in H.
  - apply IH. apply ready_after_iteration.
    pose proof (ready_after_deadline_check W th d gtv (r :: todo) s Hready) as H.
    now rewrite Hd in H.
Qed.

(** In particular, when the deadline check fires instead, the drain finds
    what it relies on. *)
Lemma ready_gives_drain_conditions th pre r todo s :
  ready th (pre ++ r :: todo) s (r :: todo) ->
  ids_distinct (heap s) (pre ++ r :: todo)
  /\ ids_distinct (heap s) (potential_gaps_db s)
  /\ Forall (fun x => validation_strikes (heap s !!! x) < th) (r :: todo)
  /\ Forall (fun x => x ∈ potential_gaps_db s) (r :: todo).
Proof.
  intros (_ & Hgtv & Hids & Hall). repeat split; try assumption.
  - eapply Forall_impl; [exact Hall|]. now intros x (_ & _ & H).
  - eapply Forall_impl; [exact Hall|]. now intros x (H & _).
Qed.

(** * Further properties of the code *)

(** ** What can raise, and what cannot *)

Lemma no_raise_ret {A} (a : A) : no_raise (mret a : M A).
Proof. intros s. cbn. discriminate. Qed.

Lemma no_raise_bind {A B} (m : M A) (k : A -> M B) :
  no_raise m -> (forall a, no_raise (k a)) -> no_raise (m ≫= k).
Proof.
  intros Hm Hk s. rewrite bind_run. specialize (Hm s).
  destruct (m s) as [[a|] s1]; cbn in *; [apply Hk | congruence].
Qed.

Lemma no_raise_try {A} (m h : M A) : no_raise h -> no_raise (try_except m h).
Proof.
  intros Hh s. unfold try_except.
  destruct (m s) as [[a|] s1]; cbn; [discriminate | apply Hh].
Qed.

Lemma no_raise_modify f : no_raise (modify f).
Proof. intros s. cbn. discriminate. Qed.

Lemma no_raise_get : no_raise get.
Proof. intros s. cbn. discriminate. Qed.

Lemma no_raise_read_gap r : no_raise (read_gap r).
Proof. intros s. cbn. discriminate. Qed.

Lemma no_raise_now W : no_raise (now W).
Proof. intros s. cbn. discriminate. Qed.

Lemma no_raise_fresh_id W : no_raise (fresh_id W).
Proof. intros s. cbn. discriminate. Qed.

Lemma no_raise_deadline_passed W d : no_raise (deadline_passed W d).
Proof.
  intros s. unfold deadline_passed. destruct d as [d|]; [|cbn; discriminate].
  destruct (Py.truthy d); cbn; discriminate.
Qed.

Lemma no_raise_enrich_into_final W r : no_raise (enrich_into_final W r).
Proof. intros s. rewrite enrich_into_final_run. cbn. discriminate. Qed.

(** [gap in l] makes [l.remove(gap)] succeed, and an element of [l] has an
    index in it. *)
Lemma py_in_remove h r l : py_in h r l = true -> is_Some (py_remove h r l).
Proof.
  unfold py_in. induction l as [|x l IH]; cbn; [discriminate|].
  destruct (gap_eqb h x r); cbn; [eauto|].
  intros H. destruct (IH H) as [l' ->]. cbn. eauto.
Qed.

Lemma py_index_elem h r l : r ∈ l -> is_Some (py_index h r l).
Proof.
  induction l as [|x l IH]; intros Hr; [inversion Hr|]. cbn.
  destruct (gap_eqb h x r) eqn:E; [eauto|].
  apply elem_of_cons in Hr as [->|Hr]; [rewrite gap_eqb_refl in E; discriminate|].
  destruct (IH Hr) as [i ->]. cbn. eauto.
Qed.

Lemma no_raise_remove_pending_if_in r : no_raise (remove_pending_if_in r).
Proof.
  intros s. unfold remove_pending_if_in, remove_pending.
  destruct (py_in (heap s) r (potential_gaps_db s)) eqn:E; [|cbn; discriminate].
  destruct (py_in_remove _ _ _ E) as [l ->]. cbn. discriminate.
Qed.

Ltac no_raise_auto :=
  repeat first
    [ assumption
    | apply no_raise_ret | apply no_raise_modify | apply no_raise_get
    | apply no_raise_read_gap | apply no_raise_now | apply no_raise_fresh_id
    | apply no_raise_deadline_passed | apply no_raise_enrich_into_final
    | apply no_raise_remove_pending_if_in
    | apply no_raise_try
    | apply no_raise_bind; [|intro_value]
    | match goal with
      | |- no_raise (if ?b then _ else _) => destruct b
      | |- no_raise (match ?x with _ => _ end) => destruct x
      end ].

Lemma no_raise_drain W th rem : no_raise (drain W th rem).
Proof. induction rem as [|r rem IH]; cbn [drain]; no_raise_auto. Qed.

Lemma no_raise_validation_loop W th d gtv todo :
  todo ⊆ gtv -> no_raise (validation_loop W th d gtv todo).
Proof.
  pose proof (no_raise_drain W) as Hd.
  induction todo as [|r todo IH]; intros Hsub; cbn [validation_loop].
  - apply no_raise_ret.
  - assert (Hr : r ∈ gtv) by (apply Hsub, list_elem_of_here).
    assert (Ht : no_raise (validation_loop W th d gtv todo)).
    { apply IH. intros x Hx. apply Hsub. now apply list_elem_of_further. }
    apply no_raise_bind; [apply no_raise_deadline_passed|].
    intros [|]; [|no_raise_auto].
    intros s. unfold get. rewrite bind_run. cbn beta iota zeta.
    destruct (py_index_elem (heap s) r gtv Hr) as [i ->]. apply Hd.
Qed.

Lemma no_raise_expansion_loop W fuel mode mp lim d n :
  no_raise (expansion_loop W fuel mode mp lim d n).
Proof.
  revert n. induction fuel as [|fuel IH]; intros n; cbn [expansion_loop].
  - apply no_raise_bind; [apply no_raise_get|]. intros s.
    destruct (gap_search_queue s); [apply no_raise_ret|].
    destruct (_ && _); apply no_raise_ret.
  - apply no_raise_bind; [apply no_raise_get|]. intros s.
    destruct (gap_search_queue s); [apply no_raise_ret|].
    destruct (_ && _); [|apply no_raise_ret].
    pose proof (IH (n + 1)). no_raise_auto.
Qed.

Lemma no_raise_phase_2 W mp mode d :
  no_raise (_phase_2_expanding_frontier W mp mode d).
Proof.
  unfold _phase_2_expanding_frontier.
  apply no_raise_bind; [no_raise_auto|]. intros mp'.
  apply no_raise_bind; [no_raise_auto|]. intros _.
  apply no_raise_expansion_loop.
Qed.

Lemma no_raise_phase_3 W th d : no_raise (_phase_3_final_validation W th d).
Proof.
  unfold _phase_3_final_validation.
  apply no_raise_bind; [apply no_raise_get|]. intros s0.
  apply no_raise_validation_loop. reflexivity.
Qed.

Lemma no_raise_enrich_all W gaps : no_raise (enrich_all W gaps).
Proof. induction gaps as [|r gaps IH]; cbn [enrich_all]; no_raise_auto. Qed.

Lemma no_raise_unit (m : M unit) s : no_raise m -> (m s).1 = Ok tt.
Proof.
  intros H. specialize (H s). destruct (m s) as [[[]|] s1]; cbn in *; congruence.
Qed.

(** X1. Expansion never raises: whatever the query generator, the search, the
    model or the analyzer do, every failure is absorbed gap by gap. *)
Theorem expansion_never_raises W max_papers analysis_mode timeout_deadline s :
  (_phase_2_expanding_frontier W max_papers analysis_mode timeout_deadline s).1
  = Ok tt.
Proof. apply no_raise_unit, no_raise_phase_2. Qed.

(** X2. Validation never raises either: a failure while a gap is validated is
    absorbed, the drain's enrichment falls back on the quick one, a gap is
    removed from the pending store only when found there, and the gap at
    which the deadline strikes always has an index among the gaps to
    validate. *)
Theorem validation_never_raises W validation_threshold timeout_deadline s :
  (_phase_3_final_validation W validation_threshold timeout_deadline s).1 = Ok tt.
Proof. apply no_raise_unit, no_raise_phase_3. Qed.

(** ** What a run only adds to *)

Lemma same_but_strikes_refl g : same_but_strikes g g.
Proof. repeat split; reflexivity. Qed.

Lemma same_but_strikes_trans g1 g2 g3 :
  same_but_strikes g1 g2 -> same_but_strikes g2 g3 -> same_but_strikes g1 g3.
Proof.
  intros (A1 & B1 & C1 & D1 & E1 & F1) (A2 & B2 & C2 & D2 & E2 & F2).
  repeat split; try congruence. lia.
Qed.

Lemma heap_grows_refl h : heap_grows h h.
Proof. split; [lia|]. intros. apply same_but_strikes_refl. Qed.

Lemma heap_grows_trans h1 h2 h3 :
  heap_grows h1 h2 -> heap_grows h2 h3 -> heap_grows h1 h3.
Proof.
  intros [L1 H1] [L2 H2]. split; [lia|]. intros r Hr.
  eapply same_but_strikes_trans; [apply H1; lia | apply H2; lia].
Qed.

Lemma heap_grows_app h news : heap_grows h (h ++ news).
Proof.
  split; [rewrite length_app; lia|]. intros r Hr.
  rewrite lookup_total_app_l by exact Hr. apply same_but_strikes_refl.
Qed.

Lemma heap_grows_strike h x : heap_grows h (alter strike x h).
Proof.
  split; [rewrite length_alter; lia|]. intros r Hr.
  destruct (decide (r = x)) as [->|Hne].
  - rewrite strike_at by exact Hr. repeat split. cbn. lia.
  - rewrite strike_elsewhere by exact Hne. apply same_but_strikes_refl.
Qed.

Lemma stats_le_refl t : stats_le t t.
Proof. repeat split; lia. Qed.

Global Instance grows_preorder : PreOrder grows.
Proof.
  split.
  - intros s. split; [reflexivity|]. split; [reflexivity|].
    split; [apply heap_grows_refl|]. split; [apply stats_le_refl | reflexivity].
  - intros s1 s2 s3 (A1 & B1 & C1 & D1 & E1) (A2 & B2 & C2 & D2 & E2).
    split; [etransitivity; eauto|]. split; [etransitivity; eauto|].
    split; [eapply heap_grows_trans; eauto|].
    split; [|set_solver].
    destruct D1 as (?&?&?&?&?&?), D2 as (?&?&?&?&?&?). repeat split; lia.
Qed.

(** A state change under which the state grows. *)
Ltac grows_state :=
  unfold grows; cbn;
  split; [first [reflexivity | apply prefix_app_r; reflexivity]|];
  split; [first [reflexivity | apply prefix_app_r; reflexivity]|];
  split; [first [apply heap_grows_refl | apply heap_grows_app
                | apply heap_grows_strike]|];
  split; [unfold stats_le; cbn; repeat split; lia | set_solver].

Ltac unfold_steps :=
  progress unfold now, fresh_id, deadline_passed, _extract_gaps_from_paper,
    call_analyze_paper, call_generate_validation_queries, call_search_papers,
    call_search_for_gap_validation, call_validate_gap_against_papers,
    call_enrich_validated_gap, _search_for_gap_solutions,
    _search_for_related_research, append_final, enrich_into_final,
    _phase_1_seeding, analyze_new_paper, explore_gap,
    _phase_2_expanding_frontier, judge_gap, strike_and_graduate,
    find_validation_papers, validate_gap, _phase_3_final_validation,
    _phase_4_synthesis, analyze_research_gaps, _discover_related_papers,
    _validate_gaps_against_paper, call_analyze_paper_text, seed_from_text,
    analyze_research_gaps_from_text.

Ltac grows_auto :=
  repeat first
    [ solve [auto 1]
    | structural
    | apply preserves_modify; tc; intros; grows_state
    | apply preserves_interact; tc; intros; grows_state
    | unfold_steps ].

Lemma grows_remove_pending r : preserves grows (remove_pending r).
Proof.
  intros s. unfold remove_pending.
  destruct (py_remove (heap s) r (potential_gaps_db s)); cbn; [grows_state|reflexivity].
Qed.

Lemma grows_remove_pending_if_in r : preserves grows (remove_pending_if_in r).
Proof.
  intros s. unfold remove_pending_if_in.
  destruct (py_in (heap s) r (potential_gaps_db s)); cbn; [|reflexivity].
  pose proof (grows_remove_pending r s) as H.
  destruct (remove_pending r s) as [[[]|] s1]; exact H.
Qed.

Section Grows.
Variable W : Collaborators.

Lemma grows_extract_statements paper cat l :
  preserves grows (extract_statements W paper cat l).
Proof. induction l as [|x l IH]; cbn [extract_statements]; grows_auto. Qed.

Lemma grows_analyze_discovered mode mp d urls :
  preserves grows (analyze_discovered W mode mp d urls).
Proof.
  pose proof grows_extract_statements.
  induction urls as [|u urls IH]; cbn [analyze_discovered]; grows_auto.
Qed.

Lemma grows_expansion_loop fuel mode mp lim d n :
  preserves grows (expansion_loop W fuel mode mp lim d n).
Proof.
  pose proof grows_extract_statements. pose proof grows_analyze_discovered.
  revert n. induction fuel as [|fuel IH]; intros n; cbn [expansion_loop];
    grows_auto.
Qed.

Lemma grows_drain th rem : preserves grows (drain W th rem).
Proof.
  pose proof grows_remove_pending_if_in.
  induction rem as [|r rem IH]; cbn [drain]; grows_auto.
Qed.

Lemma grows_analyze_validation_papers urls acc :
  preserves grows (analyze_validation_papers W urls acc).
Proof.
  revert acc. induction urls as [|u urls IH]; intros acc;
    cbn [analyze_validation_papers]; grows_auto.
Qed.

Lemma grows_validation_loop th d gtv todo :
  preserves grows (validation_loop W th d gtv todo).
Proof.
  pose proof grows_remove_pending. pose proof grows_remove_pending_if_in.
  pose proof grows_drain. pose proof grows_analyze_validation_papers.
  induction todo as [|r todo IH]; cbn [validation_loop]; grows_auto.
Qed.

Lemma grows_enrich_all gaps : preserves grows (enrich_all W gaps).
Proof. induction gaps as [|r gaps IH]; cbn [enrich_all]; grows_auto. Qed.

Lemma grows_phase_2 mp mode d :
  preserves grows (_phase_2_expanding_frontier W mp mode d).
Proof. pose proof grows_expansion_loop. grows_auto. Qed.

Lemma grows_phase_3 th d : preserves grows (_phase_3_final_validation W th d).
Proof. pose proof grows_validation_loop. grows_auto. Qed.

Lemma grows_phase_1 seed_url : preserves grows (_phase_1_seeding W seed_url).
Proof. pose proof grows_extract_statements. grows_auto. Qed.

End Grows.

(** X3. Over a whole run, from either entry point and whatever the state it
    starts in: validated gaps are only appended to the final list, never
    removed or replaced; a gap object never changes but for its strikes,
    which only go up; no counter ever goes down; and the explored frontier
    only widens. *)
Theorem run_only_grows W analyze_paper_text request paper_text paper_id
    max_papers validation_threshold s :
  grows s (analyze_research_gaps W request s).2
  /\ grows s (analyze_research_gaps_from_text W analyze_paper_text paper_text
                paper_id max_papers validation_threshold s).2.
Proof.
  pose proof (grows_extract_statements W). pose proof (grows_phase_2 W).
  pose proof (grows_phase_3 W). pose proof (grows_enrich_all W).
  split.
  - assert (H3 : preserves grows (analyze_research_gaps W request)) by grows_auto.
    apply H3.
  - assert (H3 : preserves grows
             (analyze_research_gaps_from_text W analyze_paper_text paper_text
                paper_id max_papers validation_threshold)) by grows_auto.
    apply H3.
Qed.

(** ** What expansion does to the gap stores *)

Global Instance expanding_preorder : PreOrder expanding.
Proof.
  split.
  - intros s. exists []. rewrite !app_nil_r. unfold llen. cbn.
    repeat split; [constructor | lia].
  - intros s1 s2 s3 (n1 & A1 & B1 & C1 & D1 & E1 & F1 & G1)
                     (n2 & A2 & B2 & C2 & D2 & E2 & F2 & G2).
    exists (n1 ++ n2). rewrite A2, A1, C2, C1, D2, D1, E2, E1, F2, F1, G2, G1, A1.
    rewrite <- !app_assoc, !length_app, seq_app. unfold llen.
    rewrite length_app. repeat split; [now apply Forall_app | lia].
Qed.

Ltac expanding_state :=
  exists []; cbn; rewrite ?app_nil_r; unfold llen; cbn;
  repeat split; first [constructor | lia].

Ltac expanding_auto :=
  repeat first
    [ solve [auto 1]
    | structural
    | apply preserves_modify; tc; intros; expanding_state
    | apply preserves_interact; tc; intros; expanding_state
    | unfold_steps ].

Section Expanding.
Variable W : Collaborators.

Lemma expanding_extract_statements paper cat l :
  preserves expanding (extract_statements W paper cat l).
Proof.
  intros s.
  destruct (extract_statements_spec W paper cat l s)
    as (news & _ & F & A & B & C & D & E & G & _).
  exists news. cbn zeta in *. repeat split; try assumption.
  apply Forall_forall. intros g Hg.
  assert (Hg' : gap_facts g ∈ map gap_facts news)
    by (apply (list_elem_of_fmap_2 gap_facts); exact Hg).
  rewrite F in Hg'. apply list_elem_of_fmap in Hg' as (d & Hd & _).
  unfold gap_facts in Hd. now injection Hd.
Qed.

Lemma expanding_analyze_discovered mode mp d urls :
  preserves expanding (analyze_discovered W mode mp d urls).
Proof.
  pose proof expanding_extract_statements.
  induction urls as [|u urls IH]; cbn [analyze_discovered]; expanding_auto.
Qed.

Lemma expanding_expansion_loop fuel mode mp lim d n :
  preserves expanding (expansion_loop W fuel mode mp lim d n).
Proof.
  pose proof expanding_extract_statements.
  pose proof expanding_analyze_discovered.
  revert n. induction fuel as [|fuel IH]; intros n; cbn [expansion_loop];
    expanding_auto.
Qed.

Lemma expanding_phase_2 mp mode d :
  preserves expanding (_phase_2_expanding_frontier W mp mode d).
Proof. pose proof expanding_expansion_loop. expanding_auto. Qed.

End Expanding.

(** X4. Expansion judges nothing: it only puts new gaps, with no strike, behind
    the pending store (counting each as discovered). No gap is struck,
    removed, eliminated or validated, and the final list is left alone. *)
Theorem expansion_only_adds_gaps W max_papers analysis_mode timeout_deadline s :
  let s' := (_phase_2_expanding_frontier W max_papers analysis_mode
               timeout_deadline s).2 in
  exists news,
    heap s' = heap s ++ news
    /\ Forall (fun g => validation_strikes g = 0) news
    /\ potential_gaps_db s'
       = potential_gaps_db s ++ seq (length (heap s)) (length news)
    /\ gaps_discovered (stats s') = gaps_discovered (stats s) + llen news
    /\ final_gaps_list s' = final_gaps_list s
    /\ gaps_eliminated (stats s') = gaps_eliminated (stats s)
    /\ validation_attempts (stats s') = validation_attempts (stats s).
Proof. apply (expanding_phase_2 W). Qed.

(** ** The paper budget of expansion *)

Global Instance within_budget_preorder mp : PreOrder (within_budget mp).
Proof.
  split.
  - intros s. exists []. rewrite app_nil_r. unfold llen. cbn.
    repeat split; lia.
  - intros s1 s2 s3 (n1 & A1 & B1 & C1) (n2 & A2 & B2 & C2).
    exists (n1 ++ n2). rewrite A2, A1, <- app_assoc. unfold llen in *.
    rewrite length_app. repeat split; lia.
Qed.

Ltac budget_state :=
  exists []; cbn; rewrite ?app_nil_r; unfold llen; cbn; repeat split; lia.

Ltac budget_auto :=
  repeat first
    [ solve [auto 1]
    | structural
    | apply preserves_modify; tc; intros; budget_state
    | apply preserves_interact; tc; intros; budget_state
    | unfold_steps ].

Section Budget.
Variable W : Collaborators.
Variable mp : Z.

Lemma budget_extract_statements paper cat l :
  preserves (within_budget mp) (extract_statements W paper cat l).
Proof. induction l as [|x l IH]; cbn [extract_statements]; budget_auto. Qed.

(** The analysis of a new document is made within the budget when the
    count is below it. *)
Lemma budget_analyze_new_paper mode u s :
  papers_analyzed s < mp ->
  within_budget mp s (analyze_new_paper W mode u s).2.
Proof.
  intros Hlt. pose proof budget_extract_statements.
  unfold analyze_new_paper, call_analyze_paper, interact.
  rewrite bind_run. cbn beta iota zeta.
  destruct (analyze_paper W (length (log s)) u) as [[p|]|];
    [|rewrite ret_run; budget_state | budget_state].
  rewrite bind_run. unfold modify at 1. cbn beta iota zeta.
  match goal with |- within_budget mp s (?rest ?s2).2 =>
    transitivity s2;
      [|assert (Hb : preserves (within_budget mp) rest) by budget_auto; apply Hb]
  end.
  exists [p]. unfold llen. cbn. repeat split; lia.
Qed.

Lemma budget_analyze_discovered mode d urls :
  preserves (within_budget mp) (analyze_discovered W mode mp d urls).
Proof.
  induction urls as [|u urls IH]; cbn [analyze_discovered].
  - apply preserves_ret; tc.
  - apply preserves_bind; tc; [budget_auto|].
    intros [|]; [apply preserves_ret; tc|].
    intros s. unfold get. rewrite bind_run. cbn beta iota zeta.
    rewrite bind_run.
    destruct (negb (bool_decide (u ∈ analyzed_papers_set s))
              && (papers_analyzed s <? mp)%Z) eqn:Hg.
    + apply andb_prop in Hg as [_ Hg]. apply Z.ltb_lt in Hg.
      pose proof (budget_analyze_new_paper mode u s Hg) as H1.
      destruct (analyze_new_paper W mode u s) as [[[]|] s1];
        cbn [fst snd] in H1 |- *; [|exact H1].
      etransitivity; [exact H1 | apply IH].
    + rewrite ret_run. apply IH.
Qed.

Lemma budget_expansion_loop fuel mode lim d n :
  preserves (within_budget mp) (expansion_loop W fuel mode mp lim d n).
Proof.
  pose proof budget_analyze_discovered.
  revert n. induction fuel as [|fuel IH]; intros n; cbn [expansion_loop];
    budget_auto.
Qed.

End Budget.

(** X5. Expansion keeps to its paper budget: it only appends to the analysed
    papers, and what it appends is at most [max_papers - 1] documents (the
    seed counts for one), with [max_papers] lowered to 2 in light mode. *)
Theorem expansion_respects_paper_budget W max_papers analysis_mode
    timeout_deadline s :
  let s' := (_phase_2_expanding_frontier W max_papers analysis_mode
               timeout_deadline s).2 in
  let budget := if is_light analysis_mode then Z.min max_papers 2 else max_papers in
  exists new_papers,
    analyzed_papers s' = analyzed_papers s ++ new_papers
    /\ llen new_papers <= Z.max 0 (budget - 1).
Proof.
  cbn zeta. unfold _phase_2_expanding_frontier.
  set (budget := if is_light analysis_mode then Z.min max_papers 2 else max_papers).
  rewrite bind_run.
  assert (H1 : exists s1,
    (if is_light analysis_mode
     then s0 ← get;
          modify (set_gap_search_queue
            (take (Z.to_nat (Z.min 2 (Z.of_nat (length (gap_search_queue s0)))))));;
          mret (Z.min max_papers 2)
     else mret max_papers) s = (Ok budget, s1)
    /\ analyzed_papers s1 = analyzed_papers s).
  { subst budget. destruct (is_light analysis_mode); eexists; split; reflexivity. }
  destruct H1 as (s1 & -> & A1). rewrite bind_run. unfold modify at 1.
  cbn beta iota zeta.
  match goal with |- context [expansion_loop W ?f ?m ?b ?l ?d ?n ?t] =>
    destruct (budget_expansion_loop W b f m l d n t) as (new & A & B & C)
  end.
  cbn [analyzed_papers papers_analyzed set_papers_analyzed] in A, B, C.
  exists new. rewrite A, A1. split; [reflexivity | lia].
Qed.

(** ** A run from a document reference explores no gap *)

Global Instance idle_preorder : PreOrder idle.
Proof.
  split.
  - intros s. split; [|repeat split].
    exists []. split; [now rewrite app_nil_r | constructor].
  - intros s1 s2 s3 ((e1 & L1 & F1) & A1 & B1 & C1 & D1)
                     ((e2 & L2 & F2) & A2 & B2 & C2 & D2).
    split; [|repeat split; congruence].
    exists (e1 ++ e2). split; [|now apply Forall_app].
    rewrite L2, L1. now rewrite app_assoc.
Qed.

Global Instance idle_from_empty_queue_preorder : PreOrder idle_from_empty_queue.
Proof.
  split.
  - intros s _. reflexivity.
  - intros s1 s2 s3 H1 H2 Hq. specialize (H1 Hq).
    etransitivity; [exact H1|]. apply H2.
    destruct H1 as (_ & -> & _). exact Hq.
Qed.

Lemma idle_log_event e s :
  not_exploration e -> idle s (set_log (fun l => l ++ [e]) s).
Proof.
  intros He. split; [|repeat split].
  exists [e]. split; [reflexivity|]. now constructor.
Qed.

Ltac idle_state :=
  split; [exists []; split; [now rewrite app_nil_r | constructor] | repeat split].

Ltac idle_auto :=
  repeat first
    [ solve [auto 1]
    | structural
    | apply preserves_modify; tc; intros; idle_state
    | apply preserves_interact; tc; intros ? [?|]; apply idle_log_event; exact I
    | unfold_steps ].

Lemma idle_remove_pending r : preserves idle (remove_pending r).
Proof.
  intros s. unfold remove_pending.
  destruct (py_remove (heap s) r (potential_gaps_db s)); cbn; [idle_state|reflexivity].
Qed.

Lemma idle_remove_pending_if_in r : preserves idle (remove_pending_if_in r).
Proof.
  intros s. unfold remove_pending_if_in.
  destruct (py_in (heap s) r (potential_gaps_db s)); cbn; [|reflexivity].
  pose proof (idle_remove_pending r s) as H.
  destruct (remove_pending r s) as [[[]|] s1]; exact H.
Qed.

Section Idle.
Variable W : Collaborators.

Lemma idle_extract_statements paper cat l :
  preserves idle (extract_statements W paper cat l).
Proof. induction l as [|x l IH]; cbn [extract_statements]; idle_auto. Qed.

Lemma idle_drain th rem : preserves idle (drain W th rem).
Proof.
  pose proof idle_remove_pending_if_in.
  induction rem as [|r rem IH]; cbn [drain]; idle_auto.
Qed.

Lemma idle_analyze_validation_papers urls acc :
  preserves idle (analyze_validation_papers W urls acc).
Proof.
  revert acc. induction urls as [|u urls IH]; intros acc;
    cbn [analyze_validation_papers]; idle_auto.
Qed.

Lemma idle_validation_loop th d gtv todo :
  preserves idle (validation_loop W th d gtv todo).
Proof.
  pose proof idle_remove_pending. pose proof idle_remove_pending_if_in.
  pose proof idle_drain. pose proof idle_analyze_validation_papers.
  induction todo as [|r todo IH]; cbn [validation_loop]; idle_auto.
Qed.

Lemma idle_enrich_all gaps : preserves idle (enrich_all W gaps).
Proof. induction gaps as [|r gaps IH]; cbn [enrich_all]; idle_auto. Qed.

Lemma idle_phase_1 seed_url : preserves idle (_phase_1_seeding W seed_url).
Proof. pose proof idle_extract_statements. idle_auto. Qed.

Lemma idle_phase_3 th d : preserves idle (_phase_3_final_validation W th d).
Proof. pose proof idle_validation_loop. idle_auto. Qed.

Lemma idle_phase_4 rid seed start : preserves idle (_phase_4_synthesis W rid seed start).
Proof. idle_auto. Qed.

(** With nothing queued, expansion makes no interaction at all. *)
Lemma phase_2_empty_queue mp mode d s :
  gap_search_queue s = [] ->
  exists s',
    _phase_2_expanding_frontier W mp mode d s = (Ok tt, s')
    /\ log s' = log s
    /\ gap_search_queue s' = []
    /\ research_frontier s' = research_frontier s
    /\ stats s' = stats s
    /\ analyzed_papers s' = analyzed_papers s.
Proof.
  intros Hq. unfold _phase_2_expanding_frontier.
  destruct (is_light mode).
  - unfold get, modify. rewrite !bind_run. cbn beta iota zeta.
    rewrite ret_run. cbn beta iota. rewrite bind_run. cbn beta iota zeta.
    rewrite expansion_loop_stops by (left; cbn; rewrite Hq; apply take_nil).
    eexists. split; [reflexivity|]. cbn. rewrite Hq, take_nil. repeat split.
  - unfold modify. rewrite !bind_run, ret_run. cbn beta iota zeta.
    rewrite ?bind_run. cbn beta iota zeta.
    rewrite expansion_loop_stops by (left; exact Hq).
    eexists. split; [reflexivity|]. cbn. repeat split. exact Hq.
Qed.

Lemma idle_phase_2 mp mode d :
  preserves idle_from_empty_queue (_phase_2_expanding_frontier W mp mode d).
Proof.
  intros s Hq.
  destruct (phase_2_empty_queue mp mode d s Hq) as (s' & -> & L & Q & F & S & _).
  cbn. split; [|rewrite Q, F, S, Hq; repeat split].
  exists []. rewrite app_nil_r. split; [exact L | constructor].
Qed.

End Idle.

Lemma idle_weaken {A} (m : M A) :
  preserves idle m -> preserves idle_from_empty_queue m.
Proof. intros H s _. apply H. Qed.

(** A run from a document reference keeps idle when nothing is queued. *)
Lemma url_run_idle W request :
  preserves idle_from_empty_queue (analyze_research_gaps W request).
Proof.
  pose proof (idle_phase_2 W).
  pose proof (fun u => idle_weaken _ (idle_phase_1 W u)).
  pose proof (fun th d => idle_weaken _ (idle_phase_3 W th d)).
  pose proof (fun a b c => idle_weaken _ (idle_phase_4 W a b c)).
  pose proof (fun g => idle_weaken _ (idle_enrich_all W g)).
  unfold analyze_research_gaps.
  repeat first
    [ solve [auto 1]
    | structural
    | apply idle_weaken; idle_auto ].
Qed.

(** X6. A run started from a document reference with nothing queued, as
    [initialize] leaves the orchestrator, explores no gap: seeding queues
    none, so that expansion finds its queue empty. The run issues no paper
    search and no model call, the queue stays empty, and the explored
    frontier and both frontier counters end as they began. *)
Theorem run_from_url_explores_no_gap W request s :
  gap_search_queue s = [] ->
  let s' := (analyze_research_gaps W request s).2 in
  gap_search_queue s' = []
  /\ research_frontier s' = research_frontier s
  /\ frontier_expansions (stats s') = frontier_expansions (stats s)
  /\ research_areas_explored (stats s') = research_areas_explored (stats s)
  /\ Forall not_exploration (new_events s s').
Proof.
  intros Hq s'.
  destruct (url_run_idle W request s Hq) as ((evs & L & F) & A & B & C & D). fold s' in L, A, B, C, D.
  rewrite A, B, C, D, (new_events_app _ _ _ L). repeat split; assumption.
Qed.

Lemma run_from_url_explores_no_gap_witness :
  let s' := (analyze_research_gaps (W_lab (Ok false) ["doc"])
               (request_light "seed" 10) initialize).2 in
  gap_search_queue s' = [] /\ research_frontier s' = ∅
  /\ research_areas_explored (stats s') = 0.
Proof.
  cbn zeta.
  destruct (run_from_url_explores_no_gap (W_lab (Ok false) ["doc"])
              (request_light "seed" 10) initialize eq_refl)
    as (H1 & H2 & _ & H3 & _).
  split; [exact H1|]. split; [exact H2 | exact H3].
Defined.

(** ** The parameters of light mode *)




(** The lowered paper budget shows on an orchestrator that is used again
    without [initialize], after a run from text has left two gaps queued:
    with 10 papers requested the driver passes [min(10, 4) = 4], and yet the
    loop ends after one gap and one analysed document, a gap still queued,
    [papers_analyzed] (2) below 4 and the gaps processed (1) below the cap
    of 2. *)
Example reused_light_run_stops_below_four :
  let s' := (analyze_research_gaps W_found (request_light "seed" 10)
               after_text_run).2 in
  gap_search_queue after_text_run = [0; 1]%nat
  /\ gap_search_queue s' = [1%nat]
  /\ papers_analyzed s' = 2
  /\ papers_analyzed s' < Z.min 10 4
  /\ research_areas_explored (stats s')
     = research_areas_explored (stats after_text_run) + 1.
Proof. vm_compute. repeat split. Qed.

(** ** One validation pass gives a gap at most one strike *)

Lemma strike_bound (h : list ResearchGap) r :
  validation_strikes (alter strike r h !!! r) <= validation_strikes (h !!! r) + 1.
Proof.
  rewrite list_lookup_total_alter.
  destruct (decide (r = r /\ (r < length h)%nat)); cbn; lia.
Qed.

Lemma try_ignore_state {A} (m : M A) (a : A) s :
  (try_except m (mret a) s).2 = (m s).2.
Proof. unfold try_except. destruct (m s) as [[x|] s1]; reflexivity. Qed.

(** An iteration on a gap that is two strikes or more short of the
    threshold leaves the final list alone, and every other gap object. *)
Lemma validate_gap_below_threshold W th d r s :
  validation_strikes (heap s !!! r) + 1 < th ->
  let s' := (try_except (validate_gap W th d r) (mret tt) s).2 in
  final_gaps_list s' = final_gaps_list s
  /\ (forall x, x <> r -> heap s' !!! x = heap s !!! x).
Proof.
  intros Hlt s'. subst s'. rewrite try_ignore_state. unfold validate_gap.
  rewrite bind_run.
  destruct (find_validation_papers_spec W d r s)
    as (evs1 & _ & _ & A1 & _ & C1 & _).
  destruct (find_validation_papers W d r s) as [[ps|] s1]; cbn [fst snd] in *;
    [|split; [exact C1 | intros; now rewrite A1]].
  assert (Hstrike : forall s2, heap s2 = heap s ->
            final_gaps_list s2 = final_gaps_list s ->
            final_gaps_list (strike_and_graduate W th r s2).2 = final_gaps_list s
            /\ (forall x, x <> r ->
                  heap (strike_and_graduate W th r s2).2 !!! x = heap s !!! x)).
  { intros s2 A2 C2. rewrite strike_and_graduate_run. cbn zeta.
    cbn [heap set_stats set_heap]. rewrite A2.
    pose proof (strike_bound (heap s) r) as Hb.
    destruct (Z.leb_spec th (validation_strikes (alter strike r (heap s) !!! r)));
      [lia|].
    cbn. rewrite A2. split; [exact C2|]. intros x Hx. now apply strike_elsewhere. }
  rewrite bind_run. destruct ps as [|p ps].
  - cbn [judge_gap]. rewrite ret_run. now apply Hstrike.
  - rewrite judge_gap_run by discriminate. cbn zeta.
    destruct (validate_gap_against_papers W (length (log s1)) (heap s1 !!! r)
                (p :: ps)) as [[|]|];
      try (apply Hstrike; cbn; assumption).
    destruct (py_in (heap s1) r (potential_gaps_db s1)).
    + destruct (py_remove (heap s1) r (potential_gaps_db s1)).
      * cbn. split; [exact C1 | intros; now rewrite A1].
      * apply Hstrike; cbn; assumption.
    + cbn. split; [exact C1 | intros; now rewrite A1].
Qed.

Lemma deadline_not_passed W d s :
  never_late W d ->
  exists s1,
    deadline_passed W d s = (Ok false, s1)
    /\ heap s1 = heap s
    /\ potential_gaps_db s1 = potential_gaps_db s
    /\ final_gaps_list s1 = final_gaps_list s.
Proof.
  intros Hd. unfold deadline_passed. destruct d as [dl|]; [|exists s; repeat split].
  destruct (Py.truthy dl); [|exists s; repeat split].
  unfold now, interact. rewrite bind_run. cbn beta iota zeta. rewrite ret_run.
  rewrite (Hd (length (log s))). eexists. split; [reflexivity|]. repeat split.
Qed.

Lemma validation_loop_below_threshold W th d gtv todo s :
  never_late W d ->
  NoDup todo ->
  Forall (fun r => validation_strikes (heap s !!! r) + 1 < th) todo ->
  final_gaps_list (validation_loop W th d gtv todo s).2 = final_gaps_list s.
Proof.
  intros Hd. revert s. induction todo as [|r todo IH]; intros s Hnd Hall;
    [reflexivity|].
  apply NoDup_cons in Hnd as [Hr Hnd]. apply Forall_cons in Hall as [Hlt Hall].
  cbn [validation_loop]. rewrite bind_run.
  destruct (deadline_not_passed W d s Hd) as (s1 & -> & A1 & _ & C1).
  rewrite bind_run.
  destruct (validate_gap_below_threshold W th d r s1) as [C2 A2];
    [now rewrite A1|].
  assert (Hok : exists s2, try_except (validate_gap W th d r) (mret tt) s1 = (Ok tt, s2)).
  { unfold try_except. destruct (validate_gap W th d r s1) as [[[]|] s2]; eauto. }
  destruct Hok as (s2 & Hs2). rewrite Hs2 in *. cbn [fst snd] in *.
  rewrite IH; [congruence | exact Hnd |].
  apply Forall_forall. intros x Hx. rewrite A2, A1.
  - eapply Forall_forall in Hall; eauto.
  - intros ->. contradiction.
Qed.

Lemma phase_3_below_threshold W th d s :
  never_late W d ->
  NoDup (potential_gaps_db s) ->
  Forall (fun r => validation_strikes (heap s !!! r) + 1 <> th)
    (potential_gaps_db s) ->
  final_gaps_list (_phase_3_final_validation W th d s).2 = final_gaps_list s.
Proof.
  intros Hd Hnd Hall. unfold _phase_3_final_validation, get.
  rewrite bind_run. cbn beta iota zeta.
  apply validation_loop_below_threshold; [exact Hd | |].
  - clear Hall. induction (potential_gaps_db s) as [|a l IH]; [constructor|].
    apply NoDup_cons in Hnd as [Ha Hnd]. cbn.
    destruct (validation_strikes (heap s !!! a) <? th)%Z; [|now apply IH].
    apply NoDup_cons. split; [|now apply IH].
    intros Hin. apply Ha. apply list_elem_of_In, filter_In in Hin as [Hin _].
    now apply list_elem_of_In.
  - apply Forall_forall. intros r Hr.
    apply list_elem_of_In, filter_In in Hr as [Hr Hlt].
    apply list_elem_of_In in Hr. apply Z.ltb_lt in Hlt.
    eapply Forall_forall in Hall; eauto. cbn in Hall. lia.
Qed.

(** X7. A validation pass visits each gap once and gives it at most one strike.
    So when the deadline is not reached and no pending gap is exactly one
    strike short of the threshold, the pass validates nothing: the final
    list is left as it was. With fresh gaps, which have no strike, this is
    the case of every threshold but 1. *)
Theorem one_pass_validates_only_at_one_strike_short W th d s :
  never_late W d ->
  NoDup (potential_gaps_db s) ->
  Forall (fun r => validation_strikes (heap s !!! r) + 1 <> th)
    (potential_gaps_db s) ->
  final_gaps_list (_phase_3_final_validation W th d s).2 = final_gaps_list s.
Proof. apply phase_3_below_threshold. Qed.

Lemma one_pass_validates_only_at_one_strike_short_witness :
  let W := W_lab (Ok false) ["doc"] in
  final_gaps_list (_phase_3_final_validation W 2 None (seeded W)).2
  = final_gaps_list (seeded W).
Proof.
  cbn zeta.
  apply (one_pass_validates_only_at_one_strike_short (W_lab (Ok false) ["doc"])
           2 None (seeded (W_lab (Ok false) ["doc"]))).
  - exact I.
  - apply (bool_decide_unpack _). vm_compute. exact I.
  - assert (E : potential_gaps_db (seeded (W_lab (Ok false) ["doc"])) = [0; 1]%nat)
      by (vm_compute; reflexivity).
    rewrite E.
    apply Forall_cons; split; [vm_compute; discriminate|].
    apply Forall_cons; split; [vm_compute; discriminate | apply Forall_nil_2].
Defined.

(** ** Runs that validate nothing *)

Lemma expanding_keeps_unstruck s s' : expanding s s' -> unstruck s -> unstruck s'.
Proof.
  intros (news & A & B & C & _) (Hnd & Hall). unfold unstruck. rewrite A, C.
  assert (Hlt : forall r, r ∈ potential_gaps_db s -> (r < length (heap s))%nat).
  { intros r Hr. eapply Forall_forall in Hall; eauto. now destruct Hall. }
  split.
  - apply NoDup_app. split; [exact Hnd|]. split; [|apply NoDup_seq].
    intros r Hr Hs. apply Hlt in Hr. apply elem_of_seq in Hs. lia.
  - apply Forall_app. split.
    + apply Forall_forall. intros r Hr. pose proof (Hlt r Hr) as Hr'.
      eapply Forall_forall in Hall; eauto. destruct Hall as [_ H0].
      rewrite length_app, lookup_total_app_l by exact Hr'. split; [lia | exact H0].
    + apply Forall_forall. intros r Hr. apply elem_of_seq in Hr.
      rewrite length_app. split; [lia|].
      rewrite lookup_total_app_r by lia.
      assert (Hi : (r - length (heap s) < length news)%nat) by lia.
      destruct (lookup_lt_is_Some_2 news _ Hi) as [g Hg].
      rewrite (list_lookup_total_correct _ _ _ Hg).
      eapply Forall_forall in B; [exact B|]. eapply list_elem_of_lookup_2; eauto.
Qed.

Lemma unstruck_not_one_short th s :
  th <> 1 -> unstruck s ->
  NoDup (potential_gaps_db s)
  /\ Forall (fun r => validation_strikes (heap s !!! r) + 1 <> th)
       (potential_gaps_db s).
Proof.
  intros Hth [Hnd Hall]. split; [exact Hnd|].
  eapply Forall_impl; [exact Hall|]. cbn. intros r [_ H0]. lia.
Qed.

(** What synthesis returns, and the only state change it makes. *)
Lemma phase_4_run W rid seed start s :
  let t := time_time W (length (log s)) in
  let s1 := set_log (fun l => l ++ [EvClock t]) s in
  _phase_4_synthesis W rid seed start s
  = (match synthesize (set_order W) s1 rid seed start (t - start) with
     | Some resp => Ok resp
     | None => Raise
     end, s1).
Proof.
  cbn zeta. unfold _phase_4_synthesis, now, interact, get.
  rewrite !bind_run. cbn beta iota zeta. rewrite ?bind_run. cbn beta iota zeta.
  destruct (synthesize _ _ _ _ _ _); reflexivity.
Qed.

Lemma synthesize_validated_gaps order s rid seed start pt resp :
  synthesize order s rid seed start pt = Some resp ->
  validated_gaps resp = final_gaps_list s
  /\ request_id resp = rid /\ seed_paper_url resp = seed
  /\ quality_metrics resp <> None.
Proof.
  unfold synthesize. destruct (Qeq_bool (pt / 60) 0); [discriminate|].
  intros [= <-]. cbn. repeat split. discriminate.
Qed.

Lemma expanding_seed_from_text W apt text id :
  preserves expanding (seed_from_text W apt text id).
Proof. pose proof (expanding_extract_statements W). expanding_auto. Qed.

(** X8. The text entry point gives validation no deadline, and one pass gives a
    gap one strike: started as [initialize] leaves the orchestrator, it
    reports no validated gap at all unless the threshold is 1, and in
    particular under its default threshold of 2. *)
Theorem text_run_validates_nothing_unless_threshold_is_one W analyze_paper_text
    paper_text paper_id max_papers validation_threshold s :
  validation_threshold <> 1 ->
  unstruck s ->
  final_gaps_list s = [] ->
  let out := analyze_research_gaps_from_text W analyze_paper_text paper_text
               paper_id max_papers validation_threshold s in
  final_gaps_list out.2 = []
  /\ exists resp, out.1 = Ok resp /\ validated_gaps resp = [].
Proof.
  intros Hth Hun Hfin out. subst out. unfold analyze_research_gaps_from_text.
  unfold fresh_id, now, interact. rewrite !bind_run. cbn beta iota zeta.
  rewrite ret_run. cbn beta iota. rewrite bind_run. cbn beta iota zeta.
  set (rid := Py.str_take 8 _). set (start := time_time W _).
  match goal with |- context [try_except _ _ ?t] => set (s0 := t) end.
  assert (Hun0 : unstruck s0) by exact Hun.
  assert (Hfin0 : final_gaps_list s0 = []) by exact Hfin.
  clearbody s0 rid start. clear Hun Hfin s.
  (* the handler *)
  assert (Hh : forall s1, final_gaps_list s1 = [] ->
    let o := (s ← get; t ← now W;
              mret (error_response_from_text rid paper_id
                      (llen (analyzed_papers s)) (t - start)%Q)) s1 in
    final_gaps_list o.2 = [] /\ exists resp, o.1 = Ok resp /\ validated_gaps resp = []).
  { intros s1 H1. cbn. split; [exact H1|]. eexists. split; reflexivity. }
  unfold try_except. rewrite bind_run.
  pose proof (expanding_seed_from_text W analyze_paper_text paper_text paper_id s0) as E1.
  destruct (seed_from_text W analyze_paper_text paper_text paper_id s0) as [[[]|] s1];
    cbn [fst snd] in E1.
  2:{ apply Hh. destruct E1 as (? & _ & _ & _ & _ & -> & _). exact Hfin0. }
  rewrite bind_run.
  pose proof (expanding_phase_2 W max_papers "deep" None s1) as E2.
  destruct (_phase_2_expanding_frontier W max_papers "deep" None s1) as [[[]|] s2];
    cbn [fst snd] in E2.
  2:{ apply Hh. destruct E2 as (? & _ & _ & _ & _ & -> & _).
      destruct E1 as (? & _ & _ & _ & _ & -> & _). exact Hfin0. }
  assert (Hun2 : unstruck s2) by eauto using expanding_keeps_unstruck.
  assert (Hfin2 : final_gaps_list s2 = []).
  { destruct E2 as (? & _ & _ & _ & _ & -> & _).
    destruct E1 as (? & _ & _ & _ & _ & -> & _). exact Hfin0. }
  destruct (unstruck_not_one_short validation_threshold s2 Hth Hun2) as [Hnd Hall].
  pose proof (phase_3_below_threshold W validation_threshold None s2 I Hnd Hall) as E3.
  rewrite bind_run.
  destruct (_phase_3_final_validation W validation_threshold None s2) as [[[]|] s3];
    cbn [fst snd] in E3.
  2:{ apply Hh. congruence. }
  rewrite phase_4_run. cbn zeta.
  destruct (synthesize _ _ _ _ _ _) as [resp|] eqn:Hs.
  - apply synthesize_validated_gaps in Hs as (Hv & _). cbn in Hv |- *.
    split; [congruence|]. exists resp. split; [reflexivity | congruence].
  - apply Hh. cbn. congruence.
Qed.

Lemma text_run_validates_nothing_unless_threshold_is_one_witness :
  let out := analyze_research_gaps_from_text (W_lab (Ok false) ["doc"])
               (fun _ _ u => analyze_paper (W_lab (Ok false) ["doc"]) 0 u)
               "text" "seed" 10 2 initialize in
  final_gaps_list out.2 = []
  /\ exists resp, out.1 = Ok resp /\ validated_gaps resp = [].
Proof.
  apply (text_run_validates_nothing_unless_threshold_is_one
           (W_lab (Ok false) ["doc"])
           (fun _ _ u => analyze_paper (W_lab (Ok false) ["doc"]) 0 u)
           "text" "seed" 10 2 initialize).
  - discriminate.
  - split; [apply NoDup_nil_2 | apply Forall_nil_2].
  - reflexivity.
Defined.

Lemma now_run W s :
  now W s = (Ok (time_time W (length (log s))),
             set_log (fun l => l ++ [EvClock (time_time W (length (log s)))]) s).
Proof. reflexivity. Qed.

Lemma fresh_id_run W s :
  fresh_id W s = (Ok (Py.str_take 8 (uuid4 W (length (log s)))),
                  set_log (fun l => l ++ [EvUuid (uuid4 W (length (log s)))]) s).
Proof. reflexivity. Qed.

Lemma expanding_phase_1 W seed_url : preserves expanding (_phase_1_seeding W seed_url).
Proof. pose proof (expanding_extract_statements W). expanding_auto. Qed.

(** X9. A deep run from a document reference whose threshold is 2 or more
    reports no validated gap as long as the clock stays short of the 15
    minutes of its deadline: one validation pass gives each gap one strike,
    so that none graduates. (Gaps reach the final list of such a run only
    through the drain or the skip that the deadline triggers.) *)
Theorem deep_run_within_deadline_validates_nothing W request s :
  is_light (req_analysis_mode request) = false ->
  2 <= req_validation_threshold request ->
  (forall i, Qle_bool (time_time W (length (log s) + 1) + 900)
               (time_time W i) = false) ->
  unstruck s ->
  final_gaps_list s = [] ->
  let out := analyze_research_gaps W request s in
  final_gaps_list out.2 = []
  /\ exists resp, out.1 = Ok resp /\ validated_gaps resp = [].
Proof.
  intros Hmode Hth Hclock Hun Hfin out. subst out. unfold analyze_research_gaps.
  rewrite bind_run, fresh_id_run, bind_run, now_run.
  cbn [log set_log]. rewrite length_app. cbn [length].
  unfold mode_parameters. rewrite Hmode.
  set (rid := Py.str_take 8 _). set (start := time_time W _) in *.
  set (dl := (start + 900)%Q) in *.
  match goal with |- context [try_except _ _ ?t] => set (s0 := t) end.
  assert (Hun0 : unstruck s0) by exact Hun.
  assert (Hfin0 : final_gaps_list s0 = []) by exact Hfin.
  clearbody s0 rid. clear Hun Hfin.
  assert (Hlate : never_late W (Some dl)) by exact Hclock.
  (* the handler *)
  assert (Hh : forall s1, final_gaps_list s1 = [] ->
    let o := (s ← get; t ← now W;
              mret (error_response rid (req_url request)
                      (llen (analyzed_papers s)) (t - start)%Q)) s1 in
    final_gaps_list o.2 = [] /\ exists resp, o.1 = Ok resp /\ validated_gaps resp = []).
  { intros s1 H1. cbn. split; [exact H1|]. eexists. split; reflexivity. }
  unfold try_except. rewrite bind_run.
  pose proof (expanding_phase_1 W (req_url request) s0) as E1.
  destruct (_phase_1_seeding W (req_url request) s0) as [[p|] s1];
    cbn [fst snd] in E1.
  2:{ apply Hh. destruct E1 as (? & _ & _ & _ & _ & -> & _). exact Hfin0. }
  rewrite bind_run.
  pose proof (expanding_phase_2 W (req_max_papers request)
                (req_analysis_mode request) (Some dl) s1) as E2.
  destruct (_phase_2_expanding_frontier W (req_max_papers request)
              (req_analysis_mode request) (Some dl) s1) as [[[]|] s2];
    cbn [fst snd] in E2.
  2:{ apply Hh. destruct E2 as (? & _ & _ & _ & _ & -> & _).
      destruct E1 as (? & _ & _ & _ & _ & -> & _). exact Hfin0. }
  assert (Hun2 : unstruck s2) by eauto using expanding_keeps_unstruck.
  assert (Hfin2 : final_gaps_list s2 = []).
  { destruct E2 as (? & _ & _ & _ & _ & -> & _).
    destruct E1 as (? & _ & _ & _ & _ & -> & _). exact Hfin0. }
  rewrite bind_run, now_run.
  unfold threshold_before_phase_3. rewrite (Hclock (length (log s2))).
  destruct (Z.ltb_spec 0 (req_validation_threshold request)) as [_|]; [|lia].
  set (s2' := set_log _ s2).
  assert (Hun2' : unstruck s2') by exact Hun2.
  assert (Hfin2' : final_gaps_list s2' = []) by exact Hfin2.
  clearbody s2'.
  destruct (unstruck_not_one_short (req_validation_threshold request) s2')
    as [Hnd Hall]; [lia | exact Hun2' |].
  pose proof (phase_3_below_threshold W (req_validation_threshold request)
                (Some dl) s2' Hlate Hnd Hall) as E3.
  rewrite bind_run.
  destruct (_phase_3_final_validation W (req_validation_threshold request)
              (Some dl) s2') as [[[]|] s3]; cbn [fst snd] in E3.
  2:{ apply Hh. congruence. }
  rewrite phase_4_run. cbn zeta.
  destruct (synthesize _ _ _ _ _ _) as [resp|] eqn:Hs.
  - apply synthesize_validated_gaps in Hs as (Hv & _). cbn in Hv |- *.
    split; [congruence|]. exists resp. split; [reflexivity | congruence].
  - apply Hh. cbn. congruence.
Qed.

Lemma deep_run_within_deadline_validates_nothing_witness :
  let out := analyze_research_gaps W_calm (request_deep "seed" 10 2) initialize in
  final_gaps_list out.2 = []
  /\ exists resp, out.1 = Ok resp /\ validated_gaps resp = [].
Proof.
  apply (deep_run_within_deadline_validates_nothing W_calm
           (request_deep "seed" 10 2) initialize).
  - reflexivity.
  - cbn. lia.
  - intros i. cbn. unfold Qle_bool. cbn. apply Z.leb_gt. lia.
  - split; [apply NoDup_nil_2 | apply Forall_nil_2].
  - reflexivity.
Defined.

(** The run of the witness, in figures: two gaps discovered, each validated
    once, both still pending, and none reported. *)
Example deep_run_ex :
  let out := analyze_research_gaps W_calm (request_deep "seed" 10 2) initialize in
  gaps_discovered (stats out.2) = 2
  /\ validation_attempts (stats out.2) = 2
  /\ length (potential_gaps_db out.2) = 2%nat
  /\ length (final_gaps_list out.2) = 0%nat.
Proof. vm_compute. repeat split. Qed.

(** ** A run fails at the seed, or not at all *)

Lemma elapsed_zero (t start : Q) :
  Qeq_bool ((t - start) / 60) 0 = true <-> (t == start)%Q.
Proof.
  rewrite Qeq_bool_iff. split; intros H.
  - assert (H1 : ((t - start) / 60 * 60 == 0 * 60)%Q) by now rewrite H.
    field_simplify in H1. lra.
  - rewrite H. field.
Qed.

Lemma phase_1_succeeds W seed_url s p :
  analyze_paper W (length (log s)) seed_url = Ok (Some p) ->
  exists s', _phase_1_seeding W seed_url s = (Ok p, s').
Proof.
  intros Han. unfold _phase_1_seeding, call_analyze_paper, interact.
  rewrite bind_run. cbn beta iota zeta. rewrite Han.
  rewrite bind_run. unfold modify at 1. cbn beta iota zeta. rewrite bind_run.
  match goal with |- context [_extract_gaps_from_paper W p ?t] =>
    assert (Hex : exists s', _extract_gaps_from_paper W p t = (Ok tt, s'))
  end.
  { unfold _extract_gaps_from_paper. rewrite bind_run.
    match goal with |- context [extract_statements W p "Limitation" ?l ?t] =>
      destruct (extract_statements_spec W p "Limitation" l t) as (n1 & H1 & _);
      destruct (extract_statements W p "Limitation" l t) as [r1 s1]
    end.
    cbn in H1. subst r1.
    destruct (extract_statements_spec W p "Future Work" (future_work p) s1)
      as (n2 & H2 & _).
    destruct (extract_statements W p "Future Work" (future_work p) s1) as [r2 s2].
    cbn in H2. subst r2. eauto. }
  destruct Hex as (s' & ->). rewrite ret_run. eauto.
Qed.

Lemma grows_log_length s s' : grows s s' -> (length (log s) <= length (log s'))%nat.
Proof. intros (_ & [k ->] & _). rewrite length_app. lia. Qed.

(** X10. Once the seed document is analysed, nothing that a collaborator does can
    make the run fail: as long as the clock has moved on from the start time
    when synthesis reads it, the caller receives the synthesized response,
    with the final list of the run as its validated gaps. *)
Theorem run_fails_only_at_the_seed W request s p :
  let n := length (log s) in
  analyze_paper W (n + 2) (req_url request) = Ok (Some p) ->
  (forall i, (n + 1 < i)%nat -> ~ (time_time W i == time_time W (n + 1))%Q) ->
  let out := analyze_research_gaps W request s in
  exists resp,
    out.1 = Ok resp
    /\ validated_gaps resp = final_gaps_list out.2
    /\ quality_metrics resp <> None
    /\ request_id resp = Py.str_take 8 (uuid4 W n)
    /\ seed_paper_url resp = req_url request.
Proof.
  intros n Han Hclock out. subst out. unfold analyze_research_gaps.
  rewrite bind_run, fresh_id_run, bind_run, now_run.
  cbn [log set_log]. rewrite length_app. cbn [length]. fold n.
  set (rid := Py.str_take 8 _). set (start := time_time W _) in *.
  set (dl := (start + _)%Q).
  match goal with |- context [try_except _ _ ?t] => set (s0 := t) end.
  assert (Hlen0 : length (log s0) = (n + 2)%nat).
  { subst s0. cbn. rewrite !length_app. cbn. lia. }
  clearbody s0 rid dl.
  unfold try_except. rewrite bind_run.
  destruct (phase_1_succeeds W (req_url request) s0 p) as (s1 & Hs1);
    [now rewrite Hlen0|].
  pose proof (grows_phase_1 W (req_url request) s0) as G1.
  rewrite Hs1 in *. cbn [fst snd] in G1.
  destruct (mode_parameters request) as [mp th].
  rewrite bind_run.
  pose proof (no_raise_unit _ s1 (no_raise_phase_2 W mp (req_analysis_mode request)
                                    (Some dl))) as N2.
  pose proof (grows_phase_2 W mp (req_analysis_mode request) (Some dl) s1) as G2.
  destruct (_phase_2_expanding_frontier W mp (req_analysis_mode request)
              (Some dl) s1) as [r2 s2]. cbn [fst snd] in N2, G2. subst r2.
  rewrite bind_run, now_run.
  set (th' := threshold_before_phase_3 dl _ th).
  set (s2' := set_log _ s2).
  assert (G2' : grows s0 s2').
  { etransitivity; [exact G1|]. etransitivity; [exact G2|].
    subst s2'. grows_state. }
  clearbody s2' th'. rewrite bind_run.
  assert (H3 : exists s3,
    (if (0 <? th')%Z then _phase_3_final_validation W th' (Some dl)
     else s4 ← get; enrich_all W (take 5 (potential_gaps_db s4))) s2' = (Ok tt, s3)
    /\ grows s2' s3).
  { destruct (0 <? th')%Z.
    - pose proof (no_raise_unit _ s2' (no_raise_phase_3 W th' (Some dl))) as N3.
      pose proof (grows_phase_3 W th' (Some dl) s2') as G3.
      destruct (_phase_3_final_validation W th' (Some dl) s2') as [r3 s3].
      cbn in N3, G3. subst r3. eauto.
    - unfold get. rewrite bind_run. cbn beta iota zeta.
      pose proof (no_raise_unit _ s2'
                    (no_raise_enrich_all W (take 5 (potential_gaps_db s2')))) as N3.
      pose proof (grows_enrich_all W (take 5 (potential_gaps_db s2')) s2') as G3.
      destruct (enrich_all W (take 5 (potential_gaps_db s2')) s2') as [r3 s3].
      cbn in N3, G3. subst r3. eauto. }
  destruct H3 as (s3 & -> & G3).
  rewrite phase_4_run. cbn zeta.
  assert (Hlen3 : (n + 1 < length (log s3))%nat).
  { apply grows_log_length in G2', G3. lia. }
  destruct (synthesize _ _ _ _ _ _) as [resp|] eqn:Hs.
  - apply synthesize_validated_gaps in Hs as (A & B & C & D).
    exists resp. cbn. repeat split; assumption.
  - exfalso. unfold synthesize in Hs.
    destruct (Qeq_bool _ 0) eqn:Hz; [|discriminate].
    apply elapsed_zero in Hz. exact (Hclock _ Hlen3 Hz).
Qed.

Lemma run_fails_only_at_the_seed_witness :
  let out := analyze_research_gaps (W_lab (Ok true) ["doc"])
               (request_light "seed" 10) initialize in
  exists resp,
    out.1 = Ok resp
    /\ validated_gaps resp = final_gaps_list out.2
    /\ quality_metrics resp <> None.
Proof.
  cbn zeta.
  destruct (run_fails_only_at_the_seed (W_lab (Ok true) ["doc"])
              (request_light "seed" 10) initialize
              (paper_of "seed"
                 ["The model needs labelled data for every new domain";
                  "Inference is too slow for real-time use on edge devices"]))
    as (resp & H1 & H2 & H3 & _).
  - reflexivity.
  - intros i Hi. cbn. unfold Qeq. cbn. lia.
  - exists resp. split; [exact H1|]. split; [exact H2 | exact H3].
Defined.

(** ** Validation loses no gap *)

Lemma NoDup_without r l : NoDup l -> NoDup (without r l).
Proof.
  unfold without. induction l as [|a l IH]; intros H; [exact H|].
  apply NoDup_cons in H as [Ha Hnd]. cbn.
  destruct (negb (a =? r)%nat); [|now apply IH].
  apply NoDup_cons. split; [|now apply IH].
  intros Hin. apply Ha. apply list_elem_of_In, filter_In in Hin as [Hin _].
  now apply list_elem_of_In.
Qed.

Lemma length_without r l :
  NoDup l -> r ∈ l -> (length (without r l) + 1 = length l)%nat.
Proof.
  induction l as [|a l IH]; intros Hnd Hr; [inversion Hr|].
  apply NoDup_cons in Hnd as [Ha Hnd]. unfold without. cbn.
  destruct (Nat.eqb_spec a r) as [->|Hne]; cbn.
  - fold (without r l). rewrite without_not_elem by exact Ha. lia.
  - apply elem_of_cons in Hr as [->|Hr]; [congruence|].
    fold (without r l). specialize (IH Hnd Hr). lia.
Qed.

Lemma length_without_all rem l :
  NoDup rem -> NoDup l -> Forall (fun x => x ∈ l) rem ->
  (length (without_all rem l) + length rem = length l)%nat.
Proof.
  unfold without_all. revert l. induction rem as [|x rem IH]; intros l Hr Hl Hin.
  - cbn. lia.
  - apply NoDup_cons in Hr as [Hx Hr]. apply Forall_cons in Hin as [Hxl Hin].
    cbn [fold_left length].
    rewrite <- (length_without x l Hl Hxl).
    rewrite <- (IH (without x l)); [lia | exact Hr | now apply NoDup_without |].
    apply Forall_forall. intros y Hy. apply elem_of_without. split.
    + eapply Forall_forall in Hin; eauto.
    + intros ->. contradiction.
Qed.

Lemma ids_distinct_NoDup h l : ids_distinct h l -> NoDup l.
Proof. unfold ids_distinct. apply NoDup_fmap_1. Qed.

(** One iteration accounts for the gap it visits, whatever becomes of it. *)
Lemma validate_gap_accounted W th d r s :
  (r < length (heap s))%nat ->
  r ∈ potential_gaps_db s ->
  ids_distinct (heap s) (potential_gaps_db s) ->
  accounted (try_except (validate_gap W th d r) (mret tt) s).2 = accounted s.
Proof.
  intros Hr Hin Hids. rewrite try_ignore_state.
  pose proof (length_without r _ (ids_distinct_NoDup _ _ Hids) Hin) as Hlen.
  destruct (validate_gap_cases W th d r s Hr Hin Hids) as (evs1 & _ & Hc).
  unfold accounted, llen.
  destruct Hc as [(_ & _ & _ & _ & B & C & D & _)
                 | [(ps & _ & _ & _ & _ & B & C & D & _) | Hc]].
  - now rewrite B, C, D.
  - rewrite B, C, D. lia.
  - destruct Hc as (vevs & _ & _ & _ & D & _ & Hg).
    destruct (th <=? validation_strikes (heap s !!! r) + 1)%Z.
    + destruct Hg as (eres & v & _ & _ & C & B). rewrite B, C, D, length_app.
      cbn [length]. lia.
    + destruct Hg as (_ & C & B). now rewrite B, C, D.
Qed.

Lemma validation_loop_accounted W th d todo pre s :
  ready th (pre ++ todo) s todo ->
  accounted (validation_loop W th d (pre ++ todo) todo s).2 = accounted s.
Proof.
  revert pre s. induction todo as [|r todo IH]; intros pre s Hready; [reflexivity|].
  cbn [validation_loop]. rewrite bind_run.
  pose proof (ready_after_deadline_check W th d _ _ s Hready) as Hready1.
  destruct (light_deadline_passed W d s) as (_ & A1 & B1 & C1 & D1 & _).
  destruct (deadline_passed W d s) as [[[|]|] s1]; cbn [fst snd] in *.
  - (* the deadline has passed: the drain *)
    unfold get. rewrite bind_run. cbn beta iota zeta.
    destruct (ready_gives_drain_conditions th pre r todo s1 Hready1)
      as (Hgtv & Hids & Hel & Hin).
    rewrite py_index_spec by exact Hgtv. rewrite drop_app_length.
    destruct Hready1 as (Hnd & _).
    destruct (drain_spec W th (r :: todo) s1 Hnd Hel Hin Hids)
      as (_ & _ & S & P & vs & evs & F & F2 & _).
    unfold accounted, llen. rewrite S, P, F, length_app.
    apply Forall2_length in F2.
    pose proof (length_without_all (r :: todo) (potential_gaps_db s1) Hnd
                  (ids_distinct_NoDup _ _ Hids) Hin) as Hlen.
    rewrite B1, C1, D1 in *. lia.
  - (* an iteration *)
    rewrite bind_run.
    pose proof (ready_after_iteration W th d _ r todo s1 Hready1) as Hready2.
    destruct Hready1 as (_ & _ & Hids & Hall).
    apply Forall_cons in Hall as [(Hin & Hlive & _) _].
    pose proof (validate_gap_accounted W th d r s1 Hlive Hin Hids) as Hacc.
    assert (Hok : exists s2,
      try_except (validate_gap W th d r) (mret tt) s1 = (Ok tt, s2)).
    { unfold try_except. destruct (validate_gap W th d r s1) as [[[]|] s2]; eauto. }
    destruct Hok as (s2 & Hs2). rewrite Hs2 in *. cbn [fst snd] in *.
    replace (pre ++ r :: todo) with ((pre ++ [r]) ++ todo) in *
      by now rewrite <- app_assoc.
    rewrite (IH (pre ++ [r]) s2 Hready2), Hacc.
    unfold accounted. now rewrite B1, C1, D1.
  - unfold accounted. now rewrite B1, C1, D1.
Qed.

(** X11. Validation loses no gap: under unique ids, every gap that leaves the
    pending store is counted as eliminated or put in the final list, and
    nothing else enters either, so that the pending, the eliminated and the
    validated gaps together number after the pass what they numbered
    before, whether the deadline cuts the pass short or not. *)
Theorem validation_accounts_for_every_gap W th d s :
  ids_distinct (heap s) (potential_gaps_db s) ->
  Forall (fun r => (r < length (heap s))%nat) (potential_gaps_db s) ->
  let s' := (_phase_3_final_validation W th d s).2 in
  llen (potential_gaps_db s') + gaps_eliminated (stats s') + llen (final_gaps_list s')
  = llen (potential_gaps_db s) + gaps_eliminated (stats s) + llen (final_gaps_list s).
Proof.
  intros Hids Hlive. cbn zeta. unfold _phase_3_final_validation, get.
  rewrite bind_run. cbn beta iota zeta.
  apply (validation_loop_accounted W th d _ [] s).
  cbn [app]. now apply ready_at_start.
Qed.

Lemma validation_accounts_for_every_gap_witness :
  let W := W_lab (Ok true) ["doc"] in
  let s := seeded W in
  let s' := (_phase_3_final_validation W 1 None s).2 in
  llen (potential_gaps_db s') + gaps_eliminated (stats s') + llen (final_gaps_list s')
  = llen (potential_gaps_db s) + gaps_eliminated (stats s) + llen (final_gaps_list s).
Proof.
  cbn zeta.
  apply (validation_accounts_for_every_gap (W_lab (Ok true) ["doc"]) 1 None
           (seeded (W_lab (Ok true) ["doc"]))).
  - unfold ids_distinct. apply (bool_decide_unpack _). vm_compute. exact I.
  - assert (E : potential_gaps_db (seeded (W_lab (Ok true) ["doc"])) = [0; 1]%nat)
      by (vm_compute; reflexivity).
    assert (L : length (heap (seeded (W_lab (Ok true) ["doc"]))) = 2%nat)
      by (vm_compute; reflexivity).
    rewrite E, L. repeat constructor.
Defined.

(** ** Synthesis and the clock *)

(** X12. Synthesis divides by the elapsed time: it raises exactly when the clock
    reads the start time again, and in any case its only trace is that
    clock reading. *)
Theorem synthesis_fails_iff_no_time_elapsed W rid seed start s :
  let t := time_time W (length (log s)) in
  let out := _phase_4_synthesis W rid seed start s in
  (out.1 = Raise <-> (t == start)%Q)
  /\ out.2 = set_log (fun l => l ++ [EvClock t]) s.
Proof.
  cbn zeta. rewrite phase_4_run. cbn zeta. cbn [fst snd]. split; [|reflexivity].
  rewrite <- elapsed_zero. unfold synthesize.
  destruct (Qeq_bool _ 0); split; intros H; try reflexivity; discriminate.
Qed.

(** ** A seed text that cannot be analysed *)

(** X13. When the analysis of the seed text returns nothing or raises, the text
    entry point returns its error response, never an exception: no
    validated gap, zeroed counters, no failed extraction counted (the run
    from a document reference counts one), and as papers analysed the number
    that the orchestrator held before the run. The state is left as it was,
    but for the four interactions logged. *)
Theorem text_seed_failure_gives_error_response W analyze_paper_text paper_text
    paper_id max_papers validation_threshold s :
  let n := length (log s) in
  (forall p, analyze_paper_text (n + 2)%nat paper_text paper_id <> Ok (Some p)) ->
  let out := analyze_research_gaps_from_text W analyze_paper_text paper_text
               paper_id max_papers validation_threshold s in
  let resp := error_response_from_text (Py.str_take 8 (uuid4 W n)) paper_id
                (llen (analyzed_papers s))
                (time_time W (n + 3) - time_time W (n + 1))%Q in
  out.1 = Ok resp
  /\ validated_gaps resp = []
  /\ failed_extractions (process_metadata resp) = 0
  /\ total_papers_analyzed (process_metadata resp) = llen (analyzed_papers s)
  /\ frontier_overview (executive_summary resp) = "Analysis failed"
  /\ out.2 = set_log (fun _ => log s ++
               [EvUuid (uuid4 W n); EvClock (time_time W (n + 1));
                EvAnalyze paper_id (analyze_paper_text (n + 2)%nat paper_text paper_id);
                EvClock (time_time W (n + 3))]) s.
Proof.
  intros n Hfail out resp.
  assert (Hout : out = (Ok resp,
            set_log (fun _ => log s ++
               [EvUuid (uuid4 W n); EvClock (time_time W (n + 1));
                EvAnalyze paper_id (analyze_paper_text (n + 2)%nat paper_text paper_id);
                EvClock (time_time W (n + 3))]) s)).
  { subst out resp n. unfold analyze_research_gaps_from_text.
    rewrite bind_run, fresh_id_run, bind_run, now_run.
    cbn [log set_log]. rewrite length_app. cbn [length].
    unfold try_except, seed_from_text, call_analyze_paper_text, interact.
    rewrite !bind_run. cbn beta iota zeta. cbn [log set_log].
    rewrite !length_app. cbn [length].
    replace (length (log s) + 1 + 1)%nat with (length (log s) + 2)%nat by lia.
    assert (Hend : forall r : Res (option PaperAnalysis),
      (s0 ← get; t ← now W;
       mret (error_response_from_text (Py.str_take 8 (uuid4 W (length (log s))))
               paper_id (llen (analyzed_papers s0))
               (t - time_time W (length (log s) + 1))%Q))
        (set_log (fun l => l ++ [EvAnalyze paper_id r])
           (set_log (fun l => l ++ [EvClock (time_time W (length (log s) + 1))])
              (set_log (fun l => l ++ [EvUuid (uuid4 W (length (log s)))]) s)))
      = (Ok (error_response_from_text (Py.str_take 8 (uuid4 W (length (log s))))
               paper_id (llen (analyzed_papers s))
               (time_time W (length (log s) + 3)
                - time_time W (length (log s) + 1))%Q),
         set_log (fun _ => log s ++
            [EvUuid (uuid4 W (length (log s)));
             EvClock (time_time W (length (log s) + 1));
             EvAnalyze paper_id r;
             EvClock (time_time W (length (log s) + 3))]) s)).
    { intros r. unfold get. rewrite bind_run. cbn beta iota zeta.
      rewrite bind_run, now_run. cbn beta iota zeta. rewrite ret_run.
      cbn [analyzed_papers set_log log]. rewrite !length_app. cbn [length].
      replace (length (log s) + 1 + 1 + 1)%nat with (length (log s) + 3)%nat by lia.
      f_equal. unfold set_log. cbn. rewrite <- !app_assoc. reflexivity. }
    destruct (analyze_paper_text (length (log s) + 2)%nat paper_text paper_id)
      as [[p|]|] eqn:Han.
    - exfalso. apply (Hfail p). reflexivity.
    - unfold raise. apply Hend.
    - apply Hend. }
  rewrite Hout. cbn [fst snd]. repeat split.
Qed.

Lemma text_seed_failure_gives_error_response_witness :
  let out := analyze_research_gaps_from_text W_dead (fun _ _ _ => Raise)
               "text" "test_paper" 10 2 initialize in
  exists resp,
    out.1 = Ok resp /\ validated_gaps resp = []
    /\ failed_extractions (process_metadata resp) = 0.
Proof.
  cbn zeta. eexists.
  pose proof (text_seed_failure_gives_error_response W_dead (fun _ _ _ => Raise)
                "text" "test_paper" 10 2 initialize) as H.
  cbn zeta in H. destruct H as (H1 & H2 & H3 & _).
  - intros p. discriminate.
  - split; [exact H1|]. split; [exact H2 | exact H3].
Defined.

(** ** The branch that skips validation, in general *)

Lemma enrich_all_spec W gaps s :
  let out := enrich_all W gaps s in
  out.1 = Ok tt
  /\ heap out.2 = heap s
  /\ potential_gaps_db out.2 = potential_gaps_db s
  /\ stats out.2 = stats s
  /\ exists vs evs,
       final_gaps_list out.2 = final_gaps_list s ++ vs
       /\ Forall2 (fun x v => is_enrichment_of W (heap s !!! x) v) gaps vs
       /\ log out.2 = log s ++ evs
       /\ Forall is_enrich evs
       /\ length evs = length gaps.
Proof.
  revert s. induction gaps as [|x gaps IH]; intros s.
  - cbn. repeat split. exists [], []. rewrite !app_nil_r. repeat split; constructor.
  - cbn [enrich_all]. rewrite bind_run, enrich_into_final_run.
    match goal with |- context [enrich_all W gaps ?t] =>
      destruct (IH t) as (R1 & R2 & R3 & R4 & vs & evs & R5 & R6 & R7 & R8 & R9);
      destruct (enrich_all W gaps t) as [res s1]
    end.
    cbn in R1, R2, R3, R4, R5, R6, R7 |- *.
    rewrite R2, R3, R4, R5, R7. repeat split; [exact R1|].
    exists (enrichment_of W s x :: vs), (EvEnrich (heap s !!! x)
             (enrich_validated_gap W (length (log s)) (heap s !!! x)) :: evs).
    rewrite <- !app_assoc. repeat split.
    + constructor; [apply enrichment_of_is_enrichment | exact R6].
    + constructor; [exact I | exact R8].
    + cbn. now rewrite R9.
Qed.

(** X14. When validation is skipped (the deadline passed during expansion, or a
    threshold of 0 or less), the driver reports the first five pending gaps
    as validated: one enrichment each, in order, the validator's or the
    quick one. Nothing else changes: the gaps stay in the pending store,
    they take no strike, no counter moves (no validation attempt is
    counted), and the only interactions are the enrichment calls. *)
Theorem skipped_validation_reports_first_five W s :
  let gaps := take 5 (potential_gaps_db s) in
  let out := enrich_all W gaps s in
  out.1 = Ok tt
  /\ potential_gaps_db out.2 = potential_gaps_db s
  /\ heap out.2 = heap s
  /\ stats out.2 = stats s
  /\ (exists vs,
        final_gaps_list out.2 = final_gaps_list s ++ vs
        /\ Forall2 (fun x v => is_enrichment_of W (heap s !!! x) v) gaps vs
        /\ (length vs <= 5)%nat)
  /\ exists evs,
       new_events s out.2 = evs /\ Forall is_enrich evs
       /\ length evs = length gaps.
Proof.
  cbn zeta.
  destruct (enrich_all_spec W (take 5 (potential_gaps_db s)) s)
    as (R1 & R2 & R3 & R4 & vs & evs & R5 & R6 & R7 & R8 & R9).
  cbn zeta in *. repeat (split; [assumption|]). split.
  - exists vs. split; [exact R5|]. split; [exact R6|].
    apply Forall2_length in R6. rewrite <- R6, length_take. lia.
  - exists evs. split; [now apply new_events_app|]. now split.
Qed.

(** ** The documents read for one gap in validation *)

Lemma analyses_app evs1 evs2 : analyses (evs1 ++ evs2) = (analyses evs1 + analyses evs2)%nat.
Proof. unfold analyses. now rewrite List.filter_app, length_app. Qed.

Lemma analyze_validation_papers_reads W urls acc s :
  let out := analyze_validation_papers W urls acc s in
  exists new evs,
    analyzed_papers out.2 = analyzed_papers s ++ new
    /\ log out.2 = log s ++ evs
    /\ (length new <= analyses evs)%nat
    /\ (analyses evs <= length urls)%nat
    /\ match out.1 with Ok ps => ps = acc ++ new | Raise => True end.
Proof.
  revert acc s. induction urls as [|u urls IH]; intros acc s.
  - exists [], []. cbn. rewrite !app_nil_r. repeat split; lia.
  - cbn [analyze_validation_papers]. unfold get. rewrite bind_run.
    cbn beta iota zeta.
    destruct (bool_decide (u ∈ map url (analyzed_papers s))).
    { destruct (IH acc s) as (new & evs & A & L & N1 & N2 & R).
      exists new, evs. cbn zeta in *. cbn [length]. repeat split; auto; lia. }
    unfold call_analyze_paper, interact. rewrite bind_run. cbn beta iota zeta.
    destruct (analyze_paper W (length (log s)) u) as [[p|]|] eqn:Han.
    + unfold modify. rewrite bind_run. cbn beta iota zeta.
      match goal with |- context [analyze_validation_papers W urls ?a ?t] =>
        destruct (IH a t) as (new & evs & A & L & N1 & N2 & R);
        destruct (analyze_validation_papers W urls a t) as [res s1]
      end.
      cbn in A, L, R |- *.
      exists (p :: new), (EvAnalyze u (Ok (Some p)) :: evs).
      rewrite A, L, <- !app_assoc. cbn [length]. unfold analyses in *. cbn.
      repeat split; try lia.
      destruct res; [|exact I]. now rewrite R, <- app_assoc.
    + match goal with |- context [analyze_validation_papers W urls ?a ?t] =>
        destruct (IH a t) as (new & evs & A & L & N1 & N2 & R);
        destruct (analyze_validation_papers W urls a t) as [res s1]
      end.
      cbn in A, L, R |- *.
      exists new, (EvAnalyze u (Ok None) :: evs).
      rewrite A, L, <- !app_assoc. cbn [length]. unfold analyses in *. cbn.
      repeat split; try lia. exact R.
    + cbn. exists [], [EvAnalyze u Raise]. rewrite app_nil_r.
      unfold analyses. cbn. repeat split; lia.
Qed.

(** X15. For one gap, validation analyses at most two of the documents that the
    search returns, and only one when the deadline is less than 30 seconds
    away at the clock reading made before; every document analysed with
    success is appended to the analysed papers, and these documents, in
    order, are the validation papers handed to the validator. *)
Theorem validation_reads_at_most_two_documents W d r s :
  let out := find_validation_papers W d r s in
  exists new_papers,
    analyzed_papers out.2 = analyzed_papers s ++ new_papers
    /\ (length new_papers <= analyses (new_events s out.2))%nat
    /\ (analyses (new_events s out.2) <= 2)%nat
    /\ (forall ps, out.1 = Ok ps -> ps = new_papers)
    /\ (forall dl, d = Some dl -> Py.truthy dl = true ->
          (dl < time_time W (length (log s) + 2) + 30)%Q ->
          (analyses (new_events s out.2) <= 1)%nat).
Proof.
  cbn zeta. unfold find_validation_papers, read_gap. rewrite bind_run.
  cbn beta iota zeta. rewrite bind_run.
  set (g := heap s !!! r).
  (* step 3.1 *)
  assert (H31 : exists s1 qs e1,
    try_except
      (qs ← call_generate_validation_queries W g;
       modify (set_stats (add_search_queries_executed (Z.of_nat (length qs))));;
       mret qs) (mret (fallback_queries g)) s = (Ok qs, s1)
    /\ log s1 = log s ++ [e1] /\ analyses [e1] = 0%nat
    /\ analyzed_papers s1 = analyzed_papers s).
  { unfold try_except, call_generate_validation_queries, interact, modify.
    rewrite bind_run. cbn beta iota zeta.
    destruct (generate_validation_queries W (length (log s)) g) as [qs|].
    - rewrite bind_run. cbn beta iota zeta. rewrite ret_run.
      eexists _, qs, _. split; [reflexivity|]. cbn. repeat split.
    - rewrite ret_run. eexists _, _, _. split; [reflexivity|]. cbn. repeat split. }
  destruct H31 as (s1 & qs & e1 & -> & L1 & N1 & A1).
  (* step 3.2 *)
  unfold call_search_for_gap_validation, interact. rewrite bind_run.
  cbn beta iota zeta.
  destruct (search_for_gap_validation W (length (log s1)) (description g))
    as [urls|] eqn:Hs.
  2:{ cbn [fst snd]. exists []. rewrite app_nil_r.
      assert (L : log (set_log (fun l => l ++
                    [EvSearchValidation (description g) Raise]) s1)
                  = log s ++ [e1; EvSearchValidation (description g) Raise]).
      { cbn. rewrite L1, <- app_assoc. reflexivity. }
      rewrite (new_events_app _ _ _ L).
      assert (N : analyses [e1; EvSearchValidation (description g) Raise] = 0%nat).
      { change [e1; EvSearchValidation (description g) Raise]
          with ([e1] ++ [EvSearchValidation (description g) Raise]).
        rewrite analyses_app, N1. reflexivity. }
      rewrite N. cbn. repeat split; try lia; try assumption. discriminate. }
  set (s2 := set_log _ s1).
  assert (L2 : log s2 = log s ++ [e1; EvSearchValidation (description g) (Ok urls)]).
  { subst s2. cbn. rewrite L1, <- app_assoc. reflexivity. }
  assert (Hlen2 : length (log s2) = (length (log s) + 2)%nat).
  { rewrite L2, length_app. reflexivity. }
  (* the number of documents to analyse *)
  assert (H33 : exists s3 n e3,
    match d with
    | None => mret 2%nat
    | Some d0 =>
        if Py.truthy d0 then
          t ← now W; mret (if Qlt_le_dec d0 (t + 30) then 1%nat else 2%nat)
        else mret 2%nat
    end s2 = (Ok n, s3)
    /\ log s3 = log s2 ++ e3 /\ analyses e3 = 0%nat
    /\ analyzed_papers s3 = analyzed_papers s2
    /\ (n <= 2)%nat
    /\ (forall dl, d = Some dl -> Py.truthy dl = true ->
          (dl < time_time W (length (log s) + 2) + 30)%Q -> (n <= 1)%nat)).
  { destruct d as [d0|].
    - destruct (Py.truthy d0) eqn:Ht.
      + rewrite bind_run, now_run. cbn beta iota zeta. rewrite ret_run.
        eexists _, _, [_]. split; [reflexivity|]. cbn [log set_log].
        split; [reflexivity|]. split; [reflexivity|]. split; [reflexivity|].
        rewrite Hlen2. split.
        * destruct (Qlt_le_dec _ _); lia.
        * intros dl [= <-] _ Hlt. destruct (Qlt_le_dec _ _) as [|Hle]; [lia|].
          exfalso. apply (Qlt_not_le _ _ Hlt). exact Hle.
      + rewrite ret_run. exists s2, 2%nat, []. rewrite app_nil_r.
        repeat split; try lia. intros dl [= <-] Ht'. congruence.
    - rewrite ret_run. exists s2, 2%nat, []. rewrite app_nil_r.
      repeat split; try lia. intros dl [=]. }
  rewrite bind_run.
  destruct H33 as (s3 & n & e3 & -> & L3 & N3 & A3 & Hn & Hn1).
  destruct (analyze_validation_papers_reads W (take n urls) [] s3)
    as (new & evs & A4 & L4 & M1 & M2 & R4).
  destruct (analyze_validation_papers W (take n urls) [] s3) as [res s4].
  cbn [fst snd] in *.
  assert (L : log s4 = log s ++ ([e1] ++ [EvSearchValidation (description g) (Ok urls)]
                                   ++ e3 ++ evs)).
  { rewrite L4, L3, L2, <- !app_assoc. reflexivity. }
  rewrite (new_events_app _ _ _ L), !analyses_app, N1, N3.
  change (analyses [EvSearchValidation (description g) (Ok urls)]) with 0%nat.
  rewrite length_take in M2.
  exists new. rewrite A4, A3. subst s2. cbn [analyzed_papers set_log]. rewrite A1.
  split; [reflexivity|]. split; [lia|]. split; [lia|]. split.
  - intros ps Hres. rewrite Hres in R4. exact R4.
  - intros dl Hd Ht Hlt. specialize (Hn1 dl Hd Ht Hlt). lia.
Qed.

(** ** Validating the pending gaps against one document *)

Lemma invalidated_by_elem W paper h n gaps x :
  x ∈ invalidated_by W paper h n gaps -> x ∈ gaps.
Proof.
  revert n. induction gaps as [|r gaps IH]; intros n; cbn; [auto|].
  intros Hx. apply elem_of_app in Hx as [Hx|Hx].
  - destruct (validate_gap_against_papers W n (h !!! r) [paper]) as [[|]|];
      try (now inversion Hx).
    apply list_elem_of_singleton in Hx as ->. apply list_elem_of_here.
  - apply list_elem_of_further. eauto.
Qed.

Lemma invalidated_by_NoDup W paper h n gaps :
  NoDup gaps -> NoDup (invalidated_by W paper h n gaps).
Proof.
  revert n. induction gaps as [|r gaps IH]; intros n Hnd; cbn; [constructor|].
  apply NoDup_cons in Hnd as [Hr Hnd].
  destruct (validate_gap_against_papers W n (h !!! r) [paper]) as [[|]|];
    cbn; try (now apply IH).
  apply NoDup_cons. split; [|now apply IH].
  intros Hin. apply Hr. eapply invalidated_by_elem; eauto.
Qed.

Lemma collect_invalidated_spec W paper gaps acc s :
  let out := collect_invalidated W paper gaps acc s in
  let gone := invalidated_by W paper (heap s) (length (log s)) gaps in
  out.1 = Ok (acc ++ gone)
  /\ heap out.2 = heap s
  /\ potential_gaps_db out.2 = potential_gaps_db s
  /\ final_gaps_list out.2 = final_gaps_list s
  /\ gaps_eliminated (stats out.2) = gaps_eliminated (stats s) + llen gone
  /\ exists evs, log out.2 = log s ++ evs /\ length evs = length gaps.
Proof.
  revert acc s. induction gaps as [|r gaps IH]; intros acc s.
  - cbn. rewrite app_nil_r. unfold llen. cbn. repeat split; try lia.
    exists []. now rewrite app_nil_r.
  - cbn [collect_invalidated invalidated_by]. rewrite bind_run.
    unfold try_except, read_gap, call_validate_gap_against_papers, interact.
    rewrite !bind_run. cbn beta iota zeta.
    set (res := validate_gap_against_papers W (length (log s)) (heap s !!! r) [paper]).
    set (e := EvValidate (heap s !!! r) [paper] res).
    assert (Hstep : forall acc' s1,
      heap s1 = heap s -> potential_gaps_db s1 = potential_gaps_db s ->
      final_gaps_list s1 = final_gaps_list s -> log s1 = log s ++ [e] ->
      forall k, gaps_eliminated (stats s1) = gaps_eliminated (stats s) + k ->
      forall first, llen first = k ->
      let out := collect_invalidated W paper gaps acc' s1 in
      let gone := first ++ invalidated_by W paper (heap s) (S (length (log s))) gaps in
      out.1 = Ok (acc' ++ invalidated_by W paper (heap s) (S (length (log s))) gaps)
      /\ heap out.2 = heap s
      /\ potential_gaps_db out.2 = potential_gaps_db s
      /\ final_gaps_list out.2 = final_gaps_list s
      /\ gaps_eliminated (stats out.2) = gaps_eliminated (stats s) + llen gone
      /\ exists evs, log out.2 = log s ++ evs /\ length evs = S (length gaps)).
    { intros acc' s1 A B C L k D first Hk.
      destruct (IH acc' s1) as (R1 & R2 & R3 & R4 & R5 & evs & R6 & R7).
      cbn zeta in *. rewrite A in R1, R2, R5. rewrite L, length_app in R1, R5.
      cbn [length] in R1, R5.
      replace (length (log s) + 1)%nat with (S (length (log s))) in R1, R5 by lia.
      rewrite R1, R2, R3, R4, R5, B, C, D. repeat split.
      - unfold llen in *. rewrite length_app. lia.
      - exists (e :: evs). rewrite R6, L, <- app_assoc. cbn. now rewrite R7. }
    subst e. destruct res as [[|]|].
    + rewrite bind_run. unfold modify. cbn beta iota zeta. rewrite ret_run.
      match goal with |- context [collect_invalidated W paper gaps ?a ?t] =>
        destruct (Hstep a t eq_refl eq_refl eq_refl eq_refl 1 eq_refl [r] eq_refl)
          as (R1 & R)
      end.
      cbn zeta in *. rewrite R1, <- app_assoc. split; [reflexivity | exact R].
    + rewrite ret_run.
      match goal with |- context [collect_invalidated W paper gaps ?a ?t] =>
        destruct (Hstep a t eq_refl eq_refl eq_refl eq_refl 0
                    (eq_sym (Z.add_0_r _)) [] eq_refl) as (R1 & R)
      end.
      cbn zeta in *. rewrite R1. split; [reflexivity | exact R].
    + rewrite ret_run.
      match goal with |- context [collect_invalidated W paper gaps ?a ?t] =>
        destruct (Hstep a t eq_refl eq_refl eq_refl eq_refl 0
                    (eq_sym (Z.add_0_r _)) [] eq_refl) as (R1 & R)
      end.
      cbn zeta in *. rewrite R1. split; [reflexivity | exact R].
Qed.

Lemma remove_invalidated_spec rem s :
  NoDup rem ->
  Forall (fun x => x ∈ potential_gaps_db s) rem ->
  ids_distinct (heap s) (potential_gaps_db s) ->
  remove_invalidated rem s
  = (Ok tt, set_potential_gaps_db
              (fun _ => without_all rem (potential_gaps_db s)) s).
Proof.
  revert s. induction rem as [|x rem IH]; intros s Hnd Hin Hids.
  - cbn. rewrite ret_run. destruct s; reflexivity.
  - apply NoDup_cons in Hnd as [Hx Hnd]. apply Forall_cons in Hin as [Hxi Hin].
    cbn [remove_invalidated]. rewrite bind_run. unfold remove_pending.
    rewrite py_remove_spec by assumption.
    rewrite IH; [reflexivity | exact Hnd | | cbn; now apply ids_distinct_without].
    cbn. apply Forall_forall. intros y Hy. apply elem_of_without. split.
    + eapply Forall_forall in Hin; eauto.
    + intros ->. contradiction.
Qed.

(** X16. [_validate_gaps_against_paper] asks the validator once about every
    pending gap, against the one document; a failing call counts as "not
    invalidated". Under unique ids it never raises; the gaps declared
    invalidated, and only they, leave the pending store, the others keeping
    their order; and the eliminated counter grows by their number. *)
Theorem validate_gaps_against_paper_spec W paper s :
  ids_distinct (heap s) (potential_gaps_db s) ->
  let out := _validate_gaps_against_paper W paper s in
  let gone := invalidated_by W paper (heap s) (length (log s)) (potential_gaps_db s) in
  out.1 = Ok tt
  /\ potential_gaps_db out.2 = without_all gone (potential_gaps_db s)
  /\ (forall r, r ∈ potential_gaps_db out.2 <-> r ∈ potential_gaps_db s /\ r ∉ gone)
  /\ gaps_eliminated (stats out.2) = gaps_eliminated (stats s) + llen gone
  /\ heap out.2 = heap s
  /\ final_gaps_list out.2 = final_gaps_list s
  /\ length (new_events s out.2) = length (potential_gaps_db s).
Proof.
  intros Hids out gone. subst out. unfold _validate_gaps_against_paper, get.
  rewrite bind_run. cbn beta iota zeta. rewrite bind_run.
  destruct (collect_invalidated_spec W paper (potential_gaps_db s) [] s)
    as (R1 & R2 & R3 & R4 & R5 & evs & R6 & R7).
  destruct (collect_invalidated W paper (potential_gaps_db s) [] s) as [res s1].
  cbn [fst snd app] in *. fold gone in R1, R5. subst res.
  rewrite remove_invalidated_spec.
  - cbn [fst snd potential_gaps_db set_potential_gaps_db heap stats
         final_gaps_list]. rewrite R3.
    split; [reflexivity|]. split; [reflexivity|].
    split; [intros r; apply elem_of_without_all|].
    repeat (split; [assumption|]).
    unfold new_events. cbn [log set_potential_gaps_db]. rewrite R6.
    now rewrite drop_app_length.
  - apply invalidated_by_NoDup. now apply ids_distinct_NoDup in Hids.
  - rewrite R3. apply Forall_forall. intros x Hx.
    eapply invalidated_by_elem; eauto.
  - now rewrite R2, R3.
Qed.

Lemma validate_gaps_against_paper_spec_witness :
  let W := W_lab (Ok true) [] in
  let out := _validate_gaps_against_paper W (paper_of "doc" []) (seeded W) in
  out.1 = Ok tt
  /\ potential_gaps_db out.2
     = without_all (invalidated_by W (paper_of "doc" []) (heap (seeded W))
                      (length (log (seeded W))) (potential_gaps_db (seeded W)))
         (potential_gaps_db (seeded W)).
Proof.
  cbn zeta.
  destruct (validate_gaps_against_paper_spec (W_lab (Ok true) [])
              (paper_of "doc" []) (seeded (W_lab (Ok true) [])))
    as (H1 & H2 & _).
  - unfold ids_distinct. apply (bool_decide_unpack _). vm_compute. exact I.
  - split; [exact H1 | exact H2].
Defined.

(** On the two gaps of the laboratory seed, with a validator that
    invalidates everything: both are eliminated. *)
Example validate_gaps_against_paper_ex :
  let W := W_lab (Ok true) [] in
  let s' := (_validate_gaps_against_paper W (paper_of "doc" []) (seeded W)).2 in
  potential_gaps_db s' = [] /\ gaps_eliminated (stats s') = 2.
Proof. vm_compute. split; reflexivity. Qed.

(** ** The searches *)

(** X17. The search for solutions never raises: a failure of the query generator
    or of the search gives the empty list. It asks for queries about the gap
    and searches with the limit it is given, makes at most these two calls,
    and leaves the counters and the gap stores alone: it counts no query. *)
Theorem gap_solution_search_never_raises W g limit s :
  let out := _search_for_gap_solutions W g limit s in
  (exists urls, out.1 = Ok urls)
  /\ Forall (solution_search_event g limit) (new_events s out.2)
  /\ (length (new_events s out.2) <= 2)%nat
  /\ (forall urls, out.1 = Ok urls -> urls <> [] ->
        exists qs, EvSearch qs limit (Ok urls) ∈ new_events s out.2)
  /\ stats out.2 = stats s
  /\ heap out.2 = heap s
  /\ potential_gaps_db out.2 = potential_gaps_db s
  /\ final_gaps_list out.2 = final_gaps_list s.
Proof.
  cbn zeta. unfold _search_for_gap_solutions, try_except,
    call_generate_validation_queries, call_search_papers, interact.
  rewrite bind_run. cbn beta iota zeta.
  destruct (generate_validation_queries W (length (log s)) g) as [qs|].
  - cbn beta iota zeta. cbn [log set_log].
    destruct (search_papers W _ qs limit) as [urls|]; cbn [fst snd].
    + unfold new_events. cbn [log set_log]. rewrite <- app_assoc, drop_app_length.
      split; [eauto|]. split; [solve_events|]. split; [cbn; lia|].
      split; [|repeat split].
      intros urls' [= <-] _. exists qs. apply list_elem_of_further, list_elem_of_here.
    + rewrite ret_run. unfold new_events. cbn [fst snd log set_log].
      rewrite <- app_assoc, drop_app_length.
      split; [eauto|]. split; [solve_events|]. split; [cbn; lia|].
      split; [|repeat split]. intros urls' [= <-] H. congruence.
  - rewrite ret_run. unfold new_events. cbn [fst snd log set_log].
    rewrite drop_app_length.
    split; [eauto|]. split; [solve_events|]. split; [cbn; lia|].
    split; [|repeat split]. intros urls' [= <-] H. congruence.
Qed.

Lemma length_take_le {A} (k : nat) (l : list A) : (length (take k l) <= k)%nat.
Proof. rewrite length_take. lia. Qed.

Lemma Forall_take_filter_nonempty k (l : list string) :
  Forall (fun q => q <> "")
    (take k (List.filter (fun q => negb (String.eqb q "")) l)).
Proof.
  apply Forall_take, Forall_forall. intros q Hq.
  apply list_elem_of_In, filter_In in Hq as [_ Hq].
  apply negb_true_iff, String.eqb_neq in Hq. exact Hq.
Qed.

(** The block shared by [_search_for_related_research] and
    [_discover_related_papers]: ask the model about [subject], keep the
    first [k] non-empty stripped lines of the answer as queries, count and
    search them; any failure gives the empty list. *)
Lemma related_search_run W (gen : nat -> string -> Res string) subject k s :
  let out :=
    try_except
      (text ← interact (fun i => gen i subject) (EvGenerate subject);
       let queries :=
         take k (List.filter (fun q => negb (String.eqb q ""))
                   (map Py.strip (Py.split_nl (Py.strip text)))) in
       match queries with
       | [] => mret []
       | _ =>
           modify (set_stats
             (add_search_queries_executed (Z.of_nat (length queries))));;
           call_search_papers W queries 1
       end)
      (mret []) s in
  (exists urls, out.1 = Ok urls)
  /\ Forall (related_search_event k subject) (new_events s out.2)
  /\ search_queries_executed (stats out.2)
     = search_queries_executed (stats s) + queries_searched (new_events s out.2)
  /\ heap out.2 = heap s
  /\ potential_gaps_db out.2 = potential_gaps_db s
  /\ final_gaps_list out.2 = final_gaps_list s.
Proof.
  cbn zeta. unfold try_except, interact. rewrite bind_run. cbn beta iota zeta.
  destruct (gen (length (log s)) subject) as [text|].
  2:{ rewrite ret_run. unfold new_events. cbn [fst snd log set_log].
      rewrite drop_app_length. cbn.
      split; [eauto|]. split; [solve_events|]. repeat split. lia. }
  pose proof (length_take_le k (List.filter (fun q => negb (String.eqb q ""))
                (map Py.strip (Py.split_nl (Py.strip text))))) as Hlen.
  pose proof (Forall_take_filter_nonempty k
                (map Py.strip (Py.split_nl (Py.strip text)))) as Hne.
  destruct (take k _) as [|q qs] eqn:E.
  - rewrite ret_run. unfold new_events. cbn [fst snd log set_log].
    rewrite drop_app_length. cbn.
    split; [eauto|]. split; [solve_events|]. repeat split. lia.
  - unfold modify, call_search_papers, interact. rewrite bind_run.
    cbn beta iota zeta. cbn [log set_log set_stats].
    set (res := search_papers W _ (q :: qs) 1).
    assert (He : related_search_event k subject (EvSearch (q :: qs) 1 res)).
    { cbn. split; [reflexivity|]. split; [cbn in Hlen; lia | exact Hne]. }
    destruct res as [urls|]; [|rewrite ret_run];
      unfold new_events; cbn [fst snd log set_log set_stats];
      rewrite <- app_assoc, drop_app_length; cbn;
      (split; [eauto|]); (split; [solve_events|]); repeat split; lia.
Qed.

(** X18. The search for related research never raises, and without a model it
    does nothing at all. With one, it asks the model about the description
    of the gap, and searches, one result per query, for at most two
    queries, none of them empty. The query counter grows by the number of
    queries handed to the search, whether the search succeeds or not; the
    gap stores are not touched. *)
Theorem related_research_search_spec W g s :
  let out := _search_for_related_research W g s in
  (exists urls, out.1 = Ok urls)
  /\ (model W = None -> out = (Ok [], s))
  /\ Forall (related_search_event 2 (description g)) (new_events s out.2)
  /\ search_queries_executed (stats out.2)
     = search_queries_executed (stats s) + queries_searched (new_events s out.2)
  /\ heap out.2 = heap s
  /\ potential_gaps_db out.2 = potential_gaps_db s
  /\ final_gaps_list out.2 = final_gaps_list s.
Proof.
  cbn zeta. unfold _search_for_related_research.
  destruct (model W) as [gen|].
  - destruct (related_search_run W gen (description g) 2 s) as (A & B & C).
    split; [exact A|]. split; [discriminate|]. split; [exact B|]. exact C.
  - unfold try_except. rewrite ret_run. unfold new_events. cbn [fst snd].
    rewrite drop_all. cbn. split; [eauto|]. split; [reflexivity|].
    split; [constructor|]. repeat split. lia.
Qed.

(** X19. [_discover_related_papers] never raises, and does nothing at all
    without a model or for a paper without key findings. Otherwise it asks
    the model about the first three findings, joined, and searches, one
    result per query, for at most three queries, none of them empty; the
    query counter grows by the number of queries handed to the search. *)
Theorem discover_related_papers_spec W paper s :
  let out := _discover_related_papers W paper s in
  (exists urls, out.1 = Ok urls)
  /\ (model W = None \/ key_findings paper = [] -> out = (Ok [], s))
  /\ Forall (related_search_event 3
               (Py.join "; " (take 3 (key_findings paper))))
       (new_events s out.2)
  /\ search_queries_executed (stats out.2)
     = search_queries_executed (stats s) + queries_searched (new_events s out.2)
  /\ heap out.2 = heap s
  /\ potential_gaps_db out.2 = potential_gaps_db s
  /\ final_gaps_list out.2 = final_gaps_list s.
Proof.
  cbn zeta. unfold _discover_related_papers.
  assert (Hidle : let out := (mret [] : M (list string)) s in
    (exists urls, out.1 = Ok urls)
    /\ out = (Ok [], s)
    /\ Forall (related_search_event 3
                 (Py.join "; " (take 3 (key_findings paper))))
         (new_events s out.2)
    /\ search_queries_executed (stats out.2)
       = search_queries_executed (stats s) + queries_searched (new_events s out.2)
    /\ heap out.2 = heap s
    /\ potential_gaps_db out.2 = potential_gaps_db s
    /\ final_gaps_list out.2 = final_gaps_list s).
  { cbn zeta. rewrite ret_run. unfold new_events. cbn [fst snd].
    rewrite drop_all. cbn. split; [eauto|]. split; [reflexivity|].
    split; [constructor|]. repeat split. lia. }
  cbn zeta in Hidle. destruct Hidle as (I1 & I2 & I3).
  destruct (model W) as [gen|]; [|split; [exact I1|]; split; [auto | exact I3]].
  destruct (key_findings paper) as [|f fs] eqn:Hk;
    [split; [exact I1|]; split; [auto | exact I3]|].
  destruct (related_search_run W gen (Py.join "; " (take 3 (f :: fs))) 3 s)
    as (A & B & C).
  split; [exact A|]. split; [|split; [exact B | exact C]].
  intros [H|H]; discriminate.
Qed.

(** ** The quick enrichment *)

Lemma clamp_bounds (lo hi b x : Q) :
  (lo <= b)%Q -> (b <= hi)%Q -> (b <= x)%Q ->
  (b <= Qmin hi (Qmax lo x) <= hi)%Q.
Proof.
  intros H1 H2 H3. split; [|apply Q.le_min_l].
  apply Q.min_glb; [exact H2|].
  eapply Qle_trans; [exact H3 | apply Q.le_max_r].
Qed.

Lemma share_nonneg (wc c : Z) : 0 <= wc -> 0 < c -> (0 <= inject_Z wc / inject_Z c)%Q.
Proof.
  intros Hw Hc. apply Qle_shift_div_l.
  - change 0%Q with (inject_Z 0). rewrite <- Zlt_Qlt. exact Hc.
  - rewrite Qmult_0_l. change 0%Q with (inject_Z 0). rewrite <- Zle_Qle. exact Hw.
Qed.

(** X20. The metrics of a quick enrichment stay in fixed ranges whatever the
    description of the gap: difficulty in [5, 8], innovation potential in
    [7, 9], commercial viability in [5.5, 8], funding likelihood in
    [60, 90], collaboration score in [5, 9] and ethical considerations in
    [3, 7]; and the time to solution is a range of years [lo-hi] with
    [1 <= lo <= hi]. *)
Theorem quick_enrichment_metrics_in_range gap :
  let m := vg_gap_metrics (_quick_gap_enrichment gap) in
  (5 <= difficulty_score m <= 8)%Q
  /\ (7 <= innovation_potential m <= 9)%Q
  /\ (5.5 <= commercial_viability m <= 8)%Q
  /\ 60 <= funding_likelihood m <= 90
  /\ (5 <= collaboration_score m <= 9)%Q
  /\ (3 <= ethical_considerations m <= 7)%Q
  /\ exists lo hi,
       time_to_solution m = pretty lo +:+ "-" +:+ pretty hi +:+ " years"
       /\ 1 <= lo <= hi.
Proof.
  cbn zeta. unfold _quick_gap_enrichment. cbn [vg_gap_metrics difficulty_score
    innovation_potential commercial_viability funding_likelihood
    collaboration_score ethical_considerations time_to_solution].
  set (wc := Z.of_nat (length (Py.split_ws (description gap)))).
  assert (Hwc : 0 <= wc) by (subst wc; lia).
  assert (Hlen : 0 <= Py.len (description gap)) by (unfold Py.len; lia).
  pose proof (share_nonneg wc 20 Hwc eq_refl) as H20.
  pose proof (share_nonneg wc 30 Hwc eq_refl) as H30.
  pose proof (share_nonneg wc 15 Hwc eq_refl) as H15.
  pose proof (share_nonneg wc 25 Hwc eq_refl) as H25.
  pose proof (share_nonneg (Py.len (description gap)) 100 Hlen eq_refl) as H100.
  change (inject_Z 20) with 20%Q in H20. change (inject_Z 30) with 30%Q in H30.
  change (inject_Z 15) with 15%Q in H15. change (inject_Z 25) with 25%Q in H25.
  change (inject_Z 100) with 100%Q in H100.
  split; [apply clamp_bounds; lra|]. split; [apply clamp_bounds; lra|].
  split; [apply clamp_bounds; lra|]. split; [lia|].
  split; [apply clamp_bounds; lra|]. split; [apply clamp_bounds; lra|].
  exists (Z.max 1 (wc / 10)), (Z.max 2 (wc / 8)). split; [reflexivity|].
  assert (wc / 10 <= wc / 8) by (apply Z.div_le_compat_l; lia). lia.
Qed.

Lemma str_take_length n s :
  String.length (Py.str_take n s) = Nat.min n (String.length s).
Proof.
  revert s. induction n as [|n IH]; intros [|c s]; try reflexivity.
  unfold Py.str_take. fold Py.str_take. cbn [String.length]. now rewrite IH.
Qed.

Lemma str_take_prefix n s : String.prefix (Py.str_take n s) s = true.
Proof.
  revert s. induction n as [|n IH]; intros [|c s]; try reflexivity.
  unfold Py.str_take. fold Py.str_take. cbn [String.prefix].
  destruct (Ascii.ascii_dec c c); [apply IH | congruence].
Qed.

Lemma str_take_all n s : (String.length s <= n)%nat -> Py.str_take n s = s.
Proof.
  revert s. induction n as [|n IH]; intros [|c s] H; try reflexivity.
  - cbn in H. lia.
  - unfold Py.str_take. fold Py.str_take. f_equal. apply IH. cbn in H. lia.
Qed.

(** X21. A quick enrichment stands for its gap: it carries over the id, the
    description and the source of the gap, reports the strikes of the gap as
    its validation attempts, and is titled with the description itself when
    that has at most 100 characters, with its first 100 characters
    otherwise. *)
Theorem quick_enrichment_stands_for_its_gap gap :
  let v := _quick_gap_enrichment gap in
  vg_gap_id v = gap_id gap
  /\ vg_description v = description gap
  /\ vg_source_paper v = source_paper gap
  /\ vg_source_paper_title v = source_paper_title gap
  /\ vg_validation_attempts v = validation_strikes gap
  /\ String.prefix (vg_gap_title v) (description gap) = true
  /\ String.length (vg_gap_title v) = Nat.min 100 (String.length (description gap))
  /\ ((String.length (description gap) <= 100)%nat ->
        vg_gap_title v = description gap).
Proof.
  cbn zeta. unfold _quick_gap_enrichment. cbn.
  repeat (split; [reflexivity|]).
  split; [apply str_take_prefix|]. split; [apply str_take_length|].
  apply str_take_all.
Qed.

(** ** The research clusters *)

Lemma cluster_add_get c c' m :
  cluster_get c (cluster_add c' m)
  = cluster_get c m + (if String.eqb c' c then 1 else 0).
Proof.
  induction m as [|[k v] m IH]; cbn.
  - destruct (String.eqb c' c); reflexivity.
  - destruct (String.eqb_spec k c') as [->|Hne]; cbn.
    + destruct (String.eqb c' c); lia.
    + destruct (String.eqb_spec k c) as [->|Hkc].
      * destruct (String.eqb_spec c' c) as [->|_]; [congruence | lia].
      * exact IH.
Qed.

Lemma cluster_add_keys c m x :
  x ∈ map fst (cluster_add c m) <-> x = c \/ x ∈ map fst m.
Proof.
  induction m as [|[k v] m IH]; cbn.
  - rewrite list_elem_of_singleton. split; [auto | intros [H|H]; [auto | inversion H]].
  - destruct (String.eqb_spec k c) as [->|Hne]; cbn.
    + rewrite elem_of_cons. tauto.
    + rewrite !elem_of_cons, IH. tauto.
Qed.

Lemma cluster_add_NoDup c m : NoDup (map fst m) -> NoDup (map fst (cluster_add c m)).
Proof.
  induction m as [|[k v] m IH]; cbn; intros H.
  - apply NoDup_singleton.
  - apply NoDup_cons in H as [Hk Hnd].
    destruct (String.eqb_spec k c) as [->|Hne]; cbn.
    + apply NoDup_cons. now split.
    + apply NoDup_cons. split; [|now apply IH].
      rewrite cluster_add_keys. intros [H|H]; [congruence | contradiction].
Qed.

Lemma cluster_add_positive c m :
  Forall (fun p => 0 < p.2) m -> Forall (fun p => 0 < p.2) (cluster_add c m).
Proof.
  induction m as [|[k v] m IH]; cbn; intros H.
  - constructor; [cbn; lia | constructor].
  - apply Forall_cons in H as [Hv H]. cbn in Hv.
    destruct (String.eqb k c); constructor; cbn; auto; lia.
Qed.

Lemma cluster_add_total c m : cluster_total (cluster_add c m) = cluster_total m + 1.
Proof.
  unfold cluster_total. induction m as [|[k v] m IH]; cbn; [lia|].
  destruct (String.eqb k c); cbn; lia.
Qed.

Lemma build_clusters_from final m :
  let m' := fold_left (fun m g => cluster_add (or_general (vg_category g)) m) final m in
  (NoDup (map fst m) -> NoDup (map fst m'))
  /\ (Forall (fun p => 0 < p.2) m -> Forall (fun p => 0 < p.2) m')
  /\ (forall c, cluster_get c m' = cluster_get c m + count_in c final)
  /\ cluster_total m' = cluster_total m + llen final.
Proof.
  revert m. induction final as [|g final IH]; intros m; cbn zeta.
  - cbn [fold_left]. unfold count_in, llen. cbn [List.filter length].
    split; [auto|]. split; [auto|]. split; [intros c; lia | lia].
  - cbn [fold_left].
    destruct (IH (cluster_add (or_general (vg_category g)) m)) as (A & B & C & D).
    cbn zeta in *. split; [|split; [|split]].
    + intros H. apply A. now apply cluster_add_NoDup.
    + intros H. apply B. now apply cluster_add_positive.
    + intros c. rewrite C, cluster_add_get. unfold count_in, llen. cbn.
      destruct (String.eqb (or_general (vg_category g)) c); cbn [length]; lia.
    + rewrite D, cluster_add_total. unfold llen. cbn [length]. lia.
Qed.

Lemma cluster_get_elem c n m :
  NoDup (map fst m) -> (c, n) ∈ m -> cluster_get c m = n.
Proof.
  induction m as [|[k v] m IH]; intros Hnd Hin; [inversion Hin|].
  cbn in Hnd. apply NoDup_cons in Hnd as [Hk Hnd]. cbn.
  apply elem_of_cons in Hin as [[= <- <-]|Hin].
  - now rewrite String.eqb_refl.
  - destruct (String.eqb_spec k c) as [->|_]; [|now apply IH].
    exfalso. apply Hk. apply (list_elem_of_fmap_2 fst) in Hin. exact Hin.
Qed.

Lemma cluster_get_positive c m :
  0 < cluster_get c m -> (c, cluster_get c m) ∈ m.
Proof.
  induction m as [|[k v] m IH]; cbn; [lia|].
  destruct (String.eqb_spec k c) as [->|_]; intros H.
  - apply list_elem_of_here.
  - apply list_elem_of_further. now apply IH.
Qed.

(** X22. The clusters count the validated gaps by category, an empty category
    counting as "General Research": each category present has one entry,
    which holds the number of validated gaps of that category; no category
    absent has an entry; and the counts add up to the number of validated
    gaps. *)
Theorem research_clusters_count_the_validated_gaps final :
  let clusters := build_clusters final in
  NoDup (map fst clusters)
  /\ (forall c n, (c, n) ∈ clusters <-> n = count_in c final /\ 0 < n)
  /\ cluster_total clusters = llen final.
Proof.
  cbn zeta. unfold build_clusters.
  destruct (build_clusters_from final []) as (A & B & C & D). cbn zeta in *.
  specialize (A (NoDup_nil_2 (A:=string))). specialize (B (Forall_nil_2 _)).
  split; [exact A|]. split; [|exact D].
  intros c n. split.
  - intros Hin. pose proof (cluster_get_elem c n _ A Hin) as Hg.
    rewrite C in Hg. cbn in Hg. split; [lia|].
    eapply Forall_forall in B; eauto. exact B.
  - intros [-> Hpos].
    assert (Hc : cluster_get c
                   (fold_left (fun m g => cluster_add (or_general (vg_category g)) m)
                      final [])
                 = count_in c final) by (rewrite C; cbn; lia).
    rewrite <- Hc in Hpos |- *. now apply cluster_get_positive.
Qed.

(** ** The emerging trends *)

(** X23. The emerging trends are never empty: they are drawn, without
    repetition and in a fixed order, from four labels, and stand at the
    default label alone when no keyword is found. *)
Theorem emerging_trends_shape final :
  let trends := build_emerging_trends final in
  trends <> []
  /\ NoDup trends
  /\ (length trends <= 4)%nat
  /\ (trends = ["Advanced AI Techniques"]
      \/ trends ⊆ ["Real-Time Edge Computing"; "Robust AI Systems";
                    "Cross-Domain Adaptation"; "Multi-Modal AI"])
  /\ (build_emerging_trends [] = ["Advanced AI Techniques"]).
Proof.
  cbn zeta. split; [|split; [|split; [|split; [|reflexivity]]]];
    unfold build_emerging_trends;
    set (t := Py.join " " _);
    destruct (Py.contains "edge" t || Py.contains "real-time" t),
             (Py.contains "robust" t || Py.contains "adversarial" t),
             (Py.contains "cross-domain" t || Py.contains "generalization" t),
             (Py.contains "multi-modal" t || Py.contains "fusion" t);
    cbn [app].
  all: try discriminate.
  all: try (apply (bool_decide_unpack _); vm_compute; exact I).
  all: try (cbn; lia).
  all: first [left; reflexivity | right; set_solver].
Qed.

Lemma prefix_empty s : String.prefix "" s = true.
Proof. destruct s; reflexivity. Qed.

Lemma prefix_of_empty sub : String.prefix sub "" = true -> sub = "".
Proof.
  destruct sub as [|a sub]; [reflexivity|]. cbn.
  destruct (String.string_dec (String a sub) ""); discriminate.
Qed.

Lemma append_cons c s t : String c s +:+ t = String c (s +:+ t).
Proof. reflexivity. Qed.

Lemma prefix_app sub s t :
  String.prefix sub s = true -> String.prefix sub (s +:+ t) = true.
Proof.
  revert sub. induction s as [|c s IH]; intros sub H.
  - apply prefix_of_empty in H as ->. apply prefix_empty.
  - rewrite append_cons. cbn in H |- *. destruct sub as [|a sub]; [reflexivity|].
    destruct (Ascii.ascii_dec a c); [now apply IH | discriminate].
Qed.

Lemma contains_app_l sub s t :
  Py.contains sub s = true -> Py.contains sub (s +:+ t) = true.
Proof.
  induction s as [|c s IH].
  - unfold Py.contains at 1. rewrite orb_false_r. intros H.
    apply prefix_of_empty in H as ->. destruct t; reflexivity.
  - rewrite append_cons. cbn [Py.contains]. intros H.
    apply orb_true_iff in H as [H|H]; apply orb_true_iff.
    + left. rewrite <- append_cons. apply (prefix_app sub (String c s) t H).
    + right. now apply IH.
Qed.

Lemma contains_app_r sub s t :
  Py.contains sub t = true -> Py.contains sub (s +:+ t) = true.
Proof.
  intros H. induction s as [|c s IH]; [exact H|].
  rewrite append_cons. cbn [Py.contains]. apply orb_true_iff. now right.
Qed.

Lemma contains_join sub sep l x :
  x ∈ l -> Py.contains sub x = true -> Py.contains sub (Py.join sep l) = true.
Proof.
  unfold Py.join. intros Hx Hc. induction l as [|a l IH]; [inversion Hx|].
  destruct l as [|b l].
  - apply list_elem_of_singleton in Hx as ->. exact Hc.
  - change (String.concat sep (a :: b :: l))
      with (a +:+ sep +:+ String.concat sep (b :: l)).
    apply elem_of_cons in Hx as [->|Hx].
    + now apply contains_app_l.
    + apply contains_app_r, contains_app_r. now apply IH.
Qed.

(** X24. A keyword in the description of a validated gap, in any letter case,
    brings its trend: "edge" or "real-time" bring "Real-Time Edge
    Computing", "robust" or "adversarial" bring "Robust AI Systems",
    "cross-domain" or "generalization" bring "Cross-Domain Adaptation", and
    "multi-modal" or "fusion" bring "Multi-Modal AI". *)
Theorem keyword_brings_its_trend final g :
  g ∈ final ->
  let d := Py.lower (vg_description g) in
  let trends := build_emerging_trends final in
  (Py.contains "edge" d || Py.contains "real-time" d = true ->
     "Real-Time Edge Computing" ∈ trends)
  /\ (Py.contains "robust" d || Py.contains "adversarial" d = true ->
        "Robust AI Systems" ∈ trends)
  /\ (Py.contains "cross-domain" d || Py.contains "generalization" d = true ->
        "Cross-Domain Adaptation" ∈ trends)
  /\ (Py.contains "multi-modal" d || Py.contains "fusion" d = true ->
        "Multi-Modal AI" ∈ trends).
Proof.
  intros Hg d trends. subst trends. unfold build_emerging_trends.
  set (t := Py.join " " _).
  assert (Hk : forall k, Py.contains k d = true -> Py.contains k t = true).
  { intros k Hk. subst t. apply (contains_join k " " _ d); [|exact Hk].
    apply (list_elem_of_fmap_2 (fun g => Py.lower (vg_description g))). exact Hg. }
  assert (Hor : forall k1 k2, Py.contains k1 d || Py.contains k2 d = true ->
                  Py.contains k1 t || Py.contains k2 t = true).
  { intros k1 k2 H. apply orb_true_iff in H as [H|H]; apply orb_true_iff;
      [left | right]; now apply Hk. }
  pose proof (Hor "edge" "real-time") as H1.
  pose proof (Hor "robust" "adversarial") as H2.
  pose proof (Hor "cross-domain" "generalization") as H3.
  pose proof (Hor "multi-modal" "fusion") as H4.
  clearbody t d. clear Hk Hor.
  destruct (Py.contains "edge" t || Py.contains "real-time" t),
           (Py.contains "robust" t || Py.contains "adversarial" t),
           (Py.contains "cross-domain" t || Py.contains "generalization" t),
           (Py.contains "multi-modal" t || Py.contains "fusion" t);
    cbn [app];
    (split; [intros H; apply H1 in H; first [discriminate | set_solver]|]);
    (split; [intros H; apply H2 in H; first [discriminate | set_solver]|]);
    (split; [intros H; apply H3 in H; first [discriminate | set_solver]|]);
    intros H; apply H4 in H; first [discriminate | set_solver].
Qed.

Lemma keyword_brings_its_trend_witness :
  "Real-Time Edge Computing" ∈ build_emerging_trends [edge_gap].
Proof.
  destruct (keyword_brings_its_trend [edge_gap] edge_gap) as (H & _).
  - apply list_elem_of_here.
  - apply H. reflexivity.
Defined.

(** ** The synthesized response *)

Lemma map_fst_relabel {B C} (f : string -> B -> C) (m : list (string * B)) :
  map fst (map (fun '(c, x) => (c, f c x)) m) = map fst m.
Proof. induction m as [|[c x] m IH]; cbn; [reflexivity | now rewrite IH]. Qed.

Lemma synthesize_some order s rid seed start pt :
  Qeq_bool (pt / 60) 0 = false ->
  exists resp, synthesize order s rid seed start pt = Some resp.
Proof. intros H. unfold synthesize. rewrite H. eauto. Qed.

(** X25. The parts of a synthesized response agree with one another and with the
    state they are drawn from. The validated gaps are the final list, and
    [gaps_validated] is their number, which is also what the cluster counts
    add up to; the papers analysed and the successful extractions are both
    the number of analysed papers. The landscape names between one and four
    dominant areas, at most three hottest areas and at most two bridges; the
    summary has four insights, two to four priorities and three or four
    investment opportunities; at most three eliminated gaps are listed; and
    momentum, technology readiness, patent landscape and funding trends
    have one entry for each cluster, in the order of the clusters. *)
Theorem synthesized_response_is_consistent order s rid seed start pt resp :
  synthesize order s rid seed start pt = Some resp ->
  let md := process_metadata resp in
  let ls := research_landscape md in
  let ri := research_intelligence resp in
  let es := executive_summary resp in
  validated_gaps resp = final_gaps_list s
  /\ gaps_validated md = llen (validated_gaps resp)
  /\ cluster_total (research_clusters ls) = gaps_validated md
  /\ total_papers_analyzed md = llen (analyzed_papers s)
  /\ successful_paper_extractions md = total_papers_analyzed md
  /\ (1 <= length (dominant_research_areas ls) <= 4)%nat
  /\ (length (hottest_research_areas ls) <= 3)%nat
  /\ (length (interdisciplinary_bridges ls) <= 2)%nat
  /\ length (key_insights es) = 4%nat
  /\ (2 <= length (research_priorities es) <= 4)%nat
  /\ (3 <= length (investment_opportunities es) <= 4)%nat
  /\ (length (eliminated_gaps ri) <= 3)%nat
  /\ map fst (research_momentum ri) = map fst (research_clusters ls)
  /\ map fst (technology_readiness ri) = map fst (research_clusters ls)
  /\ map fst (patent_landscape ri) = map fst (research_clusters ls)
  /\ map fst (funding_trends ri) = map fst (research_clusters ls).
Proof.
  unfold synthesize. destruct (Qeq_bool (pt / 60) 0); [discriminate|].
  set (ac := match order _ with [] => ["General Research"] | l => l end).
  assert (Hac : ac <> []) by (subst ac; destruct (order _); discriminate).
  clearbody ac. intros [= <-].
  cbn [process_metadata research_landscape research_intelligence
       executive_summary validated_gaps gaps_validated research_clusters
       total_papers_analyzed successful_paper_extractions
       dominant_research_areas hottest_research_areas
       interdisciplinary_bridges key_insights research_priorities
       investment_opportunities eliminated_gaps research_momentum
       technology_readiness patent_landscape funding_trends].
  split; [reflexivity|]. split; [reflexivity|].
  split.
  { unfold build_clusters.
    destruct (build_clusters_from (final_gaps_list s) []) as (_ & _ & _ & D).
    cbn zeta in D. rewrite D. cbn. lia. }
  split; [reflexivity|]. split; [reflexivity|].
  split; [rewrite length_take; destruct ac; [congruence | cbn [length]; lia]|].
  split; [rewrite length_map, length_take; lia|].
  split; [rewrite length_map, length_zip, !length_take; lia|].
  split; [reflexivity|].
  split; [destruct ac as [|a [|b [|c r]]]; [congruence | cbn [lookup list_lookup app length]; lia..]|].
  split; [destruct ac as [|a [|b r]]; [congruence | cbn [lookup list_lookup app length]; lia..]|].
  split; [rewrite length_map, length_seq; lia|].
  rewrite !map_fst_relabel. repeat split.
Qed.

Lemma synthesized_response_is_consistent_witness :
  exists resp,
    synthesize remove_dups initialize "r" "seed" 0 60 = Some resp
    /\ gaps_validated (process_metadata resp) = llen (validated_gaps resp)
    /\ length (key_insights (executive_summary resp)) = 4%nat.
Proof.
  destruct (synthesize_some remove_dups initialize "r" "seed" 0 60 eq_refl)
    as [resp E].
  exists resp. split; [exact E|].
  destruct (synthesized_response_is_consistent _ _ _ _ _ _ _ E)
    as (_ & H1 & _ & _ & _ & _ & _ & _ & H2 & _).
  split; [exact H1 | exact H2].
Defined.

(** ** Seeding, and the gaps of an analysed paper *)

Global Instance apart_from_gaps_preorder : PreOrder apart_from_gaps.
Proof.
  split.
  - intros s. repeat split.
  - intros s1 s2 s3 (A1 & B1 & C1 & D1 & E1 & F1 & G1 & H1)
                     (A2 & B2 & C2 & D2 & E2 & F2 & G2 & H2).
    repeat split; congruence.
Qed.

Lemma apart_extract_statements W paper cat l :
  preserves apart_from_gaps (extract_statements W paper cat l).
Proof.
  induction l as [|x l IH]; cbn [extract_statements];
    repeat first
      [ solve [auto 1]
      | structural
      | apply preserves_modify; tc; intros; repeat split
      | apply preserves_interact; tc; intros; repeat split
      | unfold_steps ].
Qed.

(** Extraction as a whole, with what it leaves alone. *)
Lemma extract_gaps_run W paper s :
  exists news s',
    _extract_gaps_from_paper W paper s = (Ok tt, s')
    /\ map gap_facts news
       = map (fun d => (d, "Limitation", url paper, title paper, 0))
           (meaningful (limitations paper))
         ++ map (fun d => (d, "Future Work", url paper, title paper, 0))
              (meaningful (future_work paper))
    /\ heap s' = heap s ++ news
    /\ potential_gaps_db s'
       = potential_gaps_db s ++ seq (length (heap s)) (length news)
    /\ apart_from_gaps s s'.
Proof.
  unfold _extract_gaps_from_paper. rewrite bind_run.
  destruct (extract_statements_spec W paper "Limitation" (limitations paper) s)
    as (n1 & H1 & H2 & H3 & H4 & _).
  pose proof (apart_extract_statements W paper "Limitation" (limitations paper) s)
    as F1.
  destruct (extract_statements W paper "Limitation" (limitations paper) s)
    as [r1 s1]. cbn in H1, H3, H4, F1. subst r1.
  destruct (extract_statements_spec W paper "Future Work" (future_work paper) s1)
    as (n2 & G1 & G2 & G3 & G4 & _).
  pose proof (apart_extract_statements W paper "Future Work" (future_work paper) s1)
    as F2.
  destruct (extract_statements W paper "Future Work" (future_work paper) s1)
    as [r2 s2]. cbn in G1, G3, G4, F2. subst r2.
  exists (n1 ++ n2), s2. rewrite G3, G4, H3, H4.
  split; [reflexivity|]. split; [now rewrite map_app, H2, G2|].
  split; [now rewrite app_assoc|]. split; [|etransitivity; eauto].
  rewrite <- app_assoc. f_equal. rewrite !length_app, seq_app. reflexivity.
Qed.

(** X26. Seeding analyses the seed document once. When the analysis gives
    nothing or raises, seeding raises and leaves the state as it was, but
    for that call in the log. When it gives a paper, seeding returns it,
    makes it the only analysed paper, and puts its gaps behind the pending
    store. Seeding resets neither the pending store nor the final list,
    which is why [initialize] runs before each analysis; and it queues no
    gap for exploration. *)
Theorem seeding_spec W seed_url s :
  let res := analyze_paper W (length (log s)) seed_url in
  let out := _phase_1_seeding W seed_url s in
  gap_search_queue out.2 = gap_search_queue s
  /\ final_gaps_list out.2 = final_gaps_list s
  /\ match res with
     | Ok (Some p) =>
         out.1 = Ok p
         /\ analyzed_papers out.2 = [p]
         /\ analyzed_papers_set out.2 = {[seed_url]}
         /\ papers_to_analyze_queue out.2 = [seed_url]
         /\ exists news,
              heap out.2 = heap s ++ news
              /\ potential_gaps_db out.2
                 = potential_gaps_db s ++ seq (length (heap s)) (length news)
              /\ map gap_facts news
                 = map (fun d => (d, "Limitation", url p, title p, 0))
                     (meaningful (limitations p))
                   ++ map (fun d => (d, "Future Work", url p, title p, 0))
                        (meaningful (future_work p))
     | _ =>
         out = (Raise, set_log (fun l => l ++ [EvAnalyze seed_url res]) s)
     end.
Proof.
  cbn zeta.
  assert (Hfail : forall res,
    analyze_paper W (length (log s)) seed_url = res ->
    (forall p, res <> Ok (Some p)) ->
    _phase_1_seeding W seed_url s
    = (Raise, set_log (fun l => l ++ [EvAnalyze seed_url res]) s)).
  { intros res Hres Hno. unfold _phase_1_seeding, call_analyze_paper, interact.
    rewrite bind_run. cbn beta iota zeta. rewrite Hres.
    destruct res as [[p|]|]; [exfalso; now apply (Hno p) | reflexivity..]. }
  destruct (analyze_paper W (length (log s)) seed_url) as [[p|]|] eqn:Han.
  2,3: rewrite (Hfail _ eq_refl) by discriminate; repeat split.
  clear Hfail.
  assert (Hrun : exists news s',
    _phase_1_seeding W seed_url s = (Ok p, s')
    /\ map gap_facts news
       = map (fun d => (d, "Limitation", url p, title p, 0))
           (meaningful (limitations p))
         ++ map (fun d => (d, "Future Work", url p, title p, 0))
              (meaningful (future_work p))
    /\ heap s' = heap s ++ news
    /\ potential_gaps_db s'
       = potential_gaps_db s ++ seq (length (heap s)) (length news)
    /\ analyzed_papers_set s' = {[seed_url]}
    /\ analyzed_papers s' = [p]
    /\ papers_to_analyze_queue s' = [seed_url]
    /\ gap_search_queue s' = gap_search_queue s
    /\ final_gaps_list s' = final_gaps_list s).
  { unfold _phase_1_seeding, call_analyze_paper, interact.
    rewrite bind_run. cbn beta iota zeta. rewrite Han.
    rewrite bind_run. unfold modify at 1. cbn beta iota zeta. rewrite bind_run.
    match goal with |- context [_extract_gaps_from_paper W p ?t] =>
      destruct (extract_gaps_run W p t)
        as (news & s' & -> & F & A & B & C1 & C2 & C3 & C4 & C5 & _)
    end.
    rewrite ret_run. exists news, s'. split; [reflexivity|].
    repeat split; assumption. }
  destruct Hrun as (news & s' & -> & F & A & B & C1 & C2 & C3 & C4 & C5).
  cbn [fst snd].
  split; [exact C4|]. split; [exact C5|]. split; [reflexivity|].
  split; [exact C2|]. split; [exact C1|]. split; [exact C3|].
  exists news. repeat split; assumption.
Qed.

(** X27. In deep mode, a document analysed with success during expansion is
    recorded (the list, the set and the count of analysed papers), its gaps
    are put behind the pending store, and exactly these gaps are queued for
    exploration, behind the queue; a frontier expansion is counted when
    there is at least one. *)
Theorem analysed_paper_queues_its_gaps W analysis_mode paper_url s p :
  is_light analysis_mode = false ->
  analyze_paper W (length (log s)) paper_url = Ok (Some p) ->
  let out := analyze_new_paper W analysis_mode paper_url s in
  exists news,
    let refs := seq (length (heap s)) (length news) in
    out.1 = Ok tt
    /\ map gap_facts news
       = map (fun d => (d, "Limitation", url p, title p, 0))
           (meaningful (limitations p))
         ++ map (fun d => (d, "Future Work", url p, title p, 0))
              (meaningful (future_work p))
    /\ heap out.2 = heap s ++ news
    /\ potential_gaps_db out.2 = potential_gaps_db s ++ refs
    /\ gap_search_queue out.2 = gap_search_queue s ++ refs
    /\ analyzed_papers out.2 = analyzed_papers s ++ [p]
    /\ analyzed_papers_set out.2 = analyzed_papers_set s ∪ {[paper_url]}
    /\ papers_analyzed out.2 = papers_analyzed s + 1
    /\ frontier_expansions (stats out.2)
       = frontier_expansions (stats s) + (if news is [] then 0 else 1).
Proof.
  intros Hmode Han out. subst out.
  assert (Hrun : exists news sF,
    analyze_new_paper W analysis_mode paper_url s = (Ok tt, sF)
    /\ map gap_facts news
       = map (fun d => (d, "Limitation", url p, title p, 0))
           (meaningful (limitations p))
         ++ map (fun d => (d, "Future Work", url p, title p, 0))
              (meaningful (future_work p))
    /\ heap sF = heap s ++ news
    /\ potential_gaps_db sF
       = potential_gaps_db s ++ seq (length (heap s)) (length news)
    /\ gap_search_queue sF
       = gap_search_queue s ++ seq (length (heap s)) (length news)
    /\ analyzed_papers sF = analyzed_papers s ++ [p]
    /\ analyzed_papers_set sF = analyzed_papers_set s ∪ {[paper_url]}
    /\ papers_analyzed sF = papers_analyzed s + 1
    /\ frontier_expansions (stats sF)
       = frontier_expansions (stats s) + (if news is [] then 0 else 1)).
  { unfold analyze_new_paper, call_analyze_paper, interact.
    rewrite bind_run. cbn beta iota zeta. rewrite Han, Hmode. cbn [negb].
    rewrite bind_run. unfold modify at 1. cbn beta iota zeta.
    unfold get. rewrite bind_run. cbn beta iota zeta. rewrite bind_run.
    match goal with |- context [_extract_gaps_from_paper W p ?t] =>
      destruct (extract_gaps_run W p t)
        as (news & s' & -> & F & A & B & C1 & C2 & C3 & C4 & C5 & C6 & C7 & C8)
    end.
    rewrite bind_run. cbn beta iota zeta.
    cbn [heap potential_gaps_db final_gaps_list gap_search_queue analyzed_papers
         analyzed_papers_set papers_to_analyze_queue research_frontier
         papers_analyzed stats set_papers_analyzed
         set_analyzed_papers set_analyzed_papers_set set_log] in *.
    exists news.
    assert (Hcount : Z.of_nat (length (potential_gaps_db s'))
                     - Z.of_nat (length (potential_gaps_db s))
                     = Z.of_nat (length news)).
    { rewrite B, length_app, length_seq. lia. }
    rewrite Hcount.
    destruct news as [|g news].
    - change (0 <? Z.of_nat (length (@nil ResearchGap)))%Z with false.
      cbn iota. exists s'. rewrite ret_run. split; [reflexivity|]. rewrite A, B, C1, C2, C4, C7, C8. cbn [seq length].
      rewrite ?app_nil_r. repeat split; try assumption; lia.
    - destruct (Z.ltb_spec 0 (Z.of_nat (length (g :: news)))) as [_|H];
        [|cbn [length] in H; lia].
      unfold modify. eexists. split; [reflexivity|].
      cbn [heap potential_gaps_db gap_search_queue analyzed_papers
           analyzed_papers_set papers_analyzed stats set_stats
           set_gap_search_queue frontier_expansions add_frontier_expansions].
      rewrite A, B, C1, C2, C4, C7, C8.
      split; [exact F|]. split; [reflexivity|]. split; [reflexivity|].
      split; [|repeat split].
      f_equal. unfold Py.slice_last. rewrite Nat2Z.id, length_app, length_seq.
      replace (length (potential_gaps_db s) + length (g :: news)
               - length (g :: news))%nat
        with (length (potential_gaps_db s)) by lia.
      apply drop_app_length. }
  destruct Hrun as (news & sF & -> & R). exists news. cbn zeta. cbn [fst snd].
  split; [reflexivity | exact R].
Qed.

Lemma analysed_paper_queues_its_gaps_witness :
  let W := W_lab (Ok false) [] in
  exists news : list ResearchGap,
    (analyze_new_paper W "deep" "seed" initialize).1 = Ok tt
    /\ gap_search_queue (analyze_new_paper W "deep" "seed" initialize).2
       = gap_search_queue initialize ++ seq (length (heap initialize)) (length news).
Proof.
  cbn zeta.
  destruct (analysed_paper_queues_its_gaps (W_lab (Ok false) []) "deep" "seed"
              initialize
              (paper_of "seed"
                 ["The model needs labelled data for every new domain";
                  "Inference is too slow for real-time use on edge devices"])
              eq_refl eq_refl) as (news & H1 & _ & _ & _ & H2 & _).
  exists news. split; [exact H1 | exact H2].
Defined.

(** ** The validation queries *)

(** X28. The queries generated for the validation of a gap only feed the query
    counter: their number is added to it when the generator answers, and
    nothing when it fails; the fallback queries built then are not used.
    Whatever the generator did, the validation search comes next and is
    asked about the description of the gap. When that search fails the
    iteration ends there with an exception. *)
Theorem validation_queries_only_feed_the_counter W d r s :
  let n := length (log s) in
  let g := heap s !!! r in
  let qres := generate_validation_queries W n g in
  let sres := search_for_gap_validation W (S n) (description g) in
  let out := find_validation_papers W d r s in
  (exists evs,
     new_events s out.2
     = EvQueries g qres :: EvSearchValidation (description g) sres :: evs)
  /\ search_queries_executed (stats out.2)
     = search_queries_executed (stats s)
       + match qres with Ok qs => Z.of_nat (length qs) | Raise => 0 end
  /\ (sres = Raise -> out.1 = Raise).
Proof.
  cbn zeta. unfold find_validation_papers, read_gap. rewrite bind_run.
  cbn beta iota zeta. rewrite bind_run.
  set (g := heap s !!! r).
  set (qres := generate_validation_queries W (length (log s)) g).
  assert (H31 : exists s1 qs,
    try_except
      (qs ← call_generate_validation_queries W g;
       modify (set_stats (add_search_queries_executed (Z.of_nat (length qs))));;
       mret qs) (mret (fallback_queries g)) s = (Ok qs, s1)
    /\ log s1 = log s ++ [EvQueries g qres]
    /\ search_queries_executed (stats s1)
       = search_queries_executed (stats s)
         + match qres with Ok qs => Z.of_nat (length qs) | Raise => 0 end).
  { unfold try_except, call_generate_validation_queries, interact, modify.
    rewrite bind_run. cbn beta iota zeta. fold qres.
    destruct qres as [qs|].
    - rewrite bind_run. cbn beta iota zeta. rewrite ret_run.
      eexists _, qs. split; [reflexivity|]. cbn. split; reflexivity.
    - rewrite ret_run. eexists _, _. split; [reflexivity|]. cbn.
      split; [reflexivity | lia]. }
  destruct H31 as (s1 & qs & -> & L1 & S1).
  assert (Hlen1 : length (log s1) = S (length (log s))).
  { rewrite L1, length_app. cbn. lia. }
  unfold call_search_for_gap_validation, interact. rewrite bind_run.
  cbn beta iota zeta. rewrite Hlen1.
  set (sres := search_for_gap_validation W (S (length (log s))) (description g)).
  destruct sres as [urls|] eqn:Hs.
  2:{ cbn [fst snd]. unfold new_events. cbn [log set_log stats].
      rewrite L1, <- app_assoc, drop_app_length.
      split; [exists []; reflexivity|]. split; [exact S1 | reflexivity]. }
  set (s2 := set_log _ s1).
  assert (H33 : exists s3 n e3,
    match d with
    | None => mret 2%nat
    | Some d0 =>
        if Py.truthy d0 then
          t ← now W; mret (if Qlt_le_dec d0 (t + 30) then 1%nat else 2%nat)
        else mret 2%nat
    end s2 = (Ok n, s3)
    /\ log s3 = log s2 ++ e3 /\ stats s3 = stats s2).
  { destruct d as [d0|]; [destruct (Py.truthy d0)|].
    - rewrite bind_run, now_run. cbn beta iota zeta. rewrite ret_run.
      eexists _, _, [_]. split; [reflexivity|]. split; reflexivity.
    - rewrite ret_run. exists s2, 2%nat, []. now rewrite app_nil_r.
    - rewrite ret_run. exists s2, 2%nat, []. now rewrite app_nil_r. }
  rewrite bind_run. destruct H33 as (s3 & n & e3 & -> & L3 & S3).
  destruct (analyze_validation_papers_spec W (take n urls) [] s3)
    as (e4 & L4 & _ & _ & _ & _ & S4 & _).
  destruct (analyze_validation_papers W (take n urls) [] s3) as [res s4].
  cbn [fst snd] in *. split; [|split; [|discriminate]].
  - exists (e3 ++ e4). apply new_events_app.
    rewrite L4, L3. subst s2. cbn [log set_log]. rewrite L1, <- !app_assoc.
    reflexivity.
  - rewrite S4, S3. subst s2. cbn [stats set_log]. exact S1.
Qed.

(** ** The record of an explored gap *)

Global Instance frontier_kept_preorder : PreOrder frontier_kept.
Proof.
  split.
  - intros s. split; reflexivity.
  - intros s1 s2 s3 [A1 B1] [A2 B2]. split; congruence.
Qed.

Ltac kept_auto :=
  repeat first
    [ solve [auto 1]
    | structural
    | apply preserves_modify; tc; intros; split; reflexivity
    | apply preserves_interact; tc; intros; split; reflexivity
    | unfold_steps ].

Section Frontier_kept.
Variable W : Collaborators.

Lemma kept_extract_statements paper cat l :
  preserves frontier_kept (extract_statements W paper cat l).
Proof. induction l as [|x l IH]; cbn [extract_statements]; kept_auto. Qed.

Lemma kept_analyze_discovered mode mp d urls :
  preserves frontier_kept (analyze_discovered W mode mp d urls).
Proof.
  pose proof kept_extract_statements.
  induction urls as [|u urls IH]; cbn [analyze_discovered]; kept_auto.
Qed.

Lemma kept_discovery mode g :
  preserves frontier_kept
    (if is_light mode then _search_for_gap_solutions W g 1
     else
       elimination_papers ← _search_for_gap_solutions W g 5;
       expansion_papers ← _search_for_related_research W g;
       mret (set_order W (elimination_papers ++ expansion_papers))).
Proof. kept_auto. Qed.

Lemma grows_discovery mode g :
  preserves grows
    (if is_light mode then _search_for_gap_solutions W g 1
     else
       elimination_papers ← _search_for_gap_solutions W g 5;
       expansion_papers ← _search_for_related_research W g;
       mret (set_order W (elimination_papers ++ expansion_papers))).
Proof. grows_auto. Qed.

End Frontier_kept.

(** X29. The exploration of a gap is recorded at its very end: the first 50
    characters of the description of the gap enter the explored frontier
    and the counter of explored areas grows by one. When the exploration
    raises (which the loop absorbs), neither happens: the gap is not counted
    as explored, although documents found for it may have been analysed. *)
Theorem explored_gap_is_recorded_unless_it_raised W analysis_mode max_papers
    timeout_deadline r s :
  (r < length (heap s))%nat ->
  let out := explore_gap W analysis_mode max_papers timeout_deadline r s in
  let topic := Py.str_take 50 (description (heap s !!! r)) in
  match out.1 with
  | Ok _ =>
      research_frontier out.2 = research_frontier s ∪ {[topic]}
      /\ research_areas_explored (stats out.2)
         = research_areas_explored (stats s) + 1
  | Raise =>
      research_frontier out.2 = research_frontier s
      /\ research_areas_explored (stats out.2) = research_areas_explored (stats s)
  end.
Proof.
  intros Hr. cbn zeta.
  remember (explore_gap W analysis_mode max_papers timeout_deadline r s) as out
    eqn:Hout.
  unfold explore_gap, read_gap in Hout. rewrite bind_run in Hout.
  cbn beta iota zeta in Hout. rewrite bind_run in Hout.
  pose proof (kept_discovery W analysis_mode (heap s !!! r) s) as K1.
  pose proof (grows_discovery W analysis_mode (heap s !!! r) s) as G1.
  destruct ((if is_light analysis_mode
             then _search_for_gap_solutions W (heap s !!! r) 1
             else
               elimination_papers ← _search_for_gap_solutions W (heap s !!! r) 5;
               expansion_papers ← _search_for_related_research W (heap s !!! r);
               mret (set_order W (elimination_papers ++ expansion_papers))) s)
    as [[urls|] s1]; cbn [fst snd] in *; [|subst out; cbn [fst snd]; exact K1].
  rewrite bind_run in Hout.
  pose proof (kept_analyze_discovered W analysis_mode max_papers timeout_deadline
                urls s1) as K2.
  pose proof (grows_analyze_discovered W analysis_mode max_papers timeout_deadline
                urls s1) as G2.
  destruct (analyze_discovered W analysis_mode max_papers timeout_deadline urls s1)
    as [[[]|] s2]; cbn [fst snd] in *.
  2:{ subst out. cbn [fst snd]. destruct K1 as [A1 B1], K2 as [A2 B2].
      split; congruence. }
  unfold modify in Hout. rewrite bind_run in Hout. cbn beta iota zeta in Hout.
  subst out.
  cbn [fst snd research_frontier stats set_stats set_research_frontier
       research_areas_explored add_research_areas_explored].
  destruct K1 as [A1 B1], K2 as [A2 B2]. rewrite A2, A1, B2, B1.
  assert (Hd : description (heap s2 !!! r) = description (heap s !!! r)).
  { assert (G : grows s s2) by (etransitivity; eauto).
    destruct G as (_ & _ & [_ Hh] & _). now destruct (Hh r Hr) as (_ & -> & _). }
  rewrite Hd. split; reflexivity.
Qed.

Lemma explored_gap_is_recorded_unless_it_raised_witness :
  let s := seeded W_found in
  let out := explore_gap W_found "deep" 10 None 0%nat s in
  match out.1 with
  | Ok _ =>
      research_frontier out.2
      = research_frontier s ∪ {[Py.str_take 50 (description (heap s !!! 0%nat))]}
      /\ research_areas_explored (stats out.2)
         = research_areas_explored (stats s) + 1
  | Raise =>
      research_frontier out.2 = research_frontier s
      /\ research_areas_explored (stats out.2) = research_areas_explored (stats s)
  end.
Proof.
  cbn zeta.
  apply (explored_gap_is_recorded_unless_it_raised W_found "deep" 10 None 0%nat
           (seeded W_found)).
  assert (L : length (heap (seeded W_found)) = 2%nat) by (vm_compute; reflexivity).
  rewrite L. lia.
Defined.
